(** * god (go-daemons): the remote service lifecycle, verified on a shallow embedding

    The development follows the layout of the Go sources:
    - [GoStrings]   the functions of Go's [strings] package the code calls;
    - [sshcmd]      [Client.Exec] and [Client.WalkDir] (package sshcmd);
    - [runner]      [Service], its steps, [Install] / [Uninstall], the unit
                    template, the configuration loader (package runner).

    Go strings are byte sequences and are modelled by [string]; a Go [error]
    is [option error] with [None] for [nil]. *)

From Stdlib Require Import ZArith Lia Bool Ascii String DecimalString.
From stdpp Require Import base option list strings gmap.

Set Warnings "-register-all".

Local Open Scope Z_scope.

(** ** Go's [strings] package *)

Module GoStrings.

Definition LF : ascii := "010"%char.
Definition nl : string := String LF "".

(** [strings.HasPrefix]. *)
Definition HasPrefix (s prefix : string) : bool := String.prefix prefix s.

(** [strings.HasSuffix]:
    [len(s) >= len(suffix) && s[len(s)-len(suffix):] == suffix]. *)
Definition HasSuffix (s suffix : string) : bool :=
  (String.length suffix <=? String.length s)%nat &&
  String.eqb
    (String.substring (String.length s - String.length suffix)
                      (String.length suffix) s)
    suffix.

(** [strings.TrimSuffix]: [s] without the trailing [suffix], or [s] itself
    when it does not end with it. *)
Definition TrimSuffix (s suffix : string) : string :=
  if HasSuffix s suffix
  then String.substring 0 (String.length s - String.length suffix) s
  else s.

(** [strings.Contains]: [substr] occurs in [s]. *)
Fixpoint Contains (s substr : string) : bool :=
  String.prefix substr s ||
  match s with
  | EmptyString => false
  | String _ s' => Contains s' substr
  end.

(** [strings.Split(s, sep)] for a separator of one byte: the fields
    between the separators. *)
Fixpoint Split (s : string) (sep : ascii) : list string :=
  match s with
  | EmptyString => [""]
  | String c s' =>
      if Ascii.eqb c sep then "" :: Split s' sep
      else match Split s' sep with
           | h :: t => String c h :: t
           | [] => [String c ""]
           end
  end.

(** [slices.Contains] on strings. *)
Definition slices_Contains (l : list string) (x : string) : bool :=
  existsb (String.eqb x) l.

Definition upper_byte (c : ascii) : ascii :=
  let n := nat_of_ascii c in
  if ((97 <=? n) && (n <=? 122))%nat then ascii_of_nat (n - 32) else c.

(** [strings.ToUpper] on the ASCII strings it is applied to here (YAML keys
    and the output of [serviceNameToEnvName]'s mapping). *)
Fixpoint ToUpper (s : string) : string :=
  match s with
  | EmptyString => EmptyString
  | String c s' => String (upper_byte c) (ToUpper s')
  end.

(** [strings.Join]. *)
Fixpoint Join (elems : list string) (sep : string) : string :=
  match elems with
  | [] => ""
  | [x] => x
  | x :: rest => x +:+ sep +:+ Join rest sep
  end.

End GoStrings.
Export GoStrings.

(** ** Go's [path/filepath] package (Unix)

    [Clean] is written from its documented rules: repeated separators and
    [.] elements are dropped, an inner [..] removes the element before it, a
    [..] at the start of a rooted path is dropped, and the empty result is
    [.]. *)

Module Filepath.

Definition clean_step (rooted : bool) (stack : list string) (c : string)
  : list string :=
  if String.eqb c "" || String.eqb c "." then stack
  else if String.eqb c ".." then
    match stack with
    | top :: rest => if String.eqb top ".." then c :: stack else rest
    | [] => if rooted then [] else [c]
    end
  else c :: stack.

Definition IsAbs (path : string) : bool := String.prefix "/" path.

(** The elements that remain, first element first. *)
Definition elements (rooted : bool) (path : string) : list string :=
  rev (fold_left (clean_step rooted) (GoStrings.Split path "/") []).

Definition Clean (path : string) : string :=
  if String.eqb path "" then "."
  else
    let body := GoStrings.Join (elements (IsAbs path) path) "/" in
    if IsAbs path then "/" +:+ body
    else if String.eqb body "" then "." else body.

(** [filepath.Join]: the elements from the first non-empty one on, joined
    by the separator and cleaned; the empty string when all are empty. *)
Fixpoint Join (elem : list string) : string :=
  match elem with
  | [] => ""
  | e :: rest =>
      if String.eqb e "" then Join rest
      else Clean (GoStrings.Join elem "/")
  end.

(** What follows the last separator. *)
Definition last_element (path : string) : string :=
  List.last (GoStrings.Split path "/") "".

(** [filepath.Split]: the path up to and including the last separator,
    and what follows it. *)
Definition Split (path : string) : string * string :=
  let file := last_element path in
  (String.substring 0 (String.length path - String.length file) path, file).

Fixpoint strip_trailing_slashes (s : string) : string :=
  match s with
  | EmptyString => EmptyString
  | String c s' =>
      match strip_trailing_slashes s' with
      | EmptyString => if Ascii.eqb c "/" then EmptyString else String c EmptyString
      | r => String c r
      end
  end.

(** [filepath.Base]. *)
Definition Base (path : string) : string :=
  if String.eqb path "" then "."
  else
    let b := last_element (strip_trailing_slashes path) in
    if String.eqb b "" then "/" else b.

End Filepath.

(** ** Errors, progress messages *)

(** The dynamic types of the [error] values the code handles:
    [errors.New] / [fmt.Errorf] values, the status errors of the sftp
    package (on whose [Code] [DeleteFiles] switches), and errors of the ssh
    transport (a remote command that exits non-zero, a session that cannot
    be opened). *)
Inductive error : Type :=
| ErrorString (msg : string)
| StatusError (code : Z) (msg : string)
| TransportError (msg : string).

Definition Error (e : error) : string :=
  match e with
  | ErrorString m => m
  | StatusError _ m => m
  | TransportError m => m
  end.

#[global] Instance error_eq_dec : EqDecision error.
Proof. solve_decision. Defined.

(** [MessageStatus] with its bit values [1 << iota]. *)
Inductive MessageStatus : Type :=
| MessageNormal | MessageSuccess | MessageError | MessageWarning.

Definition MessageStatus_value (s : MessageStatus) : Z :=
  match s with
  | MessageNormal => Z.shiftl 1 0
  | MessageSuccess => Z.shiftl 1 1
  | MessageError => Z.shiftl 1 2
  | MessageWarning => Z.shiftl 1 3
  end.

#[global] Instance MessageStatus_eq_dec : EqDecision MessageStatus.
Proof. solve_decision. Defined.

Record message : Type := Message {
  serviceName : string;
  text : string;
  status : MessageStatus
}.

#[global] Instance message_eq_dec : EqDecision message.
Proof. solve_decision. Defined.

(** ** The configuration record (runner.go)

    [Conf] has nineteen string fields, three [int] fields, the list
    [CopyFiles] and the flag [Ignore].  The string and the [int] fields are
    indexed by their Go names, so that the reflective loader and the
    templates, which both address fields by name, can be written once. *)

Inductive sfield : Type :=
| User | Host | Port | PrivateKeyPath
| GoExecPath | GoBinDirectory | GoInstall
| GoPrivate | NetrcMachine | NetrcLogin | NetrcPassword
| SystemdPath | SystemdServicesDirectory | SystemdLingerDirectory
| ExecStart | WorkingDirectory | Environment | LogPath | RunAfterService.

Inductive ifield : Type :=
| StartLimitBurst | StartLimitIntervalSec | RestartSec.

#[global] Instance sfield_eq_dec : EqDecision sfield.
Proof. solve_decision. Defined.
#[global] Instance ifield_eq_dec : EqDecision ifield.
Proof. solve_decision. Defined.

Record Conf : Type := mkConf {
  str : sfield -> string;
  int : ifield -> Z;
  CopyFiles : list string;
  Ignore : bool
}.

(** A field of the struct, in the order of declaration. *)
Inductive field : Type :=
| FStr (f : sfield)
| FInt (f : ifield)
| FCopyFiles
| FIgnore.

#[global] Instance field_eq_dec : EqDecision field.
Proof. solve_decision. Defined.

Definition struct_fields : list field :=
  [ FStr User; FStr Host; FStr Port; FStr PrivateKeyPath;
    FStr GoExecPath; FStr GoBinDirectory; FStr GoInstall;
    FStr GoPrivate; FStr NetrcMachine; FStr NetrcLogin; FStr NetrcPassword;
    FStr SystemdPath; FStr SystemdServicesDirectory; FStr SystemdLingerDirectory;
    FStr ExecStart; FStr WorkingDirectory; FStr Environment; FStr LogPath;
    FStr RunAfterService;
    FInt StartLimitBurst; FInt StartLimitIntervalSec; FInt RestartSec;
    FCopyFiles; FIgnore ].

(** The Go name of a field. *)
Definition field_name (f : field) : string :=
  match f with
  | FStr User => "User" | FStr Host => "Host" | FStr Port => "Port"
  | FStr PrivateKeyPath => "PrivateKeyPath"
  | FStr GoExecPath => "GoExecPath" | FStr GoBinDirectory => "GoBinDirectory"
  | FStr GoInstall => "GoInstall" | FStr GoPrivate => "GoPrivate"
  | FStr NetrcMachine => "NetrcMachine" | FStr NetrcLogin => "NetrcLogin"
  | FStr NetrcPassword => "NetrcPassword"
  | FStr SystemdPath => "SystemdPath"
  | FStr SystemdServicesDirectory => "SystemdServicesDirectory"
  | FStr SystemdLingerDirectory => "SystemdLingerDirectory"
  | FStr ExecStart => "ExecStart" | FStr WorkingDirectory => "WorkingDirectory"
  | FStr Environment => "Environment" | FStr LogPath => "LogPath"
  | FStr RunAfterService => "RunAfterService"
  | FInt StartLimitBurst => "StartLimitBurst"
  | FInt StartLimitIntervalSec => "StartLimitIntervalSec"
  | FInt RestartSec => "RestartSec"
  | FCopyFiles => "CopyFiles"
  | FIgnore => "Ignore"
  end.

(** The [yaml:"..."] tag of a field. *)
Definition yaml_tag (f : field) : string :=
  match f with
  | FStr User => "user" | FStr Host => "host" | FStr Port => "port"
  | FStr PrivateKeyPath => "private_key_path"
  | FStr GoExecPath => "go_exec_path" | FStr GoBinDirectory => "go_bin_directory"
  | FStr GoInstall => "go_install" | FStr GoPrivate => "go_private"
  | FStr NetrcMachine => "netrc_machine" | FStr NetrcLogin => "netrc_login"
  | FStr NetrcPassword => "netrc_password"
  | FStr SystemdPath => "systemd_path"
  | FStr SystemdServicesDirectory => "systemd_services_directory"
  | FStr SystemdLingerDirectory => "systemd_linger_directory"
  | FStr ExecStart => "exec_start" | FStr WorkingDirectory => "working_directory"
  | FStr Environment => "environment" | FStr LogPath => "log_path"
  | FStr RunAfterService => "run_after_service"
  | FInt StartLimitBurst => "start_limit_burst"
  | FInt StartLimitIntervalSec => "start_limit_interval_sec"
  | FInt RestartSec => "restart_sec"
  | FCopyFiles => "copy_files"
  | FIgnore => "ignore"
  end.

Definition set_str (f : sfield) (v : string) (c : Conf) : Conf :=
  mkConf (fun g => if decide (g = f) then v else str c g)
         (int c) (CopyFiles c) (Ignore c).

Definition set_int (f : ifield) (v : Z) (c : Conf) : Conf :=
  mkConf (str c) (fun g => if decide (g = f) then v else int c g)
         (CopyFiles c) (Ignore c).

(** The zero value of the struct. *)
Definition zeroConf : Conf := mkConf (fun _ => "") (fun _ => 0) [] false.

(** [%d] / [%v] of an [int]. *)
Definition Itoa (z : Z) : string := NilZero.string_of_int (Z.to_int z).

(** ** Templates (html/template, the subset the code uses)

    The templates of the code consist of text, field actions [{{.Name}}],
    and [{{if .Name}} ... {{end}}] blocks, with the trim marker [{{- ]
    which removes the white space that precedes the action. *)

Module Template.

Inductive token : Type :=
| TokText (s : string)
| TokAction (body : string).

Definition push (c : ascii) (ts : list token) : list token :=
  match ts with
  | TokText s :: r => TokText (String c s) :: r
  | TokAction s :: r => TokAction (String c s) :: r
  | [] => []
  end.

(** Cut the source at the delimiters; [inact] says whether the scan is
    inside an action.  The head of the result is the piece being read. *)
Fixpoint lex (inact : bool) (s : string) : option (list token) :=
  match s with
  | EmptyString => if inact then None else Some [TokText ""]
  | String c1 s1 =>
      match s1 with
      | String c2 s2 =>
          if negb inact && Ascii.eqb c1 "{" && Ascii.eqb c2 "{" then
            ts ← lex true s2; Some (TokText "" :: ts)
          else if inact && Ascii.eqb c1 "}" && Ascii.eqb c2 "}" then
            ts ← lex false s2; Some (TokAction "" :: ts)
          else push c1 <$> lex inact s1
      | EmptyString => push c1 <$> lex inact s1
      end
  end.

Definition is_space (c : ascii) : bool :=
  Ascii.eqb c " " || Ascii.eqb c "009" || Ascii.eqb c "013" || Ascii.eqb c LF.

(** Remove trailing white space. *)
Fixpoint rtrim (s : string) : string :=
  match s with
  | EmptyString => EmptyString
  | String c s' =>
      match rtrim s' with
      | EmptyString => if is_space c then EmptyString else String c EmptyString
      | r => String c r
      end
  end.

(** Remove leading white space. *)
Fixpoint ltrim (s : string) : string :=
  match s with
  | EmptyString => EmptyString
  | String c s' => if is_space c then ltrim s' else s
  end.

Definition trim_left_marker (body : string) : bool := String.prefix "- " body.
Definition trim_right_marker (body : string) : bool := HasSuffix body " -".

(** Apply the trim markers of the actions to the neighbouring text;
    [after] says that the action before asked to trim what follows it. *)
Fixpoint apply_trim (after : bool) (ts : list token) : list token :=
  match ts with
  | TokText s :: r =>
      let s1 := if after then ltrim s else s in
      let s2 := match r with
                | TokAction b :: _ => if trim_left_marker b then rtrim s1 else s1
                | _ => s1
                end in
      TokText s2 :: apply_trim false r
  | TokAction b :: r => TokAction b :: apply_trim (trim_right_marker b) r
  | [] => []
  end.

(** The action without its trim markers and surrounding spaces. *)
Definition action_body (b : string) : string :=
  let b1 := if trim_left_marker b then String.substring 2 (String.length b - 2) b else b in
  let b2 := if trim_right_marker b1 then String.substring 0 (String.length b1 - 2) b1 else b1 in
  ltrim (rtrim b2).

Inductive node : Type :=
| TextNode (s : string)
| ActionNode (f : field)
| IfNode (f : field) (body : list node).

Definition field_by_name (n : string) : option field :=
  List.find (fun f => String.eqb (field_name f) n) struct_fields.

(** [.Name] *)
Definition parse_field (s : string) : option field :=
  match s with
  | String "." n => field_by_name n
  | _ => None
  end.

Inductive action : Type :=
| AField (f : field)
| AIf (f : field)
| AEnd.

Definition parse_action (b : string) : option action :=
  let b := action_body b in
  if String.eqb b "end" then Some AEnd
  else if String.prefix "if " b
  then AIf <$> parse_field (ltrim (String.substring 3 (String.length b - 3) b))
  else AField <$> parse_field b.

(** Build the tree: [cur] holds the nodes of the block being read, latest
    first; [stack] the enclosing [if] blocks. *)
Fixpoint build (ts : list token) (cur : list node)
         (stack : list (field * list node)) : option (list node) :=
  match ts with
  | [] => match stack with [] => Some (rev cur) | _ => None end
  | TokText s :: r =>
      build r (if String.eqb s "" then cur else TextNode s :: cur) stack
  | TokAction b :: r =>
      match parse_action b with
      | Some (AField f) => build r (ActionNode f :: cur) stack
      | Some (AIf f) => build r [] ((f, cur) :: stack)
      | Some AEnd =>
          match stack with
          | (f, outer) :: stack' => build r (IfNode f (rev cur) :: outer) stack'
          | [] => None
          end
      | None => None
      end
  end.

(** [template.New(name).Parse(text)]; [None] is a parse error. *)
Definition Parse (src : string) : option (list node) :=
  ts ← lex false src; build (apply_trim false ts) [] [].

(** The escaper html/template applies to an action in text context. *)
Fixpoint HTMLEscape (s : string) : string :=
  match s with
  | EmptyString => EmptyString
  | String c s' =>
      (if Ascii.eqb c "034" then "&#34;"
       else if Ascii.eqb c "&" then "&amp;"
       else if Ascii.eqb c "'" then "&#39;"
       else if Ascii.eqb c "+" then "&#43;"
       else if Ascii.eqb c "<" then "&lt;"
       else if Ascii.eqb c ">" then "&gt;"
       else if Ascii.eqb c "000" then String "239" (String "191" (String "189" ""))
       else String c "") +:+ HTMLEscape s'
  end.

(** The printed form of a field's value. *)
Definition print_field (f : field) (c : Conf) : string :=
  match f with
  | FStr g => str c g
  | FInt g => Itoa (int c g)
  | FCopyFiles => "[" +:+ Join (CopyFiles c) " " +:+ "]"
  | FIgnore => if Ignore c then "true" else "false"
  end.

(** Truth of a pipeline value: not the zero value of its type. *)
Definition truth (f : field) (c : Conf) : bool :=
  match f with
  | FStr g => negb (String.eqb (str c g) "")
  | FInt g => negb (int c g =? 0)
  | FCopyFiles => match CopyFiles c with [] => false | _ => true end
  | FIgnore => Ignore c
  end.

(** [Template.Execute]. *)
Fixpoint exec_node (c : Conf) (n : node) : string :=
  match n with
  | TextNode s => s
  | ActionNode f => HTMLEscape (print_field f c)
  | IfNode f body =>
      if truth f c
      then (fix go (l : list node) : string :=
              match l with
              | [] => ""
              | n' :: l' => exec_node c n' +:+ go l'
              end) body
      else ""
  end.

Fixpoint Execute (t : list node) (c : Conf) : string :=
  match t with
  | [] => ""
  | n :: t' => exec_node c n +:+ Execute t' c
  end.

End Template.

(** [fmt.Sprintf] for a format whose verbs are [%s], with one argument. *)
Fixpoint Sprintf1 (format arg : string) : string :=
  match format with
  | String "%" (String "s" rest) => arg +:+ rest
  | String c rest => String c (Sprintf1 rest arg)
  | EmptyString => EmptyString
  end.

Definition serviceTemplate : string :=
"[Unit]
Description=%s
{{- if .RunAfterService}}
After={{.RunAfterService}}
{{- end}}
{{- if .StartLimitBurst}}
StartLimitBurst={{.StartLimitBurst}}
{{- end}}
{{- if .StartLimitIntervalSec}}
StartLimitIntervalSec={{.StartLimitIntervalSec}}
{{- end}}

[Service]
Type=simple
Restart=always
{{- if .RestartSec}}
RestartSec={{.RestartSec}}
{{- end}}
{{- if .Environment}}
Environment={{.Environment}}
{{- end}}
{{- if .LogPath}}
StandardOutput=append:{{.LogPath}}
{{- end}}
{{- if .LogPath}}
StandardError=append:{{.LogPath}}
{{- end}}
WorkingDirectory={{.WorkingDirectory}}
ExecStart={{.ExecStart}}

[Install]
WantedBy=default.target".

(** ** The remote host behind the ssh and sftp libraries

    What the host answers is not in the repository: it is the interface this
    class fixes.  [Run] is [ssh.Session.Run] with the two buffers the code
    attaches to the session (standard output, standard error); the sftp
    operations are those of [sftp.Client] that the code calls. *)

Record RunResult : Type := mkRun {
  run_stdout : string;
  run_stderr : string;
  run_err : option error
}.

Class Remote (H : Type) : Type := {
  (** [ssh.Dial] for a user, host and port *)
  Dial : string -> string -> string -> H -> option error * H;
  NewSession : H -> option error * H;
  Run : string -> H -> RunResult * H;
  NewSftpClient : H -> option error * H;
  SftpMkdirAll : string -> H -> option error * H;
  SftpCreate : string -> H -> option error * H;
  (** [File.ReadFrom] on the file [Create] returned, by its path *)
  SftpWrite : string -> string -> H -> option error * H;
  SftpRemove : string -> H -> option error * H;
  SftpRemoveDirectory : string -> H -> option error * H
}.

(** A request sent to the remote host. *)
Inductive request : Type :=
| ReqRun (cmd : string)
| ReqMkdirAll (path : string)
| ReqCreate (path : string)
| ReqWrite (path : string) (data : string)
| ReqRemove (path : string)
| ReqRemoveDirectory (path : string).

#[global] Instance request_eq_dec : EqDecision request.
Proof. solve_decision. Defined.

(** The local files the tool reads: what [os.Lstat], [os.ReadDir] (entries
    in the order it returns them) and [os.Open] find.  Directories and files
    are taken to be readable. *)
Inductive lnode : Type :=
| LFile (data : string)
| LDir (entries : list (string * lnode)).

Definition IsDir (d : lnode) : bool :=
  match d with LDir _ => true | LFile _ => false end.

(** [sshcmd.Client]: the two library handles are pointers, [nil] until
    connected. *)
Record Client : Type := mkClient {
  SshClient : bool;
  SftClient : bool
}.

(** The state a service's methods act on: the remote host, the local files
    by path, the service's client, the runner's output channel (messages in
    the order sent) and the requests that reached the host, oldest first. *)
Record World (H : Type) : Type := mkWorld {
  host : H;
  localfs : string -> option lnode;
  client : Client;
  output : list message;
  wire : list request
}.
Arguments mkWorld {H}.
Arguments host {H}.
Arguments localfs {H}.
Arguments client {H}.
Arguments output {H}.
Arguments wire {H}.

(** A call returns, or panics (a nil dereference, a template that does not
    parse). *)
Inductive result (A : Type) : Type :=
| Ok (a : A)
| Panic (msg : string).
Arguments Ok {A}.
Arguments Panic {A}.

(** State passing; a panic unwinds through every caller. *)
Definition M (H A : Type) : Type := World H -> result A * World H.

Definition ret {H A} (a : A) : M H A := fun w => (Ok a, w).
Definition panic {H A} (msg : string) : M H A := fun w => (Panic msg, w).
Definition bind {H A B} (m : M H A) (k : A -> M H B) : M H B :=
  fun w =>
    match m w with
    | (Ok a, w') => k a w'
    | (Panic p, w') => (Panic p, w')
    end.

Declare Scope go_scope.
Delimit Scope go_scope with go.
Notation "x <- c1 ;; c2" := (bind c1 (fun x => c2))
  (at level 100, c1 at next level, right associativity) : go_scope.
Notation "c1 ;;; c2" := (bind c1 (fun _ => c2))
  (at level 100, right associativity) : go_scope.
(** [if err := step; err != nil { return err }] *)
Notation "'check!' c1 ;; c2" :=
  (bind c1 (fun err => match err with Some e => ret (Some e) | None => c2 end))
  (at level 100, c1 at next level, right associativity) : go_scope.

Local Open Scope go_scope.

(** ** Package sshcmd *)

Section Sshcmd.
Context {H : Type} `{Remote H}.

(** A request: recorded on the wire, answered by the host. *)
Definition request_host {A} (rq : request) (op : H -> A * H) : M H A :=
  fun w =>
    let '(a, h') := op (host w) in
    (Ok a, mkWorld h' (localfs w) (client w) (output w) (wire w ++ [rq])).

(** A library call that sends no request of the code's own (opening a
    session or the sftp subsystem). *)
Definition on_host {A} (op : H -> A * H) : M H A :=
  fun w =>
    let '(a, h') := op (host w) in
    (Ok a, mkWorld h' (localfs w) (client w) (output w) (wire w)).

Definition get_client : M H Client := fun w => (Ok (client w), w).

Definition set_SftClient (b : bool) : M H unit :=
  fun w => (Ok tt, mkWorld (host w) (localfs w)
                           (mkClient (SshClient (client w)) b)
                           (output w) (wire w)).

(** [Runner.SendMessage]: the message is delivered on the output channel. *)
Definition SendMessage (name txt : string) (st : MessageStatus) : M H unit :=
  fun w => (Ok tt, mkWorld (host w) (localfs w) (client w)
                           (output w ++ [Message name txt st]) (wire w)).

(** [os.Lstat]: the local file at a path, if any. *)
Definition Lstat (path : string) : M H (option lnode) :=
  fun w => (Ok (localfs w path), w).

(** [Client.Exec]. *)
Definition Client_Exec (cmd : string) : M H (string * option error) :=
  c <- get_client ;;
  if negb (SshClient c) then
    ret ("", Some (ErrorString "client is not connected"))
  else
    err <- on_host NewSession ;;
    match err with
    | Some e => ret ("", Some e)
    | None =>
        r <- request_host (ReqRun cmd) (Run cmd) ;;
        match run_err r with
        | Some e => ret (run_stderr r, Some e)
        | None => ret (run_stdout r, None)
        end
    end.

(** [Client.ConnectSftpClient]. *)
Definition ConnectSftpClient : M H (option error) :=
  c <- get_client ;;
  if SftClient c then ret None
  else
    err <- on_host NewSftpClient ;;
    match err with
    | Some e => ret (Some e)
    | None => set_SftClient true ;;; ret None
    end.

(** A method of [c.SftClient]: a nil handle panics. *)
Definition with_SftClient {A} (m : M H A) : M H A :=
  c <- get_client ;;
  if SftClient c then m
  else panic "invalid memory address or nil pointer dereference".

(** The callback of [filepath.WalkDir], with the state [S] its closure
    holds: path, entry ([None] for a nil [DirEntry]), error. *)
Definition WalkFunc (S : Type) : Type :=
  string -> option lnode -> option error -> S -> M H (option error * S).

(** [filepath.walkDir]: the entry itself, then the entries of a directory
    in the order [ReadDir] gives them, stopping at the first error.  (The
    callbacks of this code never return [SkipDir].) *)
Fixpoint walkDir {S} (fn : WalkFunc S) (path : string) (d : lnode) (s : S)
         {struct d} : M H (option error * S) :=
  r <- fn path (Some d) None s ;;
  match fst r with
  | Some e => ret (Some e, snd r)
  | None =>
      match d with
      | LFile _ => ret (None, snd r)
      | LDir entries =>
          (fix loop (es : list (string * lnode)) (s : S)
             : M H (option error * S) :=
             match es with
             | [] => ret (None, s)
             | (name, d1) :: es' =>
                 r1 <- walkDir fn (Filepath.Join [path; name]) d1 s ;;
                 match fst r1 with
                 | Some e => ret (Some e, snd r1)
                 | None => loop es' (snd r1)
                 end
             end) entries (snd r)
      end
  end.

(** [filepath.WalkDir]. *)
Definition filepath_WalkDir {S} (root : string) (fn : WalkFunc S) (s : S)
  : M H (option error * S) :=
  info <- Lstat root ;;
  match info with
  | None => fn root None (Some (ErrorString "lstat: no such file or directory")) s
  | Some d => walkDir fn root d s
  end.

(** The callback [Client.WalkDir] is given: source path, destination
    path, entry, error; [T] is the state of its closure. *)
Definition WalkDirFunc (T : Type) : Type :=
  string -> string -> lnode -> option error -> T -> M H (option error * T).

(** The function literal [Client.WalkDir] passes to [filepath.WalkDir];
    [dirs] is the variable it captures. *)
Definition WalkDir_visit {T} (dstDir : string) (fn : WalkDirFunc T)
  : WalkFunc (list string * T) :=
  fun path info err st =>
    let dirs := fst st in
    let curDir := Filepath.Join dirs in
    let d := fst (Filepath.Split path) in
    let d := if negb (String.eqb d "")
             then String.substring 0 (String.length d - 1) d else d in
    let dirs :=
      if negb (HasSuffix d curDir)
      then (if (0 <? length dirs)%nat then removelast dirs else dirs)
      else dirs in
    let curDir :=
      if negb (HasSuffix d curDir) then Filepath.Join dirs else curDir in
    let dstPath := Filepath.Join [dstDir; curDir; Filepath.Base path] in
    match info with
    | None => panic "invalid memory address or nil pointer dereference"
    | Some i =>
        let dirs := if IsDir i then dirs ++ [Filepath.Base path] else dirs in
        r <- fn path dstPath i err (snd st) ;;
        ret (fst r, (dirs, snd r))
    end.

(** [Client.WalkDir]. *)
Definition Client_WalkDir {T} (srcPath dstDir : string) (fn : WalkDirFunc T)
           (t : T) : M H (option error * T) :=
  r <- filepath_WalkDir srcPath (WalkDir_visit dstDir fn) ([], t) ;;
  ret (fst r, snd (snd r)).

End Sshcmd.

(** ** Package runner: the service and its steps *)

(** [Service]; [confFilePath] is [runner.confFilePath], the one field of the
    runner the steps read. *)
Record Service : Type := mkService {
  Name : string;
  conf : Conf;
  remoteHomeDir : string;
  confFilePath : string
}.

Section ServiceSteps.
Context {H : Type} `{Remote H}.

(** [Service.Exec]. *)
Definition Exec (s : Service) (cmd : string) : M H (string * option error) :=
  r <- Client_Exec cmd ;;
  ret (TrimSuffix (fst r) nl, snd r).

(** [Service.PrintExec]. *)
Definition PrintExec (s : Service) (cmd errorMessage : string)
  : M H (option error) :=
  SendMessage (Name s) cmd MessageNormal ;;;
  r <- Exec s cmd ;;
  let output := fst r in
  match snd r with
  | Some err =>
      let errorMessage :=
        if String.eqb errorMessage "" then output
        else errorMessage +:+ ": " +:+ output in
      SendMessage (Name s) errorMessage MessageError ;;;
      ret (Some err)
  | None =>
      SendMessage (Name s) output MessageSuccess ;;;
      ret None
  end.

(** [Service.ParseCommand]; a template that does not parse panics. *)
Definition ParseCommand (s : Service) (cmd : string) : M H string :=
  match Template.Parse cmd with
  | None => panic "template: command: parse error"
  | Some tmpl => ret (Template.Execute tmpl (conf s))
  end.

(** [Service.GenerateServiceFile]: the text written to the buffer. *)
Definition GenerateServiceFile (s : Service) : M H string :=
  match Template.Parse (Sprintf1 serviceTemplate (Name s)) with
  | None => panic "template: serviceFile: parse error"
  | Some tmpl => ret (Template.Execute tmpl (conf s))
  end.

(** The function literal of [CopyFile]. *)
Definition CopyFile_visit : WalkDirFunc (H:=H) unit :=
  fun localPath remotePath info e _ =>
    match info with
    | LDir _ =>
        err <- with_SftClient
                 (request_host (ReqMkdirAll remotePath)
                               (SftpMkdirAll remotePath)) ;;
        ret (err, tt)
    | LFile data =>
        err <- with_SftClient
                 (request_host (ReqCreate remotePath)
                               (SftpCreate remotePath)) ;;
        match err with
        | Some e => ret (Some e, tt)
        | None =>
            err <- request_host (ReqWrite remotePath data)
                                (SftpWrite remotePath data) ;;
            ret (err, tt)
        end
    end.

(** [Service.CopyFile]. *)
Definition CopyFile (s : Service) (path workingDirectory : string)
  : M H (option error) :=
  check! ConnectSftpClient ;;
  r <- Client_WalkDir path workingDirectory CopyFile_visit tt ;;
  ret (fst r).

(** The loop that ends [DeleteFile]:
    [for i := len(directories) - 1; i >= 0; i--]. *)
Fixpoint remove_directories (rev_directories : list string) : M H unit :=
  match rev_directories with
  | [] => ret tt
  | dir :: rest =>
      with_SftClient
        (request_host (ReqRemoveDirectory dir) (SftpRemoveDirectory dir)) ;;;
      remove_directories rest
  end.

(** The function literal of [DeleteFile]; [directories] is the variable it
    captures. *)
Definition DeleteFile_visit : WalkDirFunc (H:=H) (list string) :=
  fun localPath remotePath info e directories =>
    if IsDir info then ret (None, directories ++ [remotePath])
    else
      with_SftClient
        (request_host (ReqRemove remotePath) (SftpRemove remotePath)) ;;;
      ret (None, directories).

(** [Service.DeleteFile]. *)
Definition DeleteFile (s : Service) (path workingDirectory : string)
  : M H (option error) :=
  check! ConnectSftpClient ;;
  r <- Client_WalkDir path workingDirectory DeleteFile_visit [] ;;
  remove_directories (rev (snd r)) ;;;
  ret (fst r).

(** [Service.CopyUnitServiceFile]. *)
Definition CopyUnitServiceFile (s : Service) : M H (option error) :=
  check! ConnectSftpClient ;;
  buf <- GenerateServiceFile s ;;
  let filename :=
    Filepath.Join [str (conf s) SystemdServicesDirectory;
                   Name s +:+ ".service"] in
  check! with_SftClient (request_host (ReqCreate filename) (SftpCreate filename)) ;;
  check! request_host (ReqWrite filename buf) (SftpWrite filename buf) ;;
  ret None.

(** [Service.DeleteDirIfEmpty]. *)
Definition DeleteDirIfEmpty (s : Service) (dirPath : string)
  : M H (option error) :=
  check! ConnectSftpClient ;;
  with_SftClient (request_host (ReqRemove dirPath) (SftpRemove dirPath)).

Definition CheckGo (s : Service) : M H (option error) :=
  let errorMessage :=
    "couldn't find the `go` executable. Please install `go` or set the executable path in `"
    +:+ confFilePath s +:+ "` file using the `go_exec_path` variable" in
  cmd <- ParseCommand s "{{.GoExecPath}} version" ;;
  PrintExec s cmd errorMessage.

Definition CheckSystemd (s : Service) : M H (option error) :=
  let errorMessage :=
    "couldn't find the `systemd` executable. Please install `systemd` or set the executable path in `"
    +:+ confFilePath s +:+ "` file using the `systemd_path` variable" in
  cmd <- ParseCommand s "{{.SystemdPath}} --version" ;;
  PrintExec s cmd errorMessage.

Definition CheckLingering (s : Service) : M H (option error) :=
  cmd <- ParseCommand s "ls {{.SystemdLingerDirectory}}" ;;
  SendMessage (Name s) cmd MessageNormal ;;;
  r <- Exec s cmd ;;
  let output := fst r in
  match snd r with
  | Some err =>
      SendMessage (Name s) (Error err) MessageError ;;;
      ret (Some err)
  | None =>
      if negb (slices_Contains (Split output LF) (str (conf s) User)) then
        let err := ErrorString
          ("user `" +:+ str (conf s) User
           +:+ "` is not in the linger list. You can add it with the command `sudo loginctl enable-linger "
           +:+ str (conf s) User +:+ "`") in
        SendMessage (Name s) (Error err) MessageError ;;;
        ret (Some err)
      else
        SendMessage (Name s) output MessageSuccess ;;;
        ret None
  end.

Definition CheckWorkingDir (s : Service) (createWorkingDirectory : bool)
  : M H (option error) :=
  cmd <- ParseCommand s "test -e {{.WorkingDirectory}}" ;;
  SendMessage (Name s) cmd MessageNormal ;;;
  r <- Exec s cmd ;;
  match snd r with
  | None =>
      SendMessage (Name s) "" MessageSuccess ;;;
      ret None
  | Some err =>
      if negb createWorkingDirectory then
        SendMessage (Name s)
          ("Service working directory '" +:+ str (conf s) WorkingDirectory
           +:+ "' does not exist on the remote host") MessageError ;;;
        ret (Some err)
      else
        cmd <- ParseCommand s "mkdir -p {{.WorkingDirectory}}" ;;
        SendMessage (Name s) cmd MessageNormal ;;;
        r <- Exec s cmd ;;
        match snd r with
        | Some err =>
            SendMessage (Name s) (Error err) MessageError ;;;
            ret (Some err)
        | None =>
            SendMessage (Name s) (fst r) MessageSuccess ;;;
            ret None
        end
  end.

(** The line [AuthPrivateRepo] looks for in the credential file. *)
Definition netrc_entry (c : Conf) : string :=
  "machine " +:+ str c NetrcMachine +:+ " login " +:+ str c NetrcLogin
  +:+ " password " +:+ str c NetrcPassword.

Definition AuthPrivateRepo (s : Service) : M H (option error) :=
  if negb (String.eqb (str (conf s) GoPrivate) "") then
    SendMessage (Name s) "GO_PRIVATE found: edit .netrc file" MessageNormal ;;;
    let auth := netrc_entry (conf s) in
    r <- Exec s "cat ~/.netrc" ;;
    let output := fst r in
    check! (if negb (Contains output auth) then
       let cmd :=
         match snd r with
         | Some _ => "echo '" +:+ auth +:+ "' > ~/.netrc"
         | None => "echo '" +:+ auth +:+ nl +:+ output +:+ "' > ~/.netrc"
         end in
       r' <- Exec s cmd ;;
       match snd r' with
       | Some err =>
           SendMessage (Name s) (Error err) MessageError ;;;
           ret (Some err)
       | None => ret None
       end
     else ret None) ;;
    SendMessage (Name s) "" MessageSuccess ;;;
    ret None
  else ret None.

Definition InstallExecutable (s : Service) : M H (option error) :=
  cmd <- (if negb (String.eqb (str (conf s) GoPrivate) "")
          then ParseCommand s "GOPRIVATE={{.GoPrivate}} {{.GoExecPath}} install {{.GoInstall}}"
          else ParseCommand s "{{.GoExecPath}} install {{.GoInstall}}") ;;
  let errorMessage :=
    "cannot install the package `" +:+ str (conf s) GoInstall +:+ "`" in
  SendMessage (Name s) cmd MessageNormal ;;;
  r <- Exec s cmd ;;
  match snd r with
  | Some err =>
      let output := fst r in
      let errorMessage := errorMessage +:+ ": " +:+ output in
      SendMessage (Name s) (errorMessage +:+ ": " +:+ output) MessageError ;;;
      ret (Some err)
  | None =>
      cmd <- ParseCommand s "file {{.ExecStart}}" ;;
      let errorMessage :=
        "couldn't find the `" +:+ str (conf s) ExecStart +:+ "` executable" in
      r <- Exec s cmd ;;
      match snd r with
      | Some err =>
          SendMessage (Name s) (errorMessage +:+ ": " +:+ fst r) MessageError ;;;
          ret (Some err)
      | None =>
          SendMessage (Name s) "Installed" MessageSuccess ;;;
          ret None
      end
  end.

Definition DeleteExecutable (s : Service) : M H (option error) :=
  let errorMessage :=
    "cannot delete service binary file `" +:+ str (conf s) ExecStart +:+ "`" in
  cmd <- ParseCommand s "rm {{.ExecStart}}" ;;
  PrintExec s cmd errorMessage.

Definition CreateServiceFile (s : Service) : M H (option error) :=
  let message :=
    "Copy service file in `" +:+ str (conf s) SystemdServicesDirectory +:+ "`" in
  SendMessage (Name s) message MessageNormal ;;;
  err <- CopyUnitServiceFile s ;;
  match err with
  | Some e =>
      SendMessage (Name s) (Error e) MessageError ;;;
      ret (Some e)
  | None =>
      SendMessage (Name s) "Copied" MessageSuccess ;;;
      ret None
  end.

(** The loop of [CopyFiles]: it returns at the first path that fails. *)
Fixpoint CopyFiles_loop (s : Service) (paths : list string)
  : M H (option error) :=
  match paths with
  | [] => ret None
  | path :: rest =>
      err <- CopyFile s path (str (conf s) WorkingDirectory) ;;
      match err with
      | Some e =>
          let errorMessage :=
            "cannot copy file '" +:+ path +:+ "': " +:+ Error e in
          SendMessage (Name s) errorMessage MessageError ;;;
          ret (Some e)
      | None => CopyFiles_loop s rest
      end
  end.

Definition CopyFiles_step (s : Service) : M H (option error) :=
  if (0 <? length (CopyFiles (conf s)))%nat then
    SendMessage (Name s) "Copying files" MessageNormal ;;;
    check! CopyFiles_loop s (CopyFiles (conf s)) ;;
    SendMessage (Name s) "All files copied" MessageSuccess ;;;
    ret None
  else ret None.

(** The loop of [DeleteFiles]: a path that fails is reported, the next
    one is tried. *)
Fixpoint DeleteFiles_loop (s : Service) (paths : list string) : M H unit :=
  match paths with
  | [] => ret tt
  | path :: rest =>
      err <- DeleteFile s path (str (conf s) WorkingDirectory) ;;
      match err with
      | Some e =>
          let errorMessage :=
            "cannot delete file '" +:+ path +:+ "': " +:+ Error e in
          SendMessage (Name s) errorMessage MessageWarning
      | None => ret tt
      end ;;;
      DeleteFiles_loop s rest
  end.

(** [DeleteFiles], first block: the copied files. *)
Definition DeleteFiles_copied (s : Service) : M H unit :=
  if (0 <? length (CopyFiles (conf s)))%nat then
    SendMessage (Name s) "Deleting files" MessageNormal ;;;
    DeleteFiles_loop s (CopyFiles (conf s)) ;;;
    SendMessage (Name s) "All files deleted" MessageSuccess
  else ret tt.

(** [DeleteFiles], the block [if s.Conf.LogPath != ""]. *)
Definition DeleteFiles_log (s : Service) : M H unit :=
  let LogPath := str (conf s) LogPath in
  if negb (String.eqb LogPath "") then
    SendMessage (Name s) ("Deleting log file '" +:+ LogPath +:+ "'")
                MessageNormal ;;;
    err <- ConnectSftpClient ;;
    match err with
    | Some e =>
        SendMessage (Name s)
          ("Cannot delete log file '" +:+ LogPath +:+ "': " +:+ Error e)
          MessageError
    | None => ret tt
    end ;;;
    err <- with_SftClient (request_host (ReqRemove LogPath) (SftpRemove LogPath)) ;;
    match err with
    | Some e =>
        SendMessage (Name s)
          ("Cannot delete log file '" +:+ LogPath +:+ "': " +:+ Error e)
          MessageError
    | None => SendMessage (Name s) "Deleted" MessageSuccess
    end
  else ret tt.

(** [DeleteFiles], the block
    [if s.Conf.WorkingDirectory != s.remoteHomeDir]. *)
Definition DeleteFiles_workdir (s : Service) : M H unit :=
  let wd := str (conf s) WorkingDirectory in
  if negb (String.eqb wd (remoteHomeDir s)) then
    SendMessage (Name s)
      ("Deleting service working directory '" +:+ wd +:+ "'") MessageNormal ;;;
    err <- DeleteDirIfEmpty s wd ;;
    match err with
    | Some (StatusError code msg) =>
        if code =? 4 then
          SendMessage (Name s)
            ("Cannot delete service working directory '" +:+ wd
             +:+ "': directory is not empty") MessageError
        else
          SendMessage (Name s)
            ("Cannot delete service working directory '" +:+ wd +:+ "': "
             +:+ msg) MessageError
    | _ => ret tt
    end ;;;
    SendMessage (Name s) "Deleted" MessageSuccess
  else ret tt.

(** [Service.DeleteFiles]. *)
Definition DeleteFiles (s : Service) (removeWorkingDirectory : bool)
  : M H (option error) :=
  DeleteFiles_copied s ;;;
  (if removeWorkingDirectory then
     DeleteFiles_log s ;;;
     DeleteFiles_workdir s
   else ret tt) ;;;
  ret None.

Definition ShowServiceFile (s : Service) : M H unit :=
  buf <- GenerateServiceFile s ;;
  SendMessage (Name s) buf MessageNormal.

Definition DeleteServiceFile (s : Service) : M H (option error) :=
  let filename :=
    Filepath.Join [str (conf s) SystemdServicesDirectory;
                   Name s +:+ ".service"] in
  let errorMessage := "cannot delete service file `" +:+ filename +:+ "`" in
  PrintExec s ("rm " +:+ filename) errorMessage.

Definition ReloadDaemon (s : Service) : M H (option error) :=
  PrintExec s "systemctl --user daemon-reload" "couldn't reload systemd daemon".

Definition ResetFailedServices (s : Service) : M H (option error) :=
  PrintExec s "systemctl --user reset-failed"
            "couldn't reset failed systemd services".

Definition EnableService (s : Service) : M H (option error) :=
  PrintExec s ("systemctl --user enable " +:+ Name s)
            "couldn't enable systemd service".

Definition DisableService (s : Service) : M H (option error) :=
  PrintExec s ("systemctl --user disable " +:+ Name s)
            "couldn't disable systemd service".

Definition StartService (s : Service) : M H (option error) :=
  PrintExec s ("systemctl --user start " +:+ Name s)
            "couldn't start systemd service".

Definition StopService (s : Service) : M H (option error) :=
  PrintExec s ("systemctl --user stop " +:+ Name s)
            "couldn't stop systemd service".

Definition RestartService (s : Service) : M H (option error) :=
  PrintExec s ("systemctl --user restart " +:+ Name s)
            "couldn't restart systemd service".

Definition StatusService (s : Service) : M H (option error) :=
  PrintExec s ("systemctl --user status " +:+ Name s) "".

(** [Service.Install]. *)
Definition Install (s : Service) (createWorkingDirectory : bool)
  : M H (option error) :=
  check! CheckGo s ;;
  check! CheckSystemd s ;;
  check! CheckLingering s ;;
  check! CheckWorkingDir s createWorkingDirectory ;;
  check! AuthPrivateRepo s ;;
  check! InstallExecutable s ;;
  check! CopyFiles_step s ;;
  check! CreateServiceFile s ;;
  check! ReloadDaemon s ;;
  check! EnableService s ;;
  ret None.

(** [Service.Uninstall]: the value each step returns is dropped. *)
Definition Uninstall (s : Service) (removeWorkingDirectory : bool) : M H unit :=
  StopService s ;;;
  DisableService s ;;;
  DeleteServiceFile s ;;;
  ReloadDaemon s ;;;
  ResetFailedServices s ;;;
  DeleteExecutable s ;;;
  DeleteFiles s removeWorkingDirectory ;;;
  ret tt.

End ServiceSteps.

(** ** A remote host in memory

    The files of the remote host as the sftp server shows them: a finite map
    from the elements of an absolute path to a file with its bytes or a
    directory; the root is a directory and is not stored.  A path is resolved
    as the server does: from the root when it starts with a separator, from
    the login directory otherwise, with [.] and [..] interpreted and
    trailing separators ignored.  The shell reads and writes the credential
    file; its other commands are answered by a table ([shell]) and leave the
    files as they are. *)

Inductive rnode : Type :=
| RFile (data : string)
| RDir.

#[global] Instance rnode_eq_dec : EqDecision rnode.
Proof. solve_decision. Defined.

Record MemHost : Type := mkMemHost {
  rfs : gmap (list string) rnode;
  rhome : list string;
  shell : string -> RunResult
}.

Module Mem.

Definition resolve (home : list string) (path : string) : list string :=
  rev (fold_left (Filepath.clean_step true) (Split path "/")
                 (if Filepath.IsAbs path then [] else rev home)).

Definition node_at (fs : gmap (list string) rnode) (p : list string)
  : option rnode :=
  match p with
  | [] => Some RDir
  | _ => fs !! p
  end.

Definition parent (p : list string) : list string := removelast p.

(** [k] is an entry of the directory [p]. *)
Definition child_of (p k : list string) : Prop :=
  k ≠ [] ∧ parent k = p.

#[global] Instance child_of_dec p k : Decision (child_of p k).
Proof. unfold child_of. apply _. Defined.

Definition is_empty_dir (fs : gmap (list string) rnode) (p : list string)
  : bool :=
  bool_decide (map_Forall (fun k _ => ¬ child_of p k) fs).

(** SSH_FX_NO_SUCH_FILE and SSH_FX_FAILURE. *)
Definition no_such_file : error := StatusError 2 "file does not exist".
Definition failure : error := StatusError 4 "failure".

(** The server's [mkdir]. *)
Definition mkdir (p : list string) (fs : gmap (list string) rnode)
  : option error * gmap (list string) rnode :=
  match node_at fs p with
  | Some _ => (Some failure, fs)
  | None =>
      match node_at fs (parent p) with
      | Some RDir => (None, <[p := RDir]> fs)
      | Some (RFile _) => (Some failure, fs)
      | None => (Some no_such_file, fs)
      end
  end.

(** [sftp.Client.MkdirAll], on the reversed path: nothing to do for a
    directory, an error for a file, else the parent first and then the
    directory itself. *)
Fixpoint mkdir_all_rev (rp : list string) (fs : gmap (list string) rnode)
  : option error * gmap (list string) rnode :=
  match node_at fs (rev rp) with
  | Some RDir => (None, fs)
  | Some (RFile _) => (Some (ErrorString "mkdir: not a directory"), fs)
  | None =>
      match rp with
      | [] => (None, fs)
      | _ :: rp' =>
          match mkdir_all_rev rp' fs with
          | (Some e, fs1) => (Some e, fs1)
          | (None, fs1) => mkdir (rev rp) fs1
          end
      end
  end.

Definition mkdir_all (p : list string) (fs : gmap (list string) rnode) :=
  mkdir_all_rev (rev p) fs.

(** [sftp.Client.Create]: the file is created, or truncated. *)
Definition create (p : list string) (fs : gmap (list string) rnode)
  : option error * gmap (list string) rnode :=
  match node_at fs p with
  | Some RDir => (Some failure, fs)
  | Some (RFile _) => (None, <[p := RFile ""]> fs)
  | None =>
      match node_at fs (parent p) with
      | Some RDir => (None, <[p := RFile ""]> fs)
      | Some (RFile _) => (Some failure, fs)
      | None => (Some no_such_file, fs)
      end
  end.

Definition write (p : list string) (data : string)
           (fs : gmap (list string) rnode)
  : option error * gmap (list string) rnode :=
  match fs !! p with
  | Some (RFile _) => (None, <[p := RFile data]> fs)
  | _ => (Some failure, fs)
  end.

(** [sftp.Client.RemoveDirectory]: an empty directory is removed. *)
Definition remove_directory (p : list string) (fs : gmap (list string) rnode)
  : option error * gmap (list string) rnode :=
  match fs !! p with
  | Some RDir =>
      if is_empty_dir fs p then (None, delete p fs) else (Some failure, fs)
  | Some (RFile _) => (Some failure, fs)
  | None => (Some (if decide (p = []) then failure else no_such_file), fs)
  end.

(** [sftp.Client.Remove]: a file or an empty directory is removed. *)
Definition remove (p : list string) (fs : gmap (list string) rnode)
  : option error * gmap (list string) rnode :=
  match fs !! p with
  | Some (RFile _) => (None, delete p fs)
  | _ => remove_directory p fs
  end.

(** The text between [echo '] and [' > ~/.netrc], when the command has
    that form. *)
Definition echo_to_netrc (cmd : string) : option string :=
  if String.prefix "echo '" cmd && HasSuffix cmd "' > ~/.netrc"
  then Some (String.substring 6 (String.length cmd - 18) cmd)
  else None.

(** The shell: [cat ~/.netrc] prints the file [.netrc] of the login
    directory, [echo '...' > ~/.netrc] writes it (the quoted text and a
    line feed; the text is taken to hold no quote); the table answers
    every other command. *)
Definition run (cmd : string) (h : MemHost) : RunResult * MemHost :=
  let netrc := rhome h ++ [".netrc"] in
  if String.eqb cmd "cat ~/.netrc" then
    match rfs h !! netrc with
    | Some (RFile data) => (mkRun data "" None, h)
    | _ => (mkRun "" ("cat: .netrc: No such file or directory" +:+ nl)
                  (Some (TransportError "Process exited with status 1")), h)
    end
  else
    match echo_to_netrc cmd with
    | Some txt =>
        match rfs h !! netrc with
        | Some RDir => (mkRun "" ("sh: .netrc: Is a directory" +:+ nl)
                              (Some (TransportError "Process exited with status 1")), h)
        | _ => (mkRun "" "" None,
                mkMemHost (<[netrc := RFile (txt +:+ nl)]> (rfs h))
                          (rhome h) (shell h))
        end
    | None => (shell h cmd, h)
    end.

Definition lift (f : list string -> gmap (list string) rnode ->
                     option error * gmap (list string) rnode)
           (path : string) (h : MemHost) : option error * MemHost :=
  let r := f (resolve (rhome h) path) (rfs h) in
  (fst r, mkMemHost (snd r) (rhome h) (shell h)).

End Mem.

#[global] Instance MemHost_Remote : Remote MemHost := {|
  Dial _ _ _ h := (None, h);
  NewSession h := (None, h);
  Run := Mem.run;
  NewSftpClient h := (None, h);
  SftpMkdirAll := Mem.lift Mem.mkdir_all;
  SftpCreate := Mem.lift Mem.create;
  SftpWrite path data := Mem.lift (fun p => Mem.write p data) path;
  SftpRemove := Mem.lift Mem.remove;
  SftpRemoveDirectory := Mem.lift Mem.remove_directory
|}.

(** ** Package runner: configuration and service construction (runner.go) *)

(** [packageRegExp], the expression [\/?([-_\w]+)@.*]: an optional
    separator, the group (one or more of the letters, digits, [_] and [-]),
    [@], and the rest of the line. *)
Module PackageRegExp.

(** The class [[-_\w]]. *)
Definition is_word (c : ascii) : bool :=
  let n := nat_of_ascii c in
  Ascii.eqb c "-" || Ascii.eqb c "_"
  || ((48 <=? n) && (n <=? 57))%nat
  || ((65 <=? n) && (n <=? 90))%nat
  || ((97 <=? n) && (n <=? 122))%nat.

(** The longest run of the class at the start of [s], and what follows. *)
Fixpoint span_word (s : string) : string * string :=
  match s with
  | String c s' =>
      if is_word c then
        let r := span_word s' in (String c (fst r), snd r)
      else ("", s)
  | EmptyString => ("", "")
  end.

(** The group followed by [@] at the start of [s].  The repetition is
    greedy, and giving back part of the run cannot help: what follows
    would be a character of the class, not [@]. *)
Definition group_at (s : string) : option string :=
  let r := span_word s in
  match fst r, snd r with
  | String _ _, String "@" _ => Some (fst r)
  | _, _ => None
  end.

(** A match that starts at the first byte of [s]: the group, the
    separator taken when there is one. *)
Definition match_here (s : string) : option string :=
  match s with
  | String "/" s' =>
      match group_at s' with
      | Some g => Some g
      | None => group_at s
      end
  | _ => group_at s
  end.

(** [FindStringSubmatch]: the leftmost match; the result is the group. *)
Fixpoint FindStringSubmatch (s : string) : option string :=
  match match_here s with
  | Some g => Some g
  | None =>
      match s with
      | String _ s' => FindStringSubmatch s'
      | EmptyString => None
      end
  end.

End PackageRegExp.

Definition getExec (packageName : string) : string :=
  match PackageRegExp.FindStringSubmatch packageName with
  | Some g => g
  | None => ""
  end.

(** The bytes of the first rune of a non-empty string, as [utf8.DecodeRune]
    counts them: an ill-formed sequence is one byte (the rune is then
    U+FFFD). *)
Module Utf8.

Definition between (lo hi : nat) (c : ascii) : bool :=
  let n := nat_of_ascii c in ((lo <=? n) && (n <=? hi))%nat.

Definition cont (c : ascii) : bool := between 128 191 c.

Definition rune_width (s : string) : nat :=
  match s with
  | String c0 (String c1 r1) =>
      if between 194 223 c0 && cont c1 then 2%nat
      else
        match r1 with
        | String c2 r2 =>
            let second3 :=
              if between 224 224 c0 then between 160 191 c1
              else if between 237 237 c0 then between 128 159 c1
              else between 225 239 c0 && cont c1 in
            if second3 && cont c2 then 3%nat
            else
              match r2 with
              | String c3 _ =>
                  let second4 :=
                    if between 240 240 c0 then between 144 191 c1
                    else if between 244 244 c0 then between 128 143 c1
                    else between 241 243 c0 && cont c1 in
                  if second4 && cont c2 && cont c3 then 4%nat else 1%nat
              | EmptyString => 1%nat
              end
        | EmptyString => 1%nat
        end
  | _ => 1%nat
  end.

End Utf8.

(** The function literal [trim] of [serviceNameToEnvName], on a rune of one
    byte. *)
Definition trim (r : ascii) : ascii :=
  let n := nat_of_ascii r in
  if ((65 <=? n) && (n <=? 90))%nat then r
  else if ((97 <=? n) && (n <=? 122))%nat then r
  else if ((48 <=? n) && (n <=? 57))%nat then r
  else "_"%char.

(** [strings.Map(trim, s)]: [trim] applied rune by rune.  A rune of several
    bytes is none of the letters and digits, so it becomes [_]; [skip]
    counts the bytes of the current rune still to pass. *)
Fixpoint Map_trim (skip : nat) (s : string) : string :=
  match s with
  | EmptyString => EmptyString
  | String c s' =>
      match skip with
      | S k => Map_trim k s'
      | O =>
          let w := Utf8.rune_width s in
          if (w =? 1)%nat then String (trim c) (Map_trim 0 s')
          else String "_" (Map_trim (w - 1) s')
      end
  end.

Definition serviceNameToEnvName (serviceName : string) : string :=
  if (String.length serviceName =? 0)%nat then ""
  else
    let result := ToUpper (Map_trim 0 serviceName) in
    match result with
    | String c _ =>
        if Utf8.between 48 57 c then "_" +:+ result else result
    | EmptyString => result
    end.

(** [strconv.Atoi]: an optional sign and decimal digits, of a value that an
    [int] (64 bits) holds. *)
Module Strconv.

Definition digit (c : ascii) : option Z :=
  let n := nat_of_ascii c in
  if ((48 <=? n) && (n <=? 57))%nat then Some (Z.of_nat n - 48) else None.

Fixpoint digits (acc : Z) (s : string) : option Z :=
  match s with
  | EmptyString => Some acc
  | String c s' =>
      match digit c with
      | Some d => digits (10 * acc + d) s'
      | None => None
      end
  end.

Definition unsigned (s : string) : option Z :=
  match s with
  | EmptyString => None
  | _ => digits 0 s
  end.

Definition Atoi (s : string) : option Z :=
  let v :=
    match s with
    | String "-" s' => Z.opp <$> unsigned s'
    | String "+" s' => unsigned s'
    | _ => unsigned s
    end in
  match v with
  | Some n => if (- 2 ^ 63 <=? n) && (n <=? 2 ^ 63 - 1) then Some n else None
  | None => None
  end.

End Strconv.

(** The process environment: [os.Getenv] gives the empty string for a
    variable that is not set. *)
Definition Getenv (env : gmap string string) (key : string) : string :=
  default "" (env !! key).

(** The name [loadConfFromEnv] looks up for a field of a service. *)
Definition env_key (serviceName : string) (f : field) : string :=
  serviceNameToEnvName serviceName +:+ "_" +:+ ToUpper (yaml_tag f).

(** The body of the inner loop of [loadConfFromEnv], for one field. *)
Definition loadFieldFromEnv (env : gmap string string) (serviceName : string)
           (c : Conf) (f : field) : Conf :=
  let yamlTagValue := yaml_tag f in
  if negb (String.eqb yamlTagValue "") then
    let envValue := Getenv env (env_key serviceName f) in
    if negb (String.eqb envValue "") then
      match f with
      | FInt g =>
          match Strconv.Atoi envValue with
          | Some i => set_int g i c
          | None => c
          end
      | FStr g => set_str g envValue c
      | FCopyFiles | FIgnore => c
      end
    else c
  else c.

(** [loadConfFromEnv]: every service of the map, every field of its
    record. *)
Definition loadConfFromEnv (env : gmap string string)
           (conf : gmap string Conf) : gmap string Conf :=
  map_imap (fun serviceName value =>
              Some (fold_left (loadFieldFromEnv env serviceName)
                              struct_fields value)) conf.

(** The local machine, as [MakeService] consults it: [user.Current], the
    variable [HOME], [ioutil.ReadFile] on the key file and
    [ssh.ParsePrivateKey]. *)
Record Local : Type := mkLocal {
  current_user : option string;
  env_HOME : string;
  ReadFile : string -> string + error;
  ParsePrivateKey : string -> option error
}.

(** [Runner]: the fields that hold state (the channels are the [output] of
    the world). *)
Record Runner : Type := mkRunner {
  QuietMode : bool;
  runner_confFilePath : string;
  runner_conf : gmap string Conf;
  services : gmap string Service
}.

(** [Runner.validateConf]. *)
Definition validateConf (r : Runner) (c : Conf) : option error :=
  if String.eqb (str c Host) "" then
    Some (ErrorString
      ("required configuration `host` value is missing: please add `host: <hostname>` in `"
       +:+ runner_confFilePath r +:+ "` file"))
  else if String.eqb (str c GoInstall) "" then
    Some (ErrorString
      ("required configuration `go_install` value is missing: please add `go_install: <package>` in `"
       +:+ runner_confFilePath r +:+ "` file"))
  else None.

Section MakeService.
Context {H : Type} `{Remote H}.
Variable local : Local.

(** [conf] is a pointer into the runner's map: what is assigned through
    it stays in the map, whatever [MakeService] returns. *)
Definition store_conf (r : Runner) (serviceName : string) (c : Conf) : Runner :=
  mkRunner (QuietMode r) (runner_confFilePath r)
           (<[serviceName := c]> (runner_conf r)) (services r).

Definition store_service (r : Runner) (serviceName : string) (s : Service)
  : Runner :=
  mkRunner (QuietMode r) (runner_confFilePath r) (runner_conf r)
           (<[serviceName := s]> (services r)).

Definition set_client (c : Client) : M H unit :=
  fun w => (Ok tt, mkWorld (host w) (localfs w) c (output w) (wire w)).

(** [if conf.X == "" { conf.X, err = service.Exec(cmd);
      if err != nil { conf.X = "" } }] *)
Definition query_if_empty (s : Service) (f : sfield) (cmd : string) (c : Conf)
  : M H Conf :=
  if String.eqb (str c f) "" then
    r <- Exec s cmd ;;
    match snd r with
    | Some _ => ret (set_str f "" c)
    | None => ret (set_str f (fst r) c)
    end
  else ret c.

Definition default_str (f : sfield) (v : string) (c : Conf) : Conf :=
  if String.eqb (str c f) "" then set_str f v c else c.

(** [Runner.MakeService]: the service or the error, and the runner as the
    call leaves it. *)
Definition MakeService (r : Runner) (serviceName : string)
  : M H ((Service + error) * Runner) :=
  match services r !! serviceName with
  | Some s => ret (inl s, r)
  | None =>
  match runner_conf r !! serviceName with
  | None =>
      ret (inr (ErrorString
             ("configuration for service `" +:+ serviceName
              +:+ "` was not found. Please add service configuration in `"
              +:+ runner_confFilePath r +:+ "` file")), r)
  | Some c =>
  match validateConf r c with
  | Some err => ret (inr err, r)
  | None =>
      let c := if String.eqb (str c User) "" then
                 match current_user local with
                 | Some u => set_str User u c
                 | None => c
                 end
               else c in
      let c := default_str Port "22" c in
      let c := default_str PrivateKeyPath
                 (Filepath.Join [env_HOME local; "/.ssh/id_rsa"]) c in
      (* sshcmd.MakeClient *)
      match ReadFile local (str c PrivateKeyPath) with
      | inr err => ret (inr err, store_conf r serviceName c)
      | inl privateKey =>
      (* client.Connect *)
      match ParsePrivateKey local privateKey with
      | Some err => ret (inr err, store_conf r serviceName c)
      | None =>
      err <- on_host (Dial (str c User) (str c Host) (str c Port)) ;;
      match err with
      | Some err => ret (inr err, store_conf r serviceName c)
      | None =>
      set_client (mkClient true false) ;;;
      let service := mkService serviceName c "" (runner_confFilePath r) in
      p <- Exec service "pwd" ;;
      match snd p with
      | Some err => ret (inr err, store_conf r serviceName c)
      | None =>
      let pwd := fst p in
      c <- query_if_empty service GoBinDirectory "go env GOBIN" c ;;
      c <- query_if_empty service GoBinDirectory "mise exec -- go env GOBIN" c ;;
      if String.eqb (str c GoBinDirectory) "" then
        ret (inr (ErrorString
               ("$GOBIN environment variable is not set on the remote host: please set the $GOBIN env variable on the remote host or add `go_bin_directory: <path>` in `"
                +:+ runner_confFilePath r +:+ "` file")),
             store_conf r serviceName c)
      else
      c <- query_if_empty service GoExecPath "which go" c ;;
      c <- query_if_empty service GoExecPath "mise exec -- which go" c ;;
      let c := default_str GoExecPath
                 (Filepath.Join [str c GoBinDirectory; "go"]) c in
      let c := default_str SystemdPath "systemd" c in
      let c := default_str SystemdServicesDirectory
                 (Filepath.Join [pwd; ".config/systemd/user"]) c in
      let c := default_str SystemdLingerDirectory "/var/lib/systemd/linger" c in
      let c :=
        if String.eqb (str c ExecStart) "" then
          let exec := getExec (str c GoInstall) in
          if negb (String.eqb exec "")
          then set_str ExecStart (Filepath.Join [str c GoBinDirectory; exec]) c
          else c
        else c in
      let c := default_str WorkingDirectory pwd c in
      let service := mkService serviceName c pwd (runner_confFilePath r) in
      ret (inl service,
           store_service (store_conf r serviceName c) serviceName service)
      end end end end end end end.

End MakeService.

(** ** What the specification says, as relations on runs *)

(** The output of a command, once its trailing line feed is removed. *)
Inductive newline_stripped (raw : string) : string -> Prop :=
| stripped_one out : raw = out +:+ nl -> newline_stripped raw out
| stripped_none : (forall x, raw <> x +:+ nl) -> newline_stripped raw raw.

(** A pipeline that stops at the first step that fails: the steps run in
    the order of the list, each from the state the one before left; the
    list of the steps that ran ends with the step that returned an error
    (or panicked), whose outcome is the outcome of the run. *)
Inductive fail_fast {H St : Type} (run : St -> M H (option error))
  : list St -> World H -> list St -> result (option error) * World H -> Prop :=
| ff_end w : fail_fast run [] w [] (Ok None, w)
| ff_next st rest w w1 ran out :
    run st w = (Ok None, w1) ->
    fail_fast run rest w1 ran out ->
    fail_fast run (st :: rest) w (st :: ran) out
| ff_abort st rest w e w1 :
    run st w = (Ok (Some e), w1) ->
    fail_fast run (st :: rest) w [st] (Ok (Some e), w1)
| ff_panic st rest w p w1 :
    run st w = (Panic p, w1) ->
    fail_fast run (st :: rest) w [st] (Panic p, w1).

(** A pipeline that runs every step whatever the steps before returned;
    only a panic, which is not a returned error, ends it early. *)
Inductive best_effort {H St : Type} (run : St -> M H (option error))
  : list St -> World H -> list St -> result unit * World H -> Prop :=
| be_end w : best_effort run [] w [] (Ok tt, w)
| be_next st rest w r w1 ran out :
    run st w = (Ok r, w1) ->
    best_effort run rest w1 ran out ->
    best_effort run (st :: rest) w (st :: ran) out
| be_panic st rest w p w1 :
    run st w = (Panic p, w1) ->
    best_effort run (st :: rest) w [st] (Panic p, w1).

(** The steps of the two pipelines, by the names the specification gives
    them. *)
Inductive install_step : Type :=
| VerifyGo | VerifySystemd | VerifyLingering | VerifyWorkingDirectory
| PrivateRepoCredentials | InstallPackage | CopyAuxiliaryFiles
| UploadUnitFile | ReloadDaemonStep | EnableUnit.

Inductive uninstall_step : Type :=
| StopUnit | DisableUnit | DeleteUnitFile | ReloadDaemonAfter
| ResetFailedUnits | DeleteExecutableFile | DeleteAuxiliaryFiles.

Definition install_pipeline : list install_step :=
  [ VerifyGo; VerifySystemd; VerifyLingering; VerifyWorkingDirectory;
    PrivateRepoCredentials; InstallPackage; CopyAuxiliaryFiles;
    UploadUnitFile; ReloadDaemonStep; EnableUnit ].

Definition uninstall_pipeline : list uninstall_step :=
  [ StopUnit; DisableUnit; DeleteUnitFile; ReloadDaemonAfter;
    ResetFailedUnits; DeleteExecutableFile; DeleteAuxiliaryFiles ].

Section Pipelines.
Context {H : Type} `{Remote H}.

Definition run_install_step (s : Service) (createWorkingDirectory : bool)
           (st : install_step) : M H (option error) :=
  match st with
  | VerifyGo => CheckGo s
  | VerifySystemd => CheckSystemd s
  | VerifyLingering => CheckLingering s
  | VerifyWorkingDirectory => CheckWorkingDir s createWorkingDirectory
  | PrivateRepoCredentials => AuthPrivateRepo s
  | InstallPackage => InstallExecutable s
  | CopyAuxiliaryFiles => CopyFiles_step s
  | UploadUnitFile => CreateServiceFile s
  | ReloadDaemonStep => ReloadDaemon s
  | EnableUnit => EnableService s
  end.

Definition run_uninstall_step (s : Service) (removeWorkingDirectory : bool)
           (st : uninstall_step) : M H (option error) :=
  match st with
  | StopUnit => StopService s
  | DisableUnit => DisableService s
  | DeleteUnitFile => DeleteServiceFile s
  | ReloadDaemonAfter => ReloadDaemon s
  | ResetFailedUnits => ResetFailedServices s
  | DeleteExecutableFile => DeleteExecutable s
  | DeleteAuxiliaryFiles => DeleteFiles s removeWorkingDirectory
  end.

End Pipelines.

(** The lines of a unit file, as the specification lists them: the header,
    the working directory and the start command always; between them, in
    this order and each only for a value that is set, the ordering
    dependency, the start-limit burst, the start-limit interval, the restart
    delay, the environment, and the two redirections of the log path. *)
Section UnitLines.
Variable name : string.
Variable c : Conf.








End UnitLines.






(** ** Concrete runs

    A host whose login directory [/home/pioz] is empty and whose shell
    answers every command with success and no output; a configuration with
    the required fields and the defaults resolved. *)

Definition quiet_shell : string -> RunResult := fun _ => mkRun "" "" None.

Definition example_host : MemHost :=
  mkMemHost {[ ["home"] := RDir; ["home"; "pioz"] := RDir;
               ["srv"] := RDir ]}
            ["home"; "pioz"] quiet_shell.

Definition no_local_files : string -> option lnode := fun _ => None.

Definition example_world : World MemHost :=
  mkWorld example_host no_local_files (mkClient true false) [] [].

Definition example_conf : Conf :=
  set_str User "pioz"
    (set_str Host "119.178.21.21"
       (set_str GoInstall "github.com/pioz/srv@latest"
          (set_str GoExecPath "/usr/local/go/bin/go"
             (set_str GoBinDirectory "/opt/go/bin"
                (set_str SystemdPath "systemd"
                   (set_str SystemdServicesDirectory "/etc/systemd/user"
                      (set_str SystemdLingerDirectory "/var/lib/systemd/linger"
                         (set_str ExecStart "/opt/go/bin/srv"
                            (set_str WorkingDirectory "/srv" zeroConf))))))))).

Definition example_service : Service :=
  mkService "srv" example_conf "/home/pioz" ".god.yml".


(** A service that installs from a private repository, and a host whose
    credential file holds one entry for another machine. *)
Definition private_conf : Conf :=
  set_str GoPrivate "github.com/pioz"
    (set_str NetrcMachine "github.com"
       (set_str NetrcLogin "pioz"
          (set_str NetrcPassword "tok3n" example_conf))).

Definition private_service : Service :=
  mkService "srv" private_conf "/home/pioz" ".god.yml".

Definition netrc_path : list string := ["home"; "pioz"; ".netrc"].

Definition old_netrc : string :=
  "machine gitlab.com login bob password s3cret" +:+ nl.

Definition netrc_world : World MemHost :=
  mkWorld (mkMemHost (<[netrc_path := RFile old_netrc]> (rfs example_host))
                     ["home"; "pioz"] quiet_shell)
          no_local_files (mkClient true false) [] [].

(** The name of a service in the environment, in the words of the
    specification: every byte that is not a letter or a digit replaced by an
    underscore, letters in upper case, and an underscore in front when the
    first byte is a digit.  (For names of one-byte characters.) *)
Definition is_alnum (ch : ascii) : bool :=
  Utf8.between 65 90 ch || Utf8.between 97 122 ch || Utf8.between 48 57 ch.

Fixpoint upper_or_underscore (s : string) : string :=
  match s with
  | EmptyString => EmptyString
  | String ch s' =>
      String (if is_alnum ch then upper_byte ch else "_"%char)
             (upper_or_underscore s')
  end.

Definition env_name_spec (name : string) : string :=
  match name with
  | String ch _ =>
      if Utf8.between 48 57 ch then "_" +:+ upper_or_underscore name
      else upper_or_underscore name
  | EmptyString => ""
  end.

Fixpoint ascii_only (s : string) : bool :=
  match s with
  | EmptyString => true
  | String ch s' => (nat_of_ascii ch <? 128)%nat && ascii_only s'
  end.




(** Strings of the class of [packageRegExp]'s group, strings without [@],
    and strings that are empty or end outside the class. *)
Fixpoint all_word (s : string) : bool :=
  match s with
  | EmptyString => true
  | String ch s' => PackageRegExp.is_word ch && all_word s'
  end.

Fixpoint no_at (s : string) : bool :=
  match s with
  | EmptyString => true
  | String ch s' => negb (Ascii.eqb ch "@") && no_at s'
  end.

Fixpoint ends_outside_class (s : string) : bool :=
  match s with
  | EmptyString => true
  | String ch EmptyString => negb (PackageRegExp.is_word ch)
  | String _ s' => ends_outside_class s'
  end.

(** The local machine and a runner with one service, not yet made; the
    shell of the host answers the queries of [MakeService]. *)
Definition example_local : Local :=
  mkLocal (Some "pioz") "/Users/pioz" (fun _ => inl "PRIVATE KEY")
          (fun _ => None).

Definition query_shell (cmd : string) : RunResult :=
  if String.eqb cmd "pwd" then mkRun ("/home/pioz" +:+ nl) "" None
  else if String.eqb cmd "go env GOBIN"
  then mkRun ("/home/pioz/go/bin" +:+ nl) "" None
  else if String.eqb cmd "which go"
  then mkRun ("/usr/local/go/bin/go" +:+ nl) "" None
  else mkRun "" "" None.

Definition fresh_world : World MemHost :=
  mkWorld (mkMemHost (rfs example_host) ["home"; "pioz"] query_shell)
          no_local_files (mkClient false false) [] [].

Definition yaml_conf (go_install : string) : Conf :=
  set_str Host "119.178.21.21" (set_str GoInstall go_install zeroConf).

Definition example_runner (go_install : string) : Runner :=
  mkRunner false ".god.yml" {[ "srv" := yaml_conf go_install ]} ∅.

(** The service a call of [MakeService] returned ([example_service] stands
    for a call that returned none). *)
Definition made_service {H : Type}
           (r : result ((Service + error) * Runner) * World H) : Service :=
  match fst r with
  | Ok (inl s, _) => s
  | _ => example_service
  end.

Definition made_runner {H : Type}
           (r : result ((Service + error) * Runner) * World H) : Runner :=
  match fst r with
  | Ok (_, r') => r'
  | _ => example_runner ""
  end.

(** ** The walk, entry by entry

    The entries [filepath.WalkDir] visits, in order, with their paths; and
    for each the destination path [Client.WalkDir] computes, with the
    directory stack it keeps. *)

Fixpoint flatten (path : string) (d : lnode) : list (string * lnode) :=
  (path, d) ::
  match d with
  | LFile _ => []
  | LDir entries =>
      (fix go (es : list (string * lnode)) : list (string * lnode) :=
         match es with
         | [] => []
         | (name, d1) :: es' => flatten (Filepath.Join [path; name]) d1 ++ go es'
         end) entries
  end.

(** The stack after the test on the suffix (at most one element is
    popped). *)
Definition dirs_for (dirs : list string) (path : string) : list string :=
  let curDir := Filepath.Join dirs in
  let d := fst (Filepath.Split path) in
  let d := if negb (String.eqb d "")
           then String.substring 0 (String.length d - 1) d else d in
  if negb (HasSuffix d curDir)
  then (if (0 <? length dirs)%nat then removelast dirs else dirs)
  else dirs.

Definition dst_for (dstDir : string) (dirs : list string) (path : string)
  : string :=
  Filepath.Join [dstDir; Filepath.Join (dirs_for dirs path); Filepath.Base path].

(** Source path, destination path and entry of every visit, from the stack
    [dirs]. *)
Fixpoint remote_entries (dstDir : string) (dirs : list string)
         (vs : list (string * lnode)) : list (string * string * lnode) :=
  match vs with
  | [] => []
  | (path, d) :: vs' =>
      let dirs1 := dirs_for dirs path in
      (path, dst_for dstDir dirs path, d)
      :: remote_entries dstDir
           (if IsDir d then dirs1 ++ [Filepath.Base path] else dirs1) vs'
  end.

(** The visits of a walk from [srcPath], when there is a file there. *)
Definition walk_entries {H : Type} (w : World H) (srcPath dstDir : string)
  : list (string * string * lnode) :=
  match localfs w srcPath with
  | Some d => remote_entries dstDir [] (flatten srcPath d)
  | None => []
  end.

(** A name of a file: not empty, not [.] or [..], without separator. *)
Fixpoint no_slash (s : string) : bool :=
  match s with
  | EmptyString => true
  | String ch s' => negb (Ascii.eqb ch "/") && no_slash s'
  end.

Definition plain (n : string) : bool :=
  negb (String.eqb n "") && negb (String.eqb n ".")
  && negb (String.eqb n "..") && no_slash n.

Fixpoint plain_tree (d : lnode) : bool :=
  match d with
  | LFile _ => true
  | LDir entries =>
      (fix go (es : list (string * lnode)) : bool :=
         match es with
         | [] => true
         | (name, d1) :: es' => plain name && plain_tree d1 && go es'
         end) entries
  end.

(** ** The mirror as a sequence of requests

    A walk calls its callback on the visits in order and stops at the first
    error; on the host in memory, copying and deleting are folds over the
    visits whose destination paths are resolved. *)

Section WalkRuns.
Context {H : Type} `{Remote H}.

Fixpoint run_visits {S} (fn : WalkFunc S) (vs : list (string * lnode)) (s : S)
  : M H (option error * S) :=
  match vs with
  | [] => ret (None, s)
  | (path, d) :: vs' =>
      r <- fn path (Some d) None s ;;
      match fst r with
      | Some e => ret (Some e, snd r)
      | None => run_visits fn vs' (snd r)
      end
  end.

Fixpoint run_entries {T} (fn : WalkDirFunc T)
         (es : list (string * string * lnode)) (t : T)
  : M H (option error * T) :=
  match es with
  | [] => ret (None, t)
  | (srcPath, dstPath, d) :: es' =>
      r <- fn srcPath dstPath d None t ;;
      match fst r with
      | Some e => ret (Some e, snd r)
      | None => run_entries fn es' (snd r)
      end
  end.

End WalkRuns.

(** A visit with its destination resolved on the host. *)
Definition resolved (home : list string) (es : list (string * string * lnode))
  : list (list string * lnode) :=
  map (fun e => (Mem.resolve home (snd (fst e)), snd e)) es.

Definition copy_step (e : list string * lnode) (fs : gmap (list string) rnode)
  : option error * gmap (list string) rnode :=
  match snd e with
  | LDir _ => Mem.mkdir_all (fst e) fs
  | LFile data =>
      match Mem.create (fst e) fs with
      | (Some err, fs') => (Some err, fs')
      | (None, fs') => Mem.write (fst e) data fs'
      end
  end.

Fixpoint copy_all (es : list (list string * lnode))
         (fs : gmap (list string) rnode)
  : option error * gmap (list string) rnode :=
  match es with
  | [] => (None, fs)
  | e :: es' =>
      match copy_step e fs with
      | (Some err, fs') => (Some err, fs')
      | (None, fs') => copy_all es' fs'
      end
  end.

Definition delete_step (fs : gmap (list string) rnode)
           (e : list string * lnode) : gmap (list string) rnode :=
  match snd e with
  | LDir _ => fs
  | LFile _ => snd (Mem.remove (fst e) fs)
  end.

Definition dir_paths (es : list (list string * lnode)) : list (list string) :=
  map fst (filter (fun e => IsDir (snd e) = true) es).

Definition remove_dirs (l : list (list string))
           (fs : gmap (list string) rnode) : gmap (list string) rnode :=
  fold_left (fun fs q => snd (Mem.remove_directory q fs)) l fs.

Definition delete_all (es : list (list string * lnode))
           (fs : gmap (list string) rnode) : gmap (list string) rnode :=
  remove_dirs (rev (dir_paths es)) (fold_left delete_step es fs).

(** Every visit lands right under the destination directory [D] or under a
    directory visited before it ([seen]). *)
Inductive chained (D : list string)
  : list (list string) -> list (list string * lnode) -> Prop :=
| chained_nil seen : chained D seen []
| chained_cons seen q d rest :
    q <> [] ->
    (Mem.parent q = D \/ Mem.parent q ∈ seen) ->
    chained D (if IsDir d then q :: seen else seen) rest ->
    chained D seen ((q, d) :: rest).

(** The files of the host are a tree: what is stored has a directory as its
    parent, and the root is not stored. *)
Definition well_formed (fs : gmap (list string) rnode) : Prop :=
  forall k v, fs !! k = Some v ->
    k <> [] /\ Mem.node_at fs (Mem.parent k) = Some RDir.

(** A local tree for the examples: the directory [conf] with a file and a
    sub-directory that holds one file. *)
Definition conf_tree : lnode :=
  LDir [("a.txt", LFile "A"); ("sub", LDir [("b.txt", LFile "B")])].

Definition conf_files : string -> option lnode :=
  fun p => if String.eqb p "conf" then Some conf_tree else None.

Definition conf_world : World MemHost :=
  mkWorld example_host conf_files (mkClient true false) [] [].

(** ** Definitions the proofs use *)


(** The state of the resolution of a path: the elements so far, last
    first. *)
Definition run (S : list string) (p : string) : list string :=
  fold_left (Filepath.clean_step true) (GoStrings.Split p "/") S.

(** An element of a cleaned relative path: [..] or a name. *)
Definition dotdot_or_plain (n : string) : bool := String.eqb n ".." || plain n.

(** [w'] is [w] with the files [fs'], and with the sftp client connected. *)
Definition mem_step (w w' : World MemHost) (fs' : gmap (list string) rnode)
  : Prop :=
  rfs (host w') = fs' /\ rhome (host w') = rhome (host w)
  /\ localfs w' = localfs w /\ SftClient (client w') = true.

(** The destination paths of the directories among the visits. *)
Definition raw_dirs (es : list (string * string * lnode)) : list string :=
  map (fun e => snd (fst e)) (filter (fun e => IsDir (snd e) = true) es).

(** Every prefix of the stack is the path of a directory seen before. *)
Definition stack_seen (D dirs : list string) (seen : list (list string)) : Prop :=
  forall k, (0 < k <= length dirs)%nat -> D ++ take k dirs ∈ seen.

(** The destination paths of the files among the resolved visits. *)
Definition file_paths (es : list (list string * lnode)) : list (list string) :=
  map fst (filter (fun e => IsDir (snd e) = false) es).

(** During the copy: the files of [fs0] are as they were, the directories
    and files visited so far are there, and nothing else is. *)
Definition copy_inv (fs0 : gmap (list string) rnode)
           (Pd Pf : list string -> Prop) (fs : gmap (list string) rnode) : Prop :=
  (forall k v, fs0 !! k = Some v -> fs !! k = Some v)
  /\ (forall q, Pd q -> fs !! q = Some RDir)
  /\ (forall q, Pf q -> exists data, fs !! q = Some (RFile data))
  /\ (forall k v, fs !! k = Some v -> fs0 !! k = Some v \/ Pd k \/ Pf k)
  /\ fs !! [] = None.

(** During the first part of the delete: the files removed so far are
    gone, the rest is as the copy left it. *)
Definition del_inv (fs1 : gmap (list string) rnode)
           (gone : list string -> Prop) (fs : gmap (list string) rnode) : Prop :=
  (forall k, gone k -> fs !! k = None)
  /\ (forall k, ~ gone k -> fs !! k = fs1 !! k).

(** The directories still to remove ([A]) are there, the rest is as
    before the copy. *)
Definition rm_inv (fs0 : gmap (list string) rnode) (A : list (list string))
           (fs : gmap (list string) rnode) : Prop :=
  (forall q, q ∈ A -> fs !! q = Some RDir)
  /\ (forall q, q ∉ A -> fs !! q = fs0 !! q).

(** Every directory of the list lies under [D] or under one before it. *)
Definition under_earlier (D : list string) (L : list (list string)) : Prop :=
  forall L1 k L2, L = L1 ++ k :: L2 ->
    k <> [] /\ (Mem.parent k = D \/ Mem.parent k ∈ L1).

(** A chain of directories, each the only entry of the one before; the last
    one is empty. *)
Fixpoint nested (names : list string) : lnode :=
  match names with
  | [] => LDir []
  | n :: ns => LDir [(n, nested ns)]
  end.

(** The directory stack of [Client.WalkDir] after the visits [vs]. *)
Fixpoint stack_after (dirs : list string) (vs : list (string * lnode))
  : list string :=
  match vs with
  | [] => dirs
  | (path, d) :: vs' =>
      stack_after (if IsDir d then dirs_for dirs path ++ [Filepath.Base path]
                   else dirs_for dirs path) vs'
  end.

(** A host that refuses what it is asked: no session, no sftp subsystem,
    every request answered with an error. *)
Inductive RefusingHost : Type := refusing_host.

Definition refused : error :=
  TransportError "ssh: rejected: administratively prohibited (open failed)".

#[global] Instance RefusingHost_Remote : Remote RefusingHost := {|
  Dial _ _ _ h := (None, h);
  NewSession h := (Some refused, h);
  Run _ h := (mkRun "" "" (Some refused), h);
  NewSftpClient h := (Some refused, h);
  SftpMkdirAll _ h := (Some refused, h);
  SftpCreate _ h := (Some refused, h);
  SftpWrite _ _ h := (Some refused, h);
  SftpRemove _ h := (Some refused, h);
  SftpRemoveDirectory _ h := (Some refused, h)
|}.

Definition refusing_world : World RefusingHost :=
  mkWorld refusing_host no_local_files (mkClient true false) [] [].

(** The directory [conf] with a chain of two directories and, after it, a
    file. *)
Definition deep_tree : lnode :=
  LDir [("a", nested ["b"]); ("z.txt", LFile "Z")].

Definition deep_files : string -> option lnode :=
  fun p => if String.eqb p "conf" then Some deep_tree else None.

Definition deep_world : World MemHost :=
  mkWorld example_host deep_files (mkClient true true) [] [].

(** A local file, and a host that already holds a file of its name in the
    working directory [/srv]. *)
Definition motd_files : string -> option lnode :=
  fun p => if String.eqb p "etc/motd" then Some (LFile "new") else None.

Definition motd_world : World MemHost :=
  mkWorld (mkMemHost (<[ ["srv"; "motd"] := RFile "old" ]> (rfs example_host))
                     ["home"; "pioz"] quiet_shell)
          motd_files (mkClient true false) [] [].

(** A service whose working directory is the login directory of the host,
    written with a separator at its end. *)
Definition slash_service : Service :=
  mkService "srv" (set_str WorkingDirectory "/home/pioz/" example_conf)
            "/home/pioz" ".god.yml".

(** A service that logs to a file. *)
Definition logging_service : Service :=
  mkService "srv" (set_str LogPath "/var/log/srv.log" example_conf)
            "/home/pioz" ".god.yml".

(** A host like [RefusingHost], except that it opens sessions and the sftp
    subsystem: its requests fail with the status [code]. *)
Inductive FailingHost : Type := failing_host (code : Z).

#[global] Instance FailingHost_Remote : Remote FailingHost := {|
  Dial _ _ _ h := (None, h);
  NewSession h := (None, h);
  Run _ h := (mkRun "" ("sh: command failed" +:+ nl)
                    (Some (TransportError "Process exited with status 1")), h);
  NewSftpClient h := (None, h);
  SftpMkdirAll _ h := (Some (StatusError (let 'failing_host c := h in c) "failure"), h);
  SftpCreate _ h := (Some (StatusError (let 'failing_host c := h in c) "failure"), h);
  SftpWrite _ _ h := (Some (StatusError (let 'failing_host c := h in c) "failure"), h);
  SftpRemove _ h := (Some (StatusError (let 'failing_host c := h in c) "failure"), h);
  SftpRemoveDirectory _ h :=
    (Some (StatusError (let 'failing_host c := h in c) "failure"), h)
|}.

Definition failing_world : World FailingHost :=
  mkWorld (failing_host 4) no_local_files (mkClient true true) [] [].

(** The bytes the escaper of html/template leaves as they are. *)
Fixpoint html_safe (s : string) : bool :=
  match s with
  | EmptyString => true
  | String c s' =>
      negb (Ascii.eqb c "034" || Ascii.eqb c "&" || Ascii.eqb c "'"
            || Ascii.eqb c "+" || Ascii.eqb c "<" || Ascii.eqb c ">"
            || Ascii.eqb c "000")
      && html_safe s'
  end.

(** A string without the byte [sep]. *)
Fixpoint no_byte (sep : ascii) (s : string) : bool :=
  match s with
  | EmptyString => true
  | String c s' => negb (Ascii.eqb c sep) && no_byte sep s'
  end.

(** A host whose shell lists two lingering users and fails every other
    command. *)
Definition linger_shell (cmd : string) : RunResult :=
  if String.eqb cmd "ls /var/lib/systemd/linger"
  then mkRun ("pioz" +:+ nl +:+ "root" +:+ nl) "" None
  else mkRun "" ("sh: command failed" +:+ nl)
             (Some (TransportError "Process exited with status 1")).

Definition linger_world : World MemHost :=
  mkWorld (mkMemHost (rfs example_host) ["home"; "pioz"] linger_shell)
          no_local_files (mkClient true false) [] [].

(** [Runner.GetServiceNames]: the names of the services that are not
    ignored.  Go does not fix the order in which a map is ranged over; the
    entries are taken here in the order the map enumerates them. *)
Definition GetServiceNames (r : Runner) : list string :=
  fst <$> filter (fun kv => Ignore (snd kv) = false)
                 (map_to_list (runner_conf r)).

(** A name of an environment variable, as a shell takes it: upper-case
    letters, digits and underscores, not starting with a digit. *)
Definition env_char (c : ascii) : bool :=
  Utf8.between 65 90 c || Utf8.between 48 57 c || Ascii.eqb c "_".

Fixpoint all_env_chars (s : string) : bool :=
  match s with
  | EmptyString => true
  | String c s' => env_char c && all_env_chars s'
  end.

Definition env_identifier (s : string) : bool :=
  all_env_chars s
  && match s with
     | String c _ => negb (Utf8.between 48 57 c)
     | EmptyString => true
     end.



(** A service with two paths to copy, and a world in which the first is a
    local file and the host fails every sftp request. *)
Definition copying_service : Service :=
  mkService "srv"
            (mkConf (str example_conf) (int example_conf)
                    ["etc/motd"; "conf"] false)
            "/home/pioz" ".god.yml".

Definition failing_copy_world : World FailingHost :=
  mkWorld (failing_host 4) motd_files (mkClient true true) [] [].

(** A host that has the directory of the unit files of [example_conf]. *)
Definition unit_world : World MemHost :=
  mkWorld (mkMemHost (<[ ["etc"] := RDir ]>
                        (<[ ["etc"; "systemd"] := RDir ]>
                           (<[ ["etc"; "systemd"; "user"] := RDir ]>
                              (rfs example_host))))
                     ["home"; "pioz"] quiet_shell)
          no_local_files (mkClient true false) [] [].

(** The destination paths of the files among the visits. *)
Definition raw_files (es : list (string * string * lnode)) : list string :=
  map (fun e => snd (fst e)) (filter (fun e => IsDir (snd e) = false) es).


(** A configuration file that gives the login directory of the host as
    working directory, written with a separator at its end; and the run of
    [MakeService] on it. *)
Definition slash_runner : Runner :=
  mkRunner false ".god.yml"
    {[ "srv" := set_str WorkingDirectory "/home/pioz/"
                  (yaml_conf "github.com/pioz/srv@latest") ]} ∅.

Definition slash_made
  : result ((Service + error) * Runner) * World MemHost :=
  MakeService example_local slash_runner "srv" fresh_world.

(* ===================================================================== *)
(** * Theorems *)
(* ===================================================================== *)

#[local] Arguments String.append !_ _ /.

(** ** Strings *)

Section StringFacts.

Lemma app_cons (c : ascii) (a b : string) : String c a +:+ b = String c (a +:+ b).
Proof. reflexivity. Qed.

Lemma app_empty_r (a : string) : a +:+ "" = a.
Proof. induction a as [|c a IH]; simpl; [reflexivity | now rewrite IH]. Qed.

Lemma app_assoc_str (a b c : string) : (a +:+ b) +:+ c = a +:+ (b +:+ c).
Proof. induction a as [|x a IH]; simpl; [reflexivity | now rewrite IH]. Qed.

Lemma length_append (a b : string) :
  String.length (a +:+ b) = (String.length a + String.length b)%nat.
Proof. induction a as [|x a IH]; simpl; [reflexivity | now rewrite IH]. Qed.

Lemma substring_0_0 (s : string) : String.substring 0 0 s = "".
Proof. destruct s; reflexivity. Qed.

Lemma substring_all (s : string) : String.substring 0 (String.length s) s = s.
Proof. induction s as [|c s IH]; simpl; [reflexivity | now rewrite IH]. Qed.

Lemma substring_app_l (a b : string) :
  String.substring 0 (String.length a) (a +:+ b) = a.
Proof.
  induction a as [|c a IH]; simpl; [apply substring_0_0 | now rewrite IH].
Qed.

Lemma substring_app_r (a b : string) (n : nat) :
  String.substring (String.length a) n (a +:+ b) = String.substring 0 n b.
Proof. induction a as [|c a IH]; simpl; [reflexivity | exact IH]. Qed.

(** A string is its first [n] bytes followed by the rest. *)
Lemma substring_split (s : string) (n : nat) :
  (n <= String.length s)%nat ->
  String.substring 0 n s +:+ String.substring n (String.length s - n) s = s.
Proof.
  revert n; induction s as [|c s IH]; intros [|n] Hn; simpl in *;
    try reflexivity; try lia.
  - now rewrite substring_all.
  - rewrite IH by lia. reflexivity.
Qed.

Lemma HasSuffix_app (a suffix : string) : HasSuffix (a +:+ suffix) suffix = true.
Proof.
  unfold HasSuffix. rewrite length_append.
  replace (String.length a + String.length suffix - String.length suffix)%nat
    with (String.length a) by lia.
  rewrite substring_app_r, substring_all, String.eqb_refl.
  rewrite andb_true_r. apply Nat.leb_le. lia.
Qed.

Lemma HasSuffix_inv (s suffix : string) :
  HasSuffix s suffix = true ->
  s = String.substring 0 (String.length s - String.length suffix) s +:+ suffix.
Proof.
  unfold HasSuffix. intros [Hle Heq]%andb_true_iff.
  apply Nat.leb_le in Hle. apply String.eqb_eq in Heq.
  rewrite <- (substring_split s (String.length s - String.length suffix)) at 1
    by lia.
  f_equal. rewrite <- Heq at 3. f_equal. lia.
Qed.

Lemma TrimSuffix_app (a suffix : string) : TrimSuffix (a +:+ suffix) suffix = a.
Proof.
  unfold TrimSuffix. rewrite HasSuffix_app, length_append.
  replace (String.length a + String.length suffix - String.length suffix)%nat
    with (String.length a) by lia.
  apply substring_app_l.
Qed.

Lemma TrimSuffix_no (s suffix : string) :
  HasSuffix s suffix = false -> TrimSuffix s suffix = s.
Proof. unfold TrimSuffix. now intros ->. Qed.

(** [TrimSuffix s "\n"] is [s] without its trailing line feed. *)
Lemma TrimSuffix_newline_stripped (s : string) :
  newline_stripped s (TrimSuffix s nl).
Proof.
  destruct (HasSuffix s nl) eqn:E.
  - pose proof (HasSuffix_inv _ _ E) as Hs.
    remember (String.substring 0 (String.length s - String.length nl) s) as x
      eqn:Hx.
    clear Hx E. subst s. rewrite TrimSuffix_app. now apply stripped_one.
  - rewrite TrimSuffix_no by exact E. apply stripped_none.
    intros x ->. now rewrite HasSuffix_app in E.
Qed.

End StringFacts.

(** ** C6: what [Exec] returns *)

Section ExecFacts.
Context {H : Type} `{Remote H}.

Lemma Client_Exec_run (cmd : string) (w : World H) (h1 h2 : H) (r : RunResult) :
  SshClient (client w) = true ->
  NewSession (host w) = (None, h1) ->
  Run cmd h1 = (r, h2) ->
  Client_Exec cmd w =
    (Ok (match run_err r with
         | Some _ => run_stderr r
         | None => run_stdout r
         end, run_err r),
     mkWorld h2 (localfs w) (client w) (output w) (wire w ++ [ReqRun cmd])).
Proof.
  intros Hc Hs Hr. unfold Client_Exec, bind, get_client, on_host, request_host.
  rewrite Hc. simpl. rewrite Hs. simpl. rewrite Hr.
  destruct (run_err r); reflexivity.
Qed.

(** C6. A command that is run in a session of a connected client returns
    the standard output and a nil error when it succeeds, the standard
    error and the error of the run when it fails; in both cases the value
    returned is the stream without its trailing line feed, and the command
    is the one request added to the wire. *)
Theorem Exec_output_and_error
        (s : Service) (cmd : string) (w : World H) (h1 h2 : H) (r : RunResult) :
  SshClient (client w) = true ->
  NewSession (host w) = (None, h1) ->
  Run cmd h1 = (r, h2) ->
  exists out,
    Exec s cmd w =
      (Ok (out, run_err r),
       mkWorld h2 (localfs w) (client w) (output w) (wire w ++ [ReqRun cmd]))
    /\ (run_err r = None -> newline_stripped (run_stdout r) out)
    /\ (forall e, run_err r = Some e -> newline_stripped (run_stderr r) out).
Proof.
  intros Hc Hs Hr. unfold Exec, bind.
  rewrite (Client_Exec_run cmd w h1 h2 r Hc Hs Hr). simpl.
  eexists. split; [reflexivity|]. split.
  - intros ->. apply TrimSuffix_newline_stripped.
  - intros e ->. apply TrimSuffix_newline_stripped.
Qed.

End ExecFacts.

(** ** C1, C2: the two pipelines *)

Section PipelineFacts.
Context {H : Type} `{Remote H}.

Ltac run_step :=
  match goal with
  | |- context [match ?m ?w with _ => _ end] =>
      let E := fresh "E" in
      destruct (m w) as [[[?|]|?] ?] eqn:E; simpl
  end.

(** C1. [Install] is a fail-fast run of the ten steps in the order: verify
    the go executable, verify the systemd executable, verify lingering,
    verify or create the working directory, set up the private
    repository credentials, install the package, copy the auxiliary
    files, upload the unit file, reload the daemon, enable the unit.  The
    first step that returns an error ends the run with that error and in
    the state that step left, so no later step has run; when the first
    step (the go executable) fails, it is the only step that ran. *)
Theorem Install_fail_fast (s : Service) (createWorkingDirectory : bool)
        (w : World H) :
  exists ran,
    fail_fast (run_install_step s createWorkingDirectory)
              install_pipeline w ran (Install s createWorkingDirectory w)
    /\ (forall e w1, CheckGo s w = (Ok (Some e), w1) ->
          ran = [VerifyGo]
          /\ Install s createWorkingDirectory w = (Ok (Some e), w1)).
Proof.
  unfold Install, install_pipeline, bind.
  repeat run_step;
    (eexists; split;
     [ repeat first
         [ apply ff_end
         | eapply ff_abort; simpl; eassumption
         | eapply ff_panic; simpl; eassumption
         | eapply ff_next; [simpl; eassumption|] ]
     | intros e' w1' He'; try congruence ]).
  unfold ret. split; congruence.
Qed.

Lemma PrintExec_returns (s : Service) (cmd msg : string) (w : World H) :
  exists r w', PrintExec s cmd msg w = (Ok r, w').
Proof.
  unfold PrintExec, Exec, Client_Exec, bind, SendMessage, get_client, ret,
    on_host, request_host. simpl.
  destruct (SshClient (client w)); simpl; [|eauto].
  destruct (NewSession (host w)) as [[e|] h1]; simpl; [eauto|].
  destruct (Run cmd h1) as [r h2]; simpl.
  destruct (run_err r); simpl; eauto.
Qed.

Lemma DeleteExecutable_returns (s : Service) (w : World H) :
  exists r w', DeleteExecutable s w = (Ok r, w').
Proof.
  unfold DeleteExecutable, ParseCommand, bind.
  change (Template.Parse "rm {{.ExecStart}}")
    with (Some [Template.TextNode "rm "; Template.ActionNode (FStr ExecStart)]).
  unfold ret at 1. apply PrintExec_returns.
Qed.

(** C2. [Uninstall] runs all seven steps, in the order: stop the unit,
    disable the unit, delete the unit file, reload the daemon, reset the
    failed units, delete the executable, delete the auxiliary files; each
    runs from the state the one before left, whatever that one returned.
    So when stopping the unit fails, disabling it and every later step
    still run. *)
Theorem Uninstall_best_effort (s : Service) (removeWorkingDirectory : bool)
        (w : World H) :
  best_effort (run_uninstall_step s removeWorkingDirectory)
              uninstall_pipeline w uninstall_pipeline
              (Uninstall s removeWorkingDirectory w).
Proof.
  unfold Uninstall, uninstall_pipeline, bind.
  destruct (PrintExec_returns s ("systemctl --user stop " +:+ Name s)
              "couldn't stop systemd service" w) as (r1 & w1 & E1).
  destruct (PrintExec_returns s ("systemctl --user disable " +:+ Name s)
              "couldn't disable systemd service" w1) as (r2 & w2 & E2).
  destruct (PrintExec_returns s
              ("rm " +:+ Filepath.Join [str (conf s) SystemdServicesDirectory;
                                        Name s +:+ ".service"])
              ("cannot delete service file `"
               +:+ Filepath.Join [str (conf s) SystemdServicesDirectory;
                                  Name s +:+ ".service"] +:+ "`") w2)
    as (r3 & w3 & E3).
  destruct (PrintExec_returns s "systemctl --user daemon-reload"
              "couldn't reload systemd daemon" w3) as (r4 & w4 & E4).
  destruct (PrintExec_returns s "systemctl --user reset-failed"
              "couldn't reset failed systemd services" w4) as (r5 & w5 & E5).
  destruct (DeleteExecutable_returns s w5) as (r6 & w6 & E6).
  unfold StopService, DisableService, DeleteServiceFile, ReloadDaemon,
    ResetFailedServices.
  rewrite E1, E2, E3, E4, E5, E6.
  eapply be_next; [exact E1|]. eapply be_next; [exact E2|].
  eapply be_next; [exact E3|]. eapply be_next; [exact E4|].
  eapply be_next; [exact E5|]. eapply be_next; [exact E6|].
  destruct (DeleteFiles s removeWorkingDirectory w6) as [[r7|p] w7] eqn:E7.
  - eapply be_next; [exact E7|]. apply be_end.
  - apply be_panic. exact E7.
Qed.

End PipelineFacts.

(** ** C4: the unit file *)

Section TemplateFacts.
Import Template.







End TemplateFacts.

Section UnitFileFacts.
Import Template.




Context {H : Type} `{Remote H}.


End UnitFileFacts.

Section UnitFileClaim.
Import Template.
Context {H : Type} `{Remote H}.

Lemma eqb_empty_false (v : string) : v <> "" -> String.eqb v "" = false.
Proof. intros Hv. now apply String.eqb_neq. Qed.


Lemma str_set_str (f g : sfield) (v : string) (c : Conf) :
  str (set_str f v c) g = if decide (g = f) then v else str c g.
Proof. reflexivity. Qed.







End UnitFileClaim.



(** A run of [Exec] on the concrete host. *)
Lemma Exec_output_and_error_witness :
  exists out,
    Exec example_service "pwd" example_world
    = (Ok (out, None),
       mkWorld example_host no_local_files (mkClient true false) [] [ReqRun "pwd"])
    /\ (@None error = None -> newline_stripped "" out)
    /\ (forall e : error, None = Some e -> newline_stripped "" out).
Proof.
  exact (Exec_output_and_error example_service "pwd" example_world
           example_host example_host (mkRun "" "" None)
           eq_refl eq_refl eq_refl).
Defined.

(** ** C8: the credential file *)

Section NetrcFacts.
Context {H : Type} `{Remote H}.

(** C8, as the code has it.  With a private-package setting, the step reads
    the credential file with [cat ~/.netrc].  When the triple occurs in what
    was read, the step succeeds and sends nothing else to the host: the file
    is left as it is.  When it does not occur, the step writes the file
    anew with one [echo] command: the triple alone when the file could not
    be read, the triple followed by what was read otherwise (the triple is
    put before the old content, not after it); the step fails exactly when
    that command fails. *)
Theorem AuthPrivateRepo_netrc
        (s : Service) (w w1 : World H) (output : string) (err : option error) :
  str (conf s) GoPrivate <> "" ->
  Exec s "cat ~/.netrc"
       (snd (SendMessage (Name s) "GO_PRIVATE found: edit .netrc file"
                         MessageNormal w)) = (Ok (output, err), w1) ->
  let auth := netrc_entry (conf s) in
  let write_cmd :=
    match err with
    | Some _ => "echo '" +:+ auth +:+ "' > ~/.netrc"
    | None => "echo '" +:+ auth +:+ nl +:+ output +:+ "' > ~/.netrc"
    end in
  (Contains output auth = true ->
   AuthPrivateRepo s w
   = (Ok None, snd (SendMessage (Name s) "" MessageSuccess w1)))
  /\ (Contains output auth = false ->
      forall r2 w2, Exec s write_cmd w1 = (Ok r2, w2) ->
        AuthPrivateRepo s w
        = match snd r2 with
          | Some e =>
              (Ok (Some e), snd (SendMessage (Name s) (Error e) MessageError w2))
          | None => (Ok None, snd (SendMessage (Name s) "" MessageSuccess w2))
          end).
Proof.
  intros Hp Hcat auth write_cmd.
  unfold SendMessage in Hcat. cbn [snd] in Hcat.
  assert (Hstart : forall k : string * option error -> M H (option error),
             (SendMessage (Name s) "GO_PRIVATE found: edit .netrc file"
                          MessageNormal ;;;
              r <- Exec s "cat ~/.netrc" ;; k r) w = k (output, err) w1).
  { intros k. unfold bind at 1. unfold SendMessage at 1.
    unfold bind at 1. rewrite Hcat. reflexivity. }
  unfold AuthPrivateRepo. rewrite (eqb_empty_false _ Hp). cbn [negb].
  rewrite Hstart. cbn [fst snd]. fold auth. fold write_cmd.
  split.
  - intros Hc. rewrite Hc. reflexivity.
  - intros Hc r2 w2 Hw. rewrite Hc. cbn [negb].
    unfold bind at 1. unfold bind at 1. rewrite Hw.
    destruct (snd r2); reflexivity.
Qed.

End NetrcFacts.

(** On the concrete host the credential file has no entry for the machine:
    the step writes the file and succeeds. *)
Lemma AuthPrivateRepo_netrc_witness :
  AuthPrivateRepo private_service netrc_world
  = (Ok None,
     snd (SendMessage "srv" "" MessageSuccess
            (snd (Exec private_service
                    ("echo '" +:+ netrc_entry private_conf +:+ nl
                     +:+ "machine gitlab.com login bob password s3cret"
                     +:+ "' > ~/.netrc")
                    (snd (Exec private_service "cat ~/.netrc"
                            (snd (SendMessage "srv"
                                    "GO_PRIVATE found: edit .netrc file"
                                    MessageNormal netrc_world)))))))).
Proof.
  refine (proj2 (AuthPrivateRepo_netrc private_service netrc_world _
                   "machine gitlab.com login bob password s3cret" None _ _)
                _ ("", None) _ _).
  - discriminate.
  - vm_compute. reflexivity.
  - vm_compute. reflexivity.
  - vm_compute. reflexivity.
Defined.

(** C8 as stated fails: the triple is not appended.  After the step the
    credential file holds the new entry first and the old content after
    it. *)
Lemma netrc_entry_is_prepended :
  fst (AuthPrivateRepo private_service netrc_world) = Ok None
  /\ rfs (host (snd (AuthPrivateRepo private_service netrc_world))) !! netrc_path
     = Some (RFile ("machine github.com login pioz password tok3n" +:+ nl
                    +:+ old_netrc))
  /\ "machine github.com login pioz password tok3n" +:+ nl +:+ old_netrc
     <> old_netrc +:+ "machine github.com login pioz password tok3n" +:+ nl.
Proof.
  split; [vm_compute; reflexivity|]. split; [vm_compute; reflexivity|].
  vm_compute. discriminate.
Qed.

(** ** C9: the environment overlay *)

Section EnvFacts.
Variable env : gmap string string.
Variable serviceName : string.

Lemma yaml_tag_nonempty (f : field) : String.eqb (yaml_tag f) "" = false.
Proof. destruct f as [[]|[]| |]; reflexivity. Qed.




Lemma loadField_rest (c : Conf) (f : field) :
  CopyFiles (loadFieldFromEnv env serviceName c f) = CopyFiles c
  /\ Ignore (loadFieldFromEnv env serviceName c f) = Ignore c.
Proof.
  unfold loadFieldFromEnv. rewrite yaml_tag_nonempty. cbn [negb].
  destruct (String.eqb _ ""); cbn [negb]; [now split|].
  destruct f as [g| g| |]; try (now split).
  now destruct (Strconv.Atoi _).
Qed.



Lemma load_fields_rest (l : list field) (c : Conf) :
  CopyFiles (fold_left (loadFieldFromEnv env serviceName) l c) = CopyFiles c
  /\ Ignore (fold_left (loadFieldFromEnv env serviceName) l c) = Ignore c.
Proof.
  revert c; induction l as [|f l IH]; intros c; [now split|].
  cbn [fold_left]. destruct (IH (loadFieldFromEnv env serviceName c f)) as [-> ->].
  apply loadField_rest.
Qed.

End EnvFacts.

Section EnvName.

Lemma rune_width_ascii (ch : ascii) (s : string) :
  (nat_of_ascii ch <? 128)%nat = true -> Utf8.rune_width (String ch s) = 1%nat.
Proof.
  intros Hc. apply Nat.ltb_lt in Hc. unfold Utf8.rune_width.
  destruct s as [|c1 r1]; [reflexivity|].
  assert (Hb : forall lo hi, (128 <= lo)%nat -> Utf8.between lo hi ch = false).
  { intros lo hi Hlo. unfold Utf8.between. apply andb_false_iff. left.
    apply Nat.leb_gt. lia. }
  rewrite !Hb by lia. cbn [andb].
  destruct r1 as [|c2 r2]; [reflexivity|]. cbn [andb].
  destruct r2; reflexivity.
Qed.

Lemma Map_trim_ascii (s : string) :
  ascii_only s = true ->
  ToUpper (Map_trim 0 s) = upper_or_underscore s.
Proof.
  induction s as [|ch s IH]; intros Ha; [reflexivity|].
  cbn [ascii_only] in Ha. apply andb_true_iff in Ha as [Hc Hs].
  cbn [Map_trim]. rewrite (rune_width_ascii ch s Hc). cbn [Nat.eqb ToUpper].
  rewrite (IH Hs). cbn [upper_or_underscore]. f_equal.
  unfold trim, is_alnum, Utf8.between.
  destruct ((65 <=? nat_of_ascii ch)%nat && (nat_of_ascii ch <=? 90)%nat);
    [reflexivity|].
  destruct ((97 <=? nat_of_ascii ch)%nat && (nat_of_ascii ch <=? 122)%nat);
    [reflexivity|].
  destruct ((48 <=? nat_of_ascii ch)%nat && (nat_of_ascii ch <=? 57)%nat);
    reflexivity.
Qed.

Lemma upper_byte_digit (ch : ascii) :
  Utf8.between 48 57 (if is_alnum ch then upper_byte ch else "_"%char)
  = Utf8.between 48 57 ch.
Proof.
  destruct ch as [[] [] [] [] [] [] [] []]; reflexivity.
Qed.

(** On a name of one-byte characters [serviceNameToEnvName] is the name the
    specification describes. *)
Lemma serviceNameToEnvName_spec (name : string) :
  ascii_only name = true -> serviceNameToEnvName name = env_name_spec name.
Proof.
  intros Ha. unfold serviceNameToEnvName, env_name_spec.
  destruct name as [|ch s]; [reflexivity|].
  cbn [String.length Nat.eqb]. rewrite (Map_trim_ascii _ Ha).
  cbn [upper_or_underscore]. now rewrite upper_byte_digit.
Qed.

End EnvName.




(** ** C10: the default start command *)

Section GetExecFacts.
Import PackageRegExp.

Lemma group_at_inv (s g : string) :
  group_at s = Some g ->
  g = fst (span_word s) /\ g <> "" /\ exists r, snd (span_word s) = String "@" r.
Proof.
  unfold group_at.
  destruct (fst (span_word s)) as [|a g'] eqn:E1; [discriminate|].
  destruct (snd (span_word s)) as [|ch r] eqn:E2; [discriminate|].
  destruct ch as [[] [] [] [] [] [] [] []]; try discriminate.
  intros [= <-]. repeat split; [discriminate | eauto].
Qed.

Lemma span_word_app (seg rest : string) :
  all_word seg = true ->
  span_word (seg +:+ rest)
  = (seg +:+ fst (span_word rest), snd (span_word rest)).
Proof.
  induction seg as [|ch seg IH]; intros Hw; cbn [all_word] in Hw.
  - simpl. now destruct (span_word rest).
  - apply andb_true_iff in Hw as [Hc Hs].
    rewrite app_cons. cbn [span_word]. rewrite Hc, (IH Hs). reflexivity.
Qed.

Lemma group_at_segment (seg ver : string) :
  all_word seg = true -> seg <> "" ->
  group_at (seg +:+ "@" +:+ ver) = Some seg.
Proof.
  intros Hw Hne. unfold group_at. rewrite (span_word_app _ _ Hw).
  cbn [fst snd]. change (span_word ("@" +:+ ver)) with ("", String "@" ver).
  cbn [fst snd]. rewrite app_empty_r.
  destruct seg; [congruence | reflexivity].
Qed.

Lemma span_word_stops (pre tail : string) :
  pre <> "" -> no_at pre = true -> ends_outside_class pre = true ->
  exists ch r, snd (span_word (pre +:+ tail)) = String ch r
               /\ Ascii.eqb ch "@" = false.
Proof.
  induction pre as [|a p IH]; intros Hne Hat He; [congruence|].
  cbn [no_at] in Hat. apply andb_true_iff in Hat as [Ha Hp].
  apply negb_true_iff in Ha.
  rewrite app_cons. cbn [span_word].
  destruct (is_word a) eqn:Hw.
  - destruct p as [|b p'].
    + cbn [ends_outside_class] in He. rewrite Hw in He. discriminate.
    + cbn [snd]. apply IH; [discriminate | exact Hp | exact He].
  - cbn [snd]. eauto.
Qed.

Lemma group_at_prefix (pre tail : string) :
  pre <> "" -> no_at pre = true -> ends_outside_class pre = true ->
  group_at (pre +:+ tail) = None.
Proof.
  intros Hne Hat He.
  destruct (group_at (pre +:+ tail)) as [g|] eqn:E; [|reflexivity].
  apply group_at_inv in E as (_ & _ & r & Hr).
  destruct (span_word_stops pre tail Hne Hat He) as (ch & r' & Hs & Hch).
  rewrite Hs in Hr. injection Hr as -> _. discriminate.
Qed.

Lemma match_here_not_slash (a : ascii) (s : string) :
  Ascii.eqb a "/" = false -> match_here (String a s) = group_at (String a s).
Proof.
  intros Ha. destruct a as [[] [] [] [] [] [] [] []]; try reflexivity.
  discriminate.
Qed.

Lemma match_here_slash (s : string) :
  match_here (String "/" s) = match group_at s with
                              | Some g => Some g
                              | None => None
                              end.
Proof.
  cbn [match_here]. destruct (group_at s); [reflexivity|].
  unfold group_at. reflexivity.
Qed.

(** The match is the run of the class right before the first [@] that
    follows such a run. *)
Lemma FindStringSubmatch_segment (pre seg ver : string) :
  no_at pre = true -> ends_outside_class pre = true ->
  all_word seg = true -> seg <> "" ->
  FindStringSubmatch (pre +:+ seg +:+ "@" +:+ ver) = Some seg.
Proof.
  intros Hat He Hw Hne.
  induction pre as [|a p IH].
  - change ("" +:+ seg +:+ "@" +:+ ver) with (seg +:+ "@" +:+ ver).
    destruct seg as [|b seg']; [congruence|].
    rewrite app_cons. cbn [FindStringSubmatch]. rewrite match_here_not_slash.
    + rewrite <- app_cons. now rewrite (group_at_segment _ ver Hw Hne).
    + cbn [all_word] in Hw. apply andb_true_iff in Hw as [Hb _].
      destruct (Ascii.eqb b "/") eqn:E; [|reflexivity].
      apply Ascii.eqb_eq in E. subst b. discriminate.
  - assert (Hp : no_at p = true).
    { cbn [no_at] in Hat. now apply andb_true_iff in Hat as [_ Hp]. }
    assert (Hep : ends_outside_class p = true).
    { destruct p; [reflexivity | exact He]. }
    specialize (IH Hp Hep).
    rewrite app_cons. cbn [FindStringSubmatch]. rewrite IH.
    destruct (Ascii.eqb a "/") eqn:E.
    + apply Ascii.eqb_eq in E. subst a. rewrite match_here_slash.
      destruct p as [|b p'].
      * change ("" +:+ seg +:+ "@" +:+ ver) with (seg +:+ "@" +:+ ver).
        now rewrite (group_at_segment _ ver Hw Hne).
      * rewrite group_at_prefix; [reflexivity | discriminate | exact Hp | exact Hep].
    + rewrite match_here_not_slash by exact E.
      rewrite <- app_cons.
      rewrite group_at_prefix; [reflexivity | discriminate | exact Hat | exact He].
Qed.

Lemma no_at_span_word (s : string) :
  no_at s = true -> no_at (snd (span_word s)) = true.
Proof.
  induction s as [|a s IH]; intros Hs; [reflexivity|].
  cbn [span_word]. destruct (is_word a); [|exact Hs].
  cbn [snd]. apply IH. cbn [no_at] in Hs.
  now apply andb_true_iff in Hs as [_ Hs].
Qed.

Lemma group_at_no_at (s : string) : no_at s = true -> group_at s = None.
Proof.
  intros Hs. destruct (group_at s) as [g|] eqn:E; [|reflexivity].
  apply group_at_inv in E as (_ & _ & r & Hr).
  pose proof (no_at_span_word s Hs) as Hn. rewrite Hr in Hn. discriminate.
Qed.

Lemma FindStringSubmatch_no_at (s : string) :
  no_at s = true -> FindStringSubmatch s = None.
Proof.
  induction s as [|a s IH]; intros Hs.
  - reflexivity.
  - assert (Hs' : no_at s = true).
    { cbn [no_at] in Hs. now apply andb_true_iff in Hs as [_ Hs']. }
    cbn [FindStringSubmatch]. rewrite (IH Hs').
    destruct (Ascii.eqb a "/") eqn:E.
    + apply Ascii.eqb_eq in E. subst a. rewrite match_here_slash.
      now rewrite (group_at_no_at s Hs').
    + rewrite match_here_not_slash by exact E. now rewrite (group_at_no_at _ Hs).
Qed.

End GetExecFacts.

Section MakeServiceFacts.
Context {H : Type} `{Remote H}.
Variable local : Local.

Lemma bind_Ok {A B} (m : M H A) (k : A -> M H B) (w w' : World H) (b : B) :
  bind m k w = (Ok b, w') ->
  exists a w1, m w = (Ok a, w1) /\ k a w1 = (Ok b, w').
Proof.
  unfold bind. destruct (m w) as [[a|p] w1]; [eauto | discriminate].
Qed.

Lemma default_str_other (f g : sfield) (v : string) (c : Conf) :
  g <> f -> str (default_str f v c) g = str c g.
Proof.
  intros Hne. unfold default_str. destruct (String.eqb (str c f) "");
    [|reflexivity].
  rewrite str_set_str. now destruct (decide (g = f)).
Qed.

Lemma query_if_empty_other (s : Service) (f g : sfield) (cmd : string)
      (c c' : Conf) (w w' : World H) :
  query_if_empty s f cmd c w = (Ok c', w') -> g <> f -> str c' g = str c g.
Proof.
  unfold query_if_empty. intros Hq Hne.
  destruct (String.eqb (str c f) "").
  - apply bind_Ok in Hq as (r & w1 & _ & Hk).
    destruct (snd r); injection Hk as <- _; rewrite str_set_str;
      now destruct (decide (g = f)).
  - injection Hq as <- _. reflexivity.
Qed.

Lemma MakeService_ExecStart (r r' : Runner) (serviceName : string) (c : Conf)
      (s : Service) (w w' : World H) :
  services r !! serviceName = None ->
  runner_conf r !! serviceName = Some c ->
  MakeService local r serviceName w = (Ok (inl s, r'), w') ->
  str (conf s) ExecStart
  = if String.eqb (str c ExecStart) ""
    then (if String.eqb (getExec (str c GoInstall)) "" then ""
          else Filepath.Join [str (conf s) GoBinDirectory;
                              getExec (str c GoInstall)])
    else str c ExecStart.
Proof.
  intros Hcache Hconf Hmake. unfold MakeService in Hmake.
  rewrite Hcache, Hconf in Hmake.
  destruct (validateConf r c); [discriminate|].
  set (c1 := default_str PrivateKeyPath _ _) in Hmake.
  assert (Hc1 : forall g, g <> User -> g <> Port -> g <> PrivateKeyPath ->
                          str c1 g = str c g).
  { intros g Hu Hp Hk. subst c1. rewrite !default_str_other by assumption.
    destruct (String.eqb (str c User) ""); [|reflexivity].
    destruct (current_user local); [|reflexivity].
    rewrite str_set_str. now destruct (decide (g = User)). }
  clearbody c1.
  destruct (ReadFile local _); [|discriminate].
  destruct (ParsePrivateKey local _); [discriminate|].
  apply bind_Ok in Hmake as (err & w1 & _ & Hmake).
  destruct err; [discriminate|].
  apply bind_Ok in Hmake as ([] & w2 & _ & Hmake).
  apply bind_Ok in Hmake as (p & w3 & _ & Hmake).
  destruct (snd p); [discriminate|].
  apply bind_Ok in Hmake as (c2 & w4 & Hq1 & Hmake).
  apply bind_Ok in Hmake as (c3 & w5 & Hq2 & Hmake).
  destruct (String.eqb (str c3 GoBinDirectory) ""); [discriminate|].
  apply bind_Ok in Hmake as (c4 & w6 & Hq3 & Hmake).
  apply bind_Ok in Hmake as (c5 & w7 & Hq4 & Hmake).
  assert (Hc5 : forall g, g <> User -> g <> Port -> g <> PrivateKeyPath ->
                          g <> GoBinDirectory -> g <> GoExecPath ->
                          str c5 g = str c g).
  { intros g Hu Hp Hk Hb He.
    rewrite (query_if_empty_other _ _ g _ _ _ _ _ Hq4 He).
    rewrite (query_if_empty_other _ _ g _ _ _ _ _ Hq3 He).
    rewrite (query_if_empty_other _ _ g _ _ _ _ _ Hq2 Hb).
    rewrite (query_if_empty_other _ _ g _ _ _ _ _ Hq1 Hb).
    now apply Hc1. }
  clear Hq1 Hq2 Hq3 Hq4 Hc1.
  set (x := default_str SystemdLingerDirectory _ _) in Hmake.
  assert (Hx : forall g, g <> GoExecPath -> g <> SystemdPath ->
                         g <> SystemdServicesDirectory ->
                         g <> SystemdLingerDirectory -> str x g = str c5 g).
  { intros g H1 H2 H3 H4. subst x. now rewrite !default_str_other. }
  clearbody x.
  injection Hmake as <- _ _. cbn [conf].
  rewrite !default_str_other by discriminate.
  assert (HxE : str x ExecStart = str c ExecStart).
  { rewrite Hx, Hc5 by discriminate. reflexivity. }
  assert (HxG : str x GoInstall = str c GoInstall).
  { rewrite Hx, Hc5 by discriminate. reflexivity. }
  rewrite HxE, HxG.
  destruct (String.eqb (str c ExecStart) "") eqn:EE; [|exact HxE].
  destruct (String.eqb (getExec (str c GoInstall)) "") eqn:EG; cbn [negb].
  - rewrite HxE. now apply String.eqb_eq in EE.
  - rewrite !str_set_str.
    destruct (decide (ExecStart = ExecStart)); [|congruence].
    destruct (decide (GoBinDirectory = ExecStart)); [discriminate|].
    cbn [Filepath.Join GoStrings.Join]. rewrite ?EG. reflexivity.
Qed.

End MakeServiceFacts.

Section DefaultExecStart.
Context {H : Type} `{Remote H}.

(** X29.  When [exec_start] is not configured, the start command of the
    service that [MakeService] returns is the go binary directory joined
    with the name [getExec] takes from [go_install], and it stays empty when
    that name is empty.  For [<prefix><name>@<version>], where the name is a
    non-empty run of letters, digits, [_] and [-] and the prefix has no [@]
    and is empty or ends in another character (a separator, a dot), the name
    taken is [<name>].  When [go_install] has no [@], no name is found and
    [exec_start] stays empty. *)
Theorem default_ExecStart
        (local : Local) (r r' : Runner) (serviceName : string) (c : Conf)
        (s : Service) (w w' : World H) :
  services r !! serviceName = None ->
  runner_conf r !! serviceName = Some c ->
  MakeService local r serviceName w = (Ok (inl s, r'), w') ->
  str c ExecStart = "" ->
  let exec := getExec (str c GoInstall) in
  str (conf s) ExecStart
  = (if String.eqb exec "" then ""
     else Filepath.Join [str (conf s) GoBinDirectory; exec])
  /\ (no_at (str c GoInstall) = true ->
      exec = "" /\ str (conf s) ExecStart = "")
  /\ (forall pre seg ver,
        str c GoInstall = pre +:+ seg +:+ "@" +:+ ver ->
        no_at pre = true -> ends_outside_class pre = true ->
        all_word seg = true -> seg <> "" ->
        exec = seg
        /\ str (conf s) ExecStart
           = Filepath.Join [str (conf s) GoBinDirectory; seg]).
Proof.
  intros Hcache Hconf Hmake Hes exec.
  pose proof (MakeService_ExecStart local r r' serviceName c s w w'
                Hcache Hconf Hmake) as HE.
  rewrite Hes in HE. cbn [String.eqb] in HE. fold exec in HE.
  split; [exact HE|]. split.
  - intros Hat. assert (Hx : exec = "").
    { unfold exec, getExec. now rewrite FindStringSubmatch_no_at. }
    split; [exact Hx|]. rewrite HE, Hx. reflexivity.
  - intros pre seg ver Hg Hat He Hw Hne. assert (Hx : exec = seg).
    { unfold exec, getExec. rewrite Hg.
      now rewrite FindStringSubmatch_segment. }
    split; [exact Hx|]. rewrite HE, Hx.
    now rewrite (eqb_empty_false seg Hne).
Qed.

End DefaultExecStart.

(** [github.com/pioz/srv@latest] gives [srv] in the go binary
    directory. *)
Lemma default_ExecStart_witness :
  str (conf (made_service
               (MakeService example_local
                  (example_runner "github.com/pioz/srv@latest") "srv"
                  fresh_world))) ExecStart
  = "/home/pioz/go/bin/srv".
Proof.
  set (run := MakeService example_local
                (example_runner "github.com/pioz/srv@latest") "srv" fresh_world).
  destruct (default_ExecStart example_local
              (example_runner "github.com/pioz/srv@latest") (made_runner run)
              "srv" (yaml_conf "github.com/pioz/srv@latest")
              (made_service run) fresh_world (snd run))
    as (_ & _ & Hseg).
  - reflexivity.
  - vm_compute. reflexivity.
  - vm_compute. reflexivity.
  - reflexivity.
  - destruct (Hseg "github.com/pioz/" "srv" "latest") as [_ ->];
      [reflexivity | reflexivity | reflexivity | reflexivity | discriminate |].
    vm_compute. reflexivity.
Defined.

(** C10 fails on the code.  The claim takes the last path segment before
    the [@]; the group of [packageRegExp] is [[-_\w]+], which has no dot, so
    for [github.com/pioz/my.tool@latest], whose binary [go install] names
    [my.tool], [getExec] returns [tool] and the default start command is
    [tool] in the go binary directory. *)
Lemma getExec_is_not_the_last_segment :
  getExec "github.com/pioz/my.tool@latest" = "tool"
  /\ str (conf (made_service
                  (MakeService example_local
                     (example_runner "github.com/pioz/my.tool@latest") "srv"
                     fresh_world))) ExecStart
     = "/home/pioz/go/bin/tool".
Proof. split; vm_compute; reflexivity. Qed.

(** ** Paths *)

Section PathFacts.

Lemma Split_nonempty (s : string) (sep : ascii) : GoStrings.Split s sep <> [].
Proof.
  destruct s as [|ch s]; [discriminate|]. cbn [GoStrings.Split].
  destruct (Ascii.eqb ch sep); [discriminate|].
  destruct (GoStrings.Split s sep); discriminate.
Qed.

Lemma Split_app (a b : string) :
  GoStrings.Split (a +:+ String "/" b) "/"
  = GoStrings.Split a "/" ++ GoStrings.Split b "/".
Proof.
  induction a as [|ch a IH].
  - reflexivity.
  - rewrite app_cons. cbn [GoStrings.Split]. rewrite IH.
    destruct (Ascii.eqb ch "/"); [reflexivity|].
    destruct (GoStrings.Split a "/") eqn:E; [|reflexivity].
    now apply Split_nonempty in E.
Qed.

Lemma Split_no_slash (n : string) : no_slash n = true -> GoStrings.Split n "/" = [n].
Proof.
  induction n as [|ch n IH]; intros Hn; [reflexivity|].
  cbn [no_slash] in Hn. apply andb_true_iff in Hn as [Hc Hn].
  apply negb_true_iff in Hc. cbn [GoStrings.Split]. rewrite Hc, (IH Hn).
  reflexivity.
Qed.

Lemma plain_no_slash (n : string) : plain n = true -> no_slash n = true.
Proof. unfold plain. intros H. now apply andb_true_iff in H as [_ H]. Qed.

Lemma plain_step (rooted : bool) (S : list string) (n : string) :
  plain n = true -> Filepath.clean_step rooted S n = n :: S.
Proof.
  unfold plain, Filepath.clean_step. intros Hp.
  apply andb_true_iff in Hp as [Hp _]. apply andb_true_iff in Hp as [Hp H3].
  apply andb_true_iff in Hp as [H1 H2].
  apply negb_true_iff in H1, H2, H3. now rewrite H1, H2, H3.
Qed.

Lemma plain_fold (rooted : bool) (names S : list string) :
  forallb plain names = true ->
  fold_left (Filepath.clean_step rooted) names S = rev names ++ S.
Proof.
  revert S; induction names as [|n names IH]; intros S Hp; [reflexivity|].
  cbn [forallb] in Hp. apply andb_true_iff in Hp as [Hn Hp].
  cbn [fold_left]. rewrite (plain_step _ _ _ Hn), (IH _ Hp).
  cbn [rev]. now rewrite <- app_assoc.
Qed.

Lemma Join_cons (x : string) (l : list string) (sep : string) :
  l <> [] -> GoStrings.Join (x :: l) sep = x +:+ sep +:+ GoStrings.Join l sep.
Proof. destruct l; [congruence | reflexivity]. Qed.

Lemma Split_Join (names : list string) :
  names <> [] -> forallb no_slash names = true ->
  GoStrings.Split (GoStrings.Join names "/") "/" = names.
Proof.
  induction names as [|n names IH]; intros Hne Hp; [congruence|].
  cbn [forallb] in Hp. apply andb_true_iff in Hp as [Hn Hp].
  destruct names as [|m names'].
  - cbn [GoStrings.Join]. now apply Split_no_slash.
  - rewrite Join_cons by discriminate.
    change (n +:+ "/" +:+ GoStrings.Join (m :: names') "/")
      with (n +:+ String "/" (GoStrings.Join (m :: names') "/")).
    rewrite Split_app, (Split_no_slash _ Hn), IH by (discriminate || exact Hp).
    reflexivity.
Qed.

Lemma run_app (S : list string) (a b : string) :
  run S (a +:+ String "/" b) = run (run S a) b.
Proof. unfold run. now rewrite Split_app, fold_left_app. Qed.

Lemma run_empty (S : list string) : run S "" = S.
Proof. reflexivity. Qed.

Lemma run_plain (S : list string) (n : string) :
  plain n = true -> run S n = n :: S.
Proof.
  intros Hp. unfold run. rewrite (Split_no_slash _ (plain_no_slash _ Hp)).
  cbn [fold_left]. now apply plain_step.
Qed.

Lemma forallb_plain_no_slash (names : list string) :
  forallb plain names = true -> forallb no_slash names = true.
Proof.
  induction names as [|n names IH]; [reflexivity|]. cbn [forallb].
  intros [Hn Hp]%andb_true_iff. now rewrite (plain_no_slash _ Hn), IH.
Qed.

Lemma run_Join_plain (S names : list string) :
  forallb plain names = true ->
  run S (GoStrings.Join names "/") = rev names ++ S.
Proof.
  intros Hp. destruct names as [|n names]; [reflexivity|].
  unfold run. rewrite Split_Join by (discriminate || now apply forallb_plain_no_slash).
  now apply plain_fold.
Qed.

End PathFacts.

Section CleanFacts.

Lemma Split_pieces (p : string) : forallb no_slash (GoStrings.Split p "/") = true.
Proof.
  induction p as [|ch p IH]; [reflexivity|]. cbn [GoStrings.Split].
  destruct (Ascii.eqb ch "/") eqn:E; [exact IH|].
  destruct (GoStrings.Split p "/") as [|h t];
    cbn [forallb no_slash] in *; now rewrite E.
Qed.

Lemma piece_cases (c : string) :
  no_slash c = true ->
  String.eqb c "" || String.eqb c "." = true
  \/ c = ".."
  \/ (String.eqb c "" || String.eqb c "." = false
      /\ String.eqb c ".." = false /\ plain c = true).
Proof.
  intros Hc. unfold plain. rewrite Hc.
  destruct (String.eqb c "") eqn:E1; [now left|].
  destruct (String.eqb c ".") eqn:E2; [now left|].
  destruct (String.eqb c "..") eqn:E3.
  - right; left. now apply String.eqb_eq.
  - right; right. now repeat split.
Qed.

Lemma clean_step_shape (rooted : bool) (T : list string) (c : string) :
  no_slash c = true -> forallb dotdot_or_plain T = true ->
  forallb dotdot_or_plain (Filepath.clean_step rooted T c) = true.
Proof.
  intros Hc HT. unfold Filepath.clean_step.
  destruct (piece_cases c Hc) as [-> | [-> | (-> & -> & Hp)]]; [exact HT | |].
  - cbn [String.eqb Ascii.eqb Bool.eqb orb andb].
    destruct T as [|top rest]; [now destruct rooted|].
    cbn [forallb] in HT. apply andb_true_iff in HT as [Ht Hr].
    destruct (String.eqb top ".."); [|exact Hr].
    cbn [forallb]. now rewrite Ht, Hr.
  - cbn [forallb]. unfold dotdot_or_plain at 1. now rewrite Hp, orb_true_r.
Qed.

Lemma fold_shape (rooted : bool) (l T : list string) :
  forallb no_slash l = true -> forallb dotdot_or_plain T = true ->
  forallb dotdot_or_plain (fold_left (Filepath.clean_step rooted) l T) = true.
Proof.
  revert T; induction l as [|c l IH]; intros T Hl HT; [exact HT|].
  cbn [forallb] in Hl. apply andb_true_iff in Hl as [Hc Hl].
  cbn [fold_left]. apply IH; [exact Hl|]. now apply clean_step_shape.
Qed.

(** A rooted path never keeps a [..]. *)
Lemma clean_step_rooted_plain (T : list string) (c : string) :
  no_slash c = true -> forallb plain T = true ->
  forallb plain (Filepath.clean_step true T c) = true.
Proof.
  intros Hc HT. unfold Filepath.clean_step.
  destruct (piece_cases c Hc) as [-> | [-> | (-> & -> & Hp)]]; [exact HT | |].
  - cbn [String.eqb Ascii.eqb Bool.eqb orb andb].
    destruct T as [|top rest]; [reflexivity|].
    cbn [forallb] in HT. apply andb_true_iff in HT as [Ht Hr].
    destruct (String.eqb top "..") eqn:E; [|exact Hr].
    apply String.eqb_eq in E. subst top. discriminate.
  - cbn [forallb]. now rewrite Hp, HT.
Qed.

Lemma fold_rooted_plain (l T : list string) :
  forallb no_slash l = true -> forallb plain T = true ->
  forallb plain (fold_left (Filepath.clean_step true) l T) = true.
Proof.
  revert T; induction l as [|c l IH]; intros T Hl HT; [exact HT|].
  cbn [forallb] in Hl. apply andb_true_iff in Hl as [Hc Hl].
  cbn [fold_left]. apply IH; [exact Hl|]. now apply clean_step_rooted_plain.
Qed.

(** Resolving the elements of a cleaned relative path, from any state, is
    resolving the path itself. *)
Lemma relative_fold (l T S : list string) :
  forallb no_slash l = true -> forallb dotdot_or_plain T = true ->
  fold_left (Filepath.clean_step true) l
            (fold_left (Filepath.clean_step true) (rev T) S)
  = fold_left (Filepath.clean_step true)
              (rev (fold_left (Filepath.clean_step false) l T)) S.
Proof.
  revert T; induction l as [|c l IH]; intros T Hl HT; [reflexivity|].
  cbn [forallb] in Hl. apply andb_true_iff in Hl as [Hc Hl].
  cbn [fold_left].
  assert (Hpush : forall c', Filepath.clean_step false T c = c' :: T ->
             Filepath.clean_step true
               (fold_left (Filepath.clean_step true) (rev T) S) c
             = fold_left (Filepath.clean_step true) (rev (c' :: T)) S ->
             fold_left (Filepath.clean_step true) l
               (Filepath.clean_step true
                  (fold_left (Filepath.clean_step true) (rev T) S) c)
             = fold_left (Filepath.clean_step true)
                 (rev (fold_left (Filepath.clean_step false) l
                         (Filepath.clean_step false T c))) S).
  { intros c' E1 E2. rewrite E1, E2. apply IH; [exact Hl|].
    rewrite <- E1. now apply clean_step_shape. }
  destruct (piece_cases c Hc) as [E | [-> | (E1 & E2 & Hp)]].
  - assert (Hskip : forall rooted X, Filepath.clean_step rooted X c = X).
    { intros rooted X. unfold Filepath.clean_step. now rewrite E. }
    rewrite !Hskip. now apply IH.
  - destruct T as [|top rest].
    + apply (Hpush ".."); reflexivity.
    + cbn [forallb] in HT. apply andb_true_iff in HT as [Ht Hr].
      destruct (String.eqb top "..") eqn:E.
      * apply (Hpush ".."); [unfold Filepath.clean_step; cbn; now rewrite E|].
        cbn [rev]. now rewrite (fold_left_app _ (rev (top :: rest)) [".."]).
      * unfold dotdot_or_plain in Ht. rewrite E in Ht. cbn [orb] in Ht.
        replace (Filepath.clean_step false (top :: rest) "..") with rest
          by (unfold Filepath.clean_step; cbn; now rewrite E).
        cbn [rev]. rewrite fold_left_app. cbn [fold_left].
        rewrite (plain_step true _ top Ht).
        replace (Filepath.clean_step true
                   (top :: fold_left (Filepath.clean_step true) (rev rest) S) "..")
          with (fold_left (Filepath.clean_step true) (rev rest) S)
          by (unfold Filepath.clean_step; cbn; now rewrite E).
        now apply IH.
  - apply (Hpush c).
    + unfold Filepath.clean_step. now rewrite E1, E2.
    + cbn [rev]. now rewrite fold_left_app.
Qed.

Lemma plain_not_abs (n : string) : plain n = true -> Filepath.IsAbs n = false.
Proof.
  intros Hp. pose proof (plain_no_slash _ Hp) as Hn.
  destruct n as [|ch n]; [reflexivity|]. cbn [no_slash] in Hn.
  apply andb_true_iff in Hn as [Hc _]. apply negb_true_iff in Hc.
  unfold Filepath.IsAbs. cbn [String.prefix].
  destruct (ascii_dec "/" ch) as [<-|]; [discriminate | reflexivity].
Qed.

Lemma IsAbs_app (a b : string) :
  a <> "" -> Filepath.IsAbs (a +:+ b) = Filepath.IsAbs a.
Proof.
  destruct a as [|ch a]; [congruence|]. intros _. unfold Filepath.IsAbs.
  rewrite app_cons. cbn [String.prefix].
  destruct (ascii_dec "/" ch); [|reflexivity].
  destruct (a +:+ b); now destruct a.
Qed.

Lemma IsAbs_slash (x : string) : Filepath.IsAbs ("/" +:+ x) = true.
Proof. unfold Filepath.IsAbs. cbn. now destruct x. Qed.

Lemma Join_first_not_abs (es : list string) :
  forallb dotdot_or_plain es = true ->
  Filepath.IsAbs (GoStrings.Join es "/") = false.
Proof.
  destruct es as [|e es]; [reflexivity|]. cbn [forallb].
  intros [He _]%andb_true_iff.
  assert (Hna : Filepath.IsAbs e = false /\ e <> "").
  { unfold dotdot_or_plain in He. apply orb_true_iff in He as [He|He].
    - apply String.eqb_eq in He. now subst e.
    - split; [now apply plain_not_abs|]. intros ->. discriminate. }
  destruct Hna as [Hna Hne].
  destruct es as [|e' es']; [exact Hna|].
  rewrite Join_cons by discriminate. now rewrite IsAbs_app.
Qed.

Lemma dotdot_or_plain_no_slash (es : list string) :
  forallb dotdot_or_plain es = true -> forallb no_slash es = true.
Proof.
  induction es as [|e es IH]; [reflexivity|]. cbn [forallb].
  intros [He Hes]%andb_true_iff. rewrite (IH Hes), andb_true_r.
  unfold dotdot_or_plain in He. apply orb_true_iff in He as [He|He].
  - apply String.eqb_eq in He. now subst e.
  - now apply plain_no_slash.
Qed.

Lemma forallb_rev {A} (f : A -> bool) (l : list A) :
  forallb f (rev l) = forallb f l.
Proof.
  induction l as [|x l IH]; [reflexivity|]. cbn [rev forallb].
  rewrite forallb_app, IH. cbn [forallb]. rewrite andb_true_r. apply andb_comm.
Qed.

Lemma plain_dotdot_or_plain (es : list string) :
  forallb plain es = true -> forallb dotdot_or_plain es = true.
Proof.
  induction es as [|e es IH]; [reflexivity|]. cbn [forallb].
  intros [He Hes]%andb_true_iff. rewrite (IH Hes), andb_true_r.
  unfold dotdot_or_plain. now rewrite He, orb_true_r.
Qed.

(** [Clean] does not change what a path resolves to. *)
Lemma resolve_Clean (home : list string) (p : string) :
  p <> "" -> Mem.resolve home (Filepath.Clean p) = Mem.resolve home p.
Proof.
  intros Hp. unfold Filepath.Clean. rewrite (eqb_empty_false _ Hp).
  unfold Filepath.elements.
  pose proof (Split_pieces p) as Hpieces.
  destruct (Filepath.IsAbs p) eqn:Habs.
  - set (T := fold_left (Filepath.clean_step true) (GoStrings.Split p "/") []).
    assert (HT : forallb plain (rev T) = true).
    { rewrite forallb_rev. subst T. now apply fold_rooted_plain. }
    unfold Mem.resolve. rewrite Habs. cbn iota.
    rewrite IsAbs_slash. cbn iota. f_equal.
    change ("/" +:+ GoStrings.Join (rev T) "/")
      with ("" +:+ String "/" (GoStrings.Join (rev T) "/")).
    fold (run [] ("" +:+ String "/" (GoStrings.Join (rev T) "/"))).
    rewrite run_app, run_empty, (run_Join_plain _ _ HT).
    now rewrite rev_involutive, app_nil_r.
  - set (T := fold_left (Filepath.clean_step false) (GoStrings.Split p "/") []).
    assert (HT : forallb dotdot_or_plain T = true)
      by (subst T; now apply fold_shape).
    assert (HrT : forallb dotdot_or_plain (rev T) = true)
      by now rewrite forallb_rev.
    pose proof (relative_fold (GoStrings.Split p "/") [] (rev home)
                  Hpieces eq_refl) as Hrel.
    cbn [rev fold_left] in Hrel. fold T in Hrel.
    unfold Mem.resolve at 2. rewrite Habs, Hrel.
    destruct (String.eqb (GoStrings.Join (rev T) "/") "") eqn:E.
    + apply String.eqb_eq in E.
      assert (HTe : rev T = []).
      { destruct (rev T) as [|e es] eqn:Er; [reflexivity|]. exfalso.
        cbn [forallb] in HrT. apply andb_true_iff in HrT as [He _].
        assert (e <> "").
        { unfold dotdot_or_plain in He. apply orb_true_iff in He as [He|He].
          - apply String.eqb_eq in He. now subst e.
          - intros ->. discriminate. }
        destruct es; [cbn in E; congruence|].
        rewrite Join_cons in E by discriminate. destruct e; [congruence|].
        discriminate. }
      rewrite HTe. reflexivity.
    + unfold Mem.resolve. rewrite (Join_first_not_abs _ HrT). f_equal.
      assert (Hne : rev T <> []).
      { intros Hn. rewrite Hn in E. discriminate. }
      now rewrite (Split_Join _ Hne (dotdot_or_plain_no_slash _ HrT)).
Qed.

End CleanFacts.

Section JoinFacts.

Lemma plain_nonempty (n : string) : plain n = true -> n <> "".
Proof. intros Hp ->. discriminate. Qed.

Lemma Join_nonempty (names : list string) :
  names <> [] -> forallb plain names = true -> GoStrings.Join names "/" <> "".
Proof.
  destruct names as [|n names]; [congruence|]. intros _. cbn [forallb].
  intros [Hn _]%andb_true_iff. pose proof (plain_nonempty _ Hn).
  destruct names; [assumption|]. rewrite Join_cons by discriminate.
  destruct n; [congruence | discriminate].
Qed.

(** [filepath.Join] of names is the names with separators between. *)
Lemma Filepath_Join_plain (names : list string) :
  names <> [] -> forallb plain names = true ->
  Filepath.Join names = GoStrings.Join names "/".
Proof.
  intros Hne Hp. destruct names as [|n names]; [congruence|].
  pose proof Hp as Hp'. cbn [forallb] in Hp'.
  apply andb_true_iff in Hp' as [Hn _].
  cbn [Filepath.Join]. rewrite (eqb_empty_false _ (plain_nonempty _ Hn)).
  unfold Filepath.Clean.
  rewrite (eqb_empty_false _ (Join_nonempty _ Hne Hp)).
  rewrite (Join_first_not_abs _ (plain_dotdot_or_plain _ Hp)).
  unfold Filepath.elements.
  rewrite (Split_Join _ Hne (forallb_plain_no_slash _ Hp)).
  rewrite (plain_fold _ _ _ Hp), app_nil_r, rev_involutive.
  now rewrite (eqb_empty_false _ (Join_nonempty _ Hne Hp)).
Qed.

Lemma run_Filepath_Join (S names : list string) :
  forallb plain names = true -> run S (Filepath.Join names) = rev names ++ S.
Proof.
  intros Hp. destruct names as [|n names]; [reflexivity|].
  rewrite Filepath_Join_plain by (discriminate || exact Hp).
  now apply run_Join_plain.
Qed.

Lemma resolve_as_run (home : list string) (p : string) :
  Mem.resolve home p
  = rev (run (if Filepath.IsAbs p then [] else rev home) p).
Proof. reflexivity. Qed.

Lemma resolve_empty (home : list string) : Mem.resolve home "" = home.
Proof. unfold Mem.resolve. cbn. apply rev_involutive. Qed.

(** What the destination path of an entry resolves to: the destination
    directory, then the stack, then the name. *)
Lemma resolve_Join3 (home : list string) (root : string) (dirs : list string)
      (b : string) :
  forallb plain dirs = true -> plain b = true ->
  Mem.resolve home (Filepath.Join [root; Filepath.Join dirs; b])
  = Mem.resolve home root ++ dirs ++ [b].
Proof.
  intros Hd Hb. pose proof (plain_nonempty _ Hb) as Hbne.
  assert (Hcur : forall S, run S (Filepath.Join dirs) = rev dirs ++ S)
    by (intros S; now apply run_Filepath_Join).
  destruct (String.eqb root "") eqn:Er.
  - apply String.eqb_eq in Er. subst root. rewrite resolve_empty.
    cbn [Filepath.Join String.eqb].
    destruct (String.eqb (Filepath.Join dirs) "") eqn:Ec.
    + rewrite (eqb_empty_false _ Hbne). cbn [GoStrings.Join].
      rewrite resolve_Clean by exact Hbne.
      apply String.eqb_eq in Ec.
      assert (dirs = []).
      { destruct dirs as [|d ds]; [reflexivity|]. exfalso.
        rewrite Filepath_Join_plain in Ec by (discriminate || exact Hd).
        now apply (Join_nonempty (d :: ds)). }
      subst dirs. rewrite resolve_as_run, (plain_not_abs _ Hb), (run_plain _ _ Hb).
      cbn [rev app]. now rewrite rev_involutive.
    + apply String.eqb_neq in Ec.
      assert (Hdne : dirs <> []) by (intros ->; now apply Ec).
      change (GoStrings.Join [Filepath.Join dirs; b] "/")
        with (Filepath.Join dirs +:+ String "/" b).
      rewrite resolve_Clean by (destruct (Filepath.Join dirs); [congruence|discriminate]).
      rewrite resolve_as_run, IsAbs_app by exact Ec.
      rewrite Filepath_Join_plain at 1 by assumption.
      rewrite (Join_first_not_abs _ (plain_dotdot_or_plain _ Hd)).
      rewrite run_app, Hcur, (run_plain _ _ Hb).
      cbn [rev]. rewrite rev_app_distr, !rev_involutive. now rewrite <- app_assoc.
  - apply String.eqb_neq in Er.
    cbn [Filepath.Join]. rewrite (eqb_empty_false _ Er).
    change (GoStrings.Join [root; Filepath.Join dirs; b] "/")
      with (root +:+ String "/" (Filepath.Join dirs +:+ String "/" b)).
    rewrite resolve_Clean by (destruct root; [congruence|discriminate]).
    rewrite !resolve_as_run, IsAbs_app by exact Er.
    rewrite !run_app, Hcur, (run_plain _ _ Hb).
    cbn [rev]. rewrite rev_app_distr, rev_involutive. now rewrite <- app_assoc.
Qed.

Lemma strip_no_slash (n : string) :
  n <> "" -> no_slash n = true -> Filepath.strip_trailing_slashes n = n.
Proof.
  induction n as [|ch n IH]; intros Hne Hn; [congruence|].
  cbn [no_slash] in Hn. apply andb_true_iff in Hn as [Hc Hn].
  apply negb_true_iff in Hc. cbn [Filepath.strip_trailing_slashes].
  destruct n as [|ch' n'].
  - cbn. now rewrite Hc.
  - rewrite IH by (discriminate || exact Hn). reflexivity.
Qed.

Lemma strip_app (a n : string) :
  n <> "" -> no_slash n = true ->
  Filepath.strip_trailing_slashes (a +:+ n) = a +:+ n.
Proof.
  intros Hne Hn. induction a as [|ch a IH].
  - now apply strip_no_slash.
  - rewrite app_cons. cbn [Filepath.strip_trailing_slashes]. rewrite IH.
    destruct (a +:+ n) eqn:E; [|reflexivity].
    destruct a; [cbn in E; congruence | discriminate].
Qed.

Lemma last_app_singleton {A} (l : list A) (x d : A) : List.last (l ++ [x]) d = x.
Proof. induction l as [|y l IH]; [reflexivity|]. cbn [app].
  destruct (l ++ [x]) eqn:E; [now destruct l | exact IH]. Qed.

Lemma Base_plain (n : string) : plain n = true -> Filepath.Base n = n.
Proof.
  intros Hp. pose proof (plain_nonempty _ Hp) as Hne.
  pose proof (plain_no_slash _ Hp) as Hn.
  unfold Filepath.Base. rewrite (eqb_empty_false _ Hne).
  rewrite (strip_no_slash _ Hne Hn). unfold Filepath.last_element.
  rewrite (Split_no_slash _ Hn). cbn [List.last].
  now rewrite (eqb_empty_false _ Hne).
Qed.

Lemma Base_slash_plain (a n : string) :
  plain n = true -> Filepath.Base (a +:+ String "/" n) = n.
Proof.
  intros Hp. pose proof (plain_nonempty _ Hp) as Hne.
  pose proof (plain_no_slash _ Hp) as Hn.
  unfold Filepath.Base.
  assert (Hx : a +:+ String "/" n <> "") by (destruct a; discriminate).
  rewrite (eqb_empty_false _ Hx).
  replace (a +:+ String "/" n) with ((a +:+ "/") +:+ n)
    by (now rewrite app_assoc_str).
  rewrite (strip_app _ _ Hne Hn). rewrite app_assoc_str.
  change ("/" +:+ n) with (String "/" n).
  unfold Filepath.last_element. rewrite Split_app, (Split_no_slash _ Hn).
  rewrite last_app_singleton. now rewrite (eqb_empty_false _ Hne).
Qed.

Lemma Join_snoc (es : list string) (n : string) :
  es <> [] ->
  GoStrings.Join (es ++ [n]) "/" = GoStrings.Join es "/" +:+ String "/" n.
Proof.
  induction es as [|e es IH]; intros Hne; [congruence|].
  destruct es as [|e' es'].
  - reflexivity.
  - cbn [app]. rewrite Join_cons by discriminate.
    rewrite (Join_cons e (e' :: es')) by discriminate.
    change ((e' :: es') ++ [n]) with ((e' :: es') ++ [n]) in IH.
    cbn [app] in IH. rewrite IH by discriminate.
    now rewrite !app_assoc_str.
Qed.

(** The name of an entry of a directory is the base of its path. *)
Lemma Base_Join (p n : string) :
  plain n = true -> Filepath.Base (Filepath.Join [p; n]) = n.
Proof.
  intros Hp. pose proof (plain_nonempty _ Hp) as Hne.
  cbn [Filepath.Join].
  assert (Hclean : forall x : string, x <> "" ->
            forall r, Filepath.elements r (x +:+ String "/" n)
                      = Filepath.elements r x ++ [n]).
  { intros x _ r. unfold Filepath.elements.
    rewrite Split_app, (Split_no_slash _ (plain_no_slash _ Hp)).
    rewrite fold_left_app. cbn [fold_left]. now rewrite (plain_step _ _ _ Hp). }
  destruct (String.eqb p "") eqn:Ep.
  - rewrite (eqb_empty_false _ Hne). cbn [GoStrings.Join].
    unfold Filepath.Clean. rewrite (eqb_empty_false _ Hne).
    rewrite (plain_not_abs _ Hp). unfold Filepath.elements.
    rewrite (Split_no_slash _ (plain_no_slash _ Hp)). cbn [fold_left].
    rewrite (plain_step _ _ _ Hp). cbn [rev app GoStrings.Join].
    rewrite (eqb_empty_false _ Hne). now apply Base_plain.
  - apply String.eqb_neq in Ep.
    change (GoStrings.Join [p; n] "/") with (p +:+ String "/" n).
    unfold Filepath.Clean.
    rewrite (eqb_empty_false (p +:+ String "/" n))
      by (destruct p; discriminate).
    rewrite (Hclean p Ep).
    set (es := Filepath.elements (Filepath.IsAbs (p +:+ String "/" n)) p).
    assert (Hbody : GoStrings.Join (es ++ [n]) "/" = n
                    \/ exists a, GoStrings.Join (es ++ [n]) "/"
                                 = a +:+ String "/" n).
    { destruct es as [|e es']; [now left|]. right.
      exists (GoStrings.Join (e :: es') "/"). now apply Join_snoc. }
    destruct (Filepath.IsAbs (p +:+ String "/" n)).
    + destruct Hbody as [-> | [a ->]].
      * now apply (Base_slash_plain "").
      * change ("/" +:+ a +:+ String "/" n) with (("/" +:+ a) +:+ String "/" n).
        now apply Base_slash_plain.
    + destruct Hbody as [-> | [a ->]].
      * rewrite (eqb_empty_false _ Hne). now apply Base_plain.
      * rewrite (eqb_empty_false (a +:+ String "/" n))
          by (destruct a; discriminate).
        now apply Base_slash_plain.
Qed.

End JoinFacts.

(** ** The walk as a list of visits *)

Section WalkFacts.
Context {H : Type} `{Remote H}.

Lemma bind_eq {A B} (m : M H A) (k : A -> M H B) (w : World H) :
  bind m k w = match m w with
               | (Ok a, w') => k a w'
               | (Panic p, w') => (Panic p, w')
               end.
Proof. reflexivity. Qed.

Lemma lnode_induction (P : lnode -> Prop) :
  (forall data, P (LFile data)) ->
  (forall es, Forall (fun e => P (snd e)) es -> P (LDir es)) ->
  forall d, P d.
Proof.
  intros Hf Hd. fix IH 1. intros [data|es]; [apply Hf|].
  apply Hd. induction es as [|[n d] es IHes]; constructor; [apply IH | exact IHes].
Qed.

Lemma run_visits_app {S} (fn : WalkFunc (H:=H) S) (a b : list (string * lnode))
      (s : S) (w : World H) :
  run_visits fn (a ++ b) s w
  = (r <- run_visits fn a s ;;
     match fst r with
     | Some e => ret (Some e, snd r)
     | None => run_visits fn b (snd r)
     end) w.
Proof.
  revert s w; induction a as [|[p d] a IH]; intros s w.
  - reflexivity.
  - cbn [app run_visits]. unfold bind at 1 2 3.
    destruct (fn p (Some d) None s w) as [[[oe s1]|pn] w1]; [|reflexivity].
    cbn [fst snd]. destruct oe as [e|]; [reflexivity|].
    rewrite IH. reflexivity.
Qed.

(** [filepath.walkDir] calls the callback on the visits of [flatten], in
    order, up to the first error. *)
Lemma walkDir_flatten {S} (fn : WalkFunc (H:=H) S) (d : lnode) :
  forall path s w, walkDir fn path d s w = run_visits fn (flatten path d) s w.
Proof.
  induction d as [data|es IHes] using lnode_induction; intros path s w.
  - cbn [walkDir flatten run_visits]. unfold bind.
    destruct (fn path (Some (LFile data)) None s w) as [[[oe s1]|pn] w1];
      [|reflexivity].
    cbn [fst snd]. now destruct oe.
  - cbn [walkDir flatten run_visits]. unfold bind at 1. unfold bind at 2.
    destruct (fn path (Some (LDir es)) None s w) as [[[oe s1]|pn] w1];
      [|reflexivity].
    cbn [fst snd]. destruct oe as [e|]; [reflexivity|].
    clear w s. revert s1 w1.
    induction IHes as [|[n d1] es' Hd1 _ IHl]; intros s1 w1; [reflexivity|].
    rewrite run_visits_app. unfold bind at 1. unfold bind at 2.
    cbn [snd] in Hd1. rewrite Hd1.
    destruct (run_visits fn (flatten (Filepath.Join [path; n]) d1) s1 w1)
      as [[[oe s2]|pn] w2]; [|reflexivity].
    cbn [fst snd]. destruct oe as [e|]; [reflexivity|]. apply IHl.
Qed.

Lemma WalkDir_visit_eq {T} (dstDir : string) (fn : WalkDirFunc (H:=H) T)
      (p : string) (d : lnode) (err : option error) (dirs : list string) (t : T) :
  WalkDir_visit dstDir fn p (Some d) err (dirs, t)
  = (r <- fn p (dst_for dstDir dirs p) d err t ;;
     ret (fst r, (if IsDir d then dirs_for dirs p ++ [Filepath.Base p]
                  else dirs_for dirs p, snd r))).
Proof.
  unfold WalkDir_visit, dst_for, dirs_for. cbn [fst snd].
  destruct (negb (HasSuffix _ (Filepath.Join dirs))); reflexivity.
Qed.

(** The callback of [Client.WalkDir] is called on the entries of
    [remote_entries]. *)
Lemma run_visits_WalkDir_visit {T} (dstDir : string) (fn : WalkDirFunc (H:=H) T)
      (vs : list (string * lnode)) :
  forall dirs t w,
    (r <- run_visits (WalkDir_visit dstDir fn) vs (dirs, t) ;;
     ret (fst r, snd (snd r))) w
    = run_entries fn (remote_entries dstDir dirs vs) t w.
Proof.
  induction vs as [|[p d] vs IH]; intros dirs t w; [reflexivity|].
  cbn [run_visits remote_entries run_entries].
  rewrite WalkDir_visit_eq. rewrite !bind_eq.
  destruct (fn p (dst_for dstDir dirs p) d None t w) as [[[oe t1]|pn] w1];
    [|reflexivity].
  cbn [fst snd ret]. destruct oe as [e|]; [reflexivity|].
  specialize (IH (if IsDir d then dirs_for dirs p ++ [Filepath.Base p]
                  else dirs_for dirs p) t1 w1).
  rewrite bind_eq in IH. exact IH.
Qed.

Lemma Client_WalkDir_entries {T} (srcPath dstDir : string) (fn : WalkDirFunc (H:=H) T)
      (t : T) (w : World H) (d : lnode) :
  localfs w srcPath = Some d ->
  Client_WalkDir srcPath dstDir fn t w
  = run_entries fn (walk_entries w srcPath dstDir) t w.
Proof.
  intros Hl. unfold Client_WalkDir, walk_entries, filepath_WalkDir. rewrite Hl.
  rewrite <- run_visits_WalkDir_visit.
  rewrite !bind_eq. unfold Lstat. rewrite Hl.
  now rewrite walkDir_flatten.
Qed.

End WalkFacts.

(** ** Copying and deleting on the host in memory *)

Section MemRuns.

Lemma ConnectSftpClient_mem (w : World MemHost) :
  exists w0, ConnectSftpClient w = (Ok None, w0)
             /\ mem_step w w0 (rfs (host w)).
Proof.
  unfold ConnectSftpClient, bind, get_client, mem_step.
  destruct (SftClient (client w)) eqn:E.
  - exists w. now repeat split.
  - eexists. split; [reflexivity|]. now repeat split.
Qed.

Lemma CopyFile_visit_mem (lp rp : string) (d : lnode) (w : World MemHost) :
  SftClient (client w) = true ->
  exists w',
    CopyFile_visit lp rp d None tt w
    = (Ok (fst (copy_step (Mem.resolve (rhome (host w)) rp, d) (rfs (host w))),
           tt), w')
    /\ mem_step w w'
         (snd (copy_step (Mem.resolve (rhome (host w)) rp, d) (rfs (host w)))).
Proof.
  intros Hs. unfold CopyFile_visit, copy_step, with_SftClient, mem_step.
  cbn [fst snd]. destruct d as [data|es].
  - rewrite !bind_eq. unfold get_client at 1. rewrite Hs.
    unfold request_host at 1. cbn [SftpCreate MemHost_Remote Mem.lift host].
    destruct (Mem.create (Mem.resolve (rhome (host w)) rp) (rfs (host w)))
      as [[e|] fs1] eqn:Ec; cbn [fst snd].
    + eexists. split; [reflexivity|]. now repeat split.
    + rewrite bind_eq. unfold request_host.
      cbn [SftpWrite MemHost_Remote Mem.lift host rfs rhome fst snd].
      eexists. split; [reflexivity|]. now repeat split.
  - rewrite !bind_eq. unfold get_client at 1. rewrite Hs.
    unfold request_host. cbn [SftpMkdirAll MemHost_Remote Mem.lift host].
    eexists. split; [reflexivity|]. now repeat split.
Qed.

Lemma mem_step_trans (w w1 w2 : World MemHost) (fs1 fs2 : gmap (list string) rnode) :
  mem_step w w1 fs1 -> mem_step w1 w2 fs2 -> mem_step w w2 fs2.
Proof.
  unfold mem_step. intros (_ & Hh & Hl & _) (Hf & Hh2 & Hl2 & Hs).
  repeat split; congruence.
Qed.

Lemma run_copy_entries (es : list (string * string * lnode)) :
  forall w : World MemHost,
    SftClient (client w) = true ->
    exists w',
      run_entries CopyFile_visit es tt w
      = (Ok (fst (copy_all (resolved (rhome (host w)) es) (rfs (host w))), tt), w')
      /\ mem_step w w'
           (snd (copy_all (resolved (rhome (host w)) es) (rfs (host w)))).
Proof.
  induction es as [|[[lp rp] d] es IH]; intros w Hs.
  - exists w. split; [reflexivity|]. now repeat split.
  - cbn [run_entries resolved map copy_all fst snd]. rewrite bind_eq.
    destruct (CopyFile_visit_mem lp rp d w Hs) as (w1 & -> & Hstep).
    cbn [fst snd].
    destruct (copy_step (Mem.resolve (rhome (host w)) rp, d) (rfs (host w)))
      as [[e|] fs1] eqn:Ec; cbn [fst snd] in *.
    + exists w1. split; [reflexivity | exact Hstep].
    + pose proof Hstep as (Hf & Hh & Hl & Hs1).
      destruct (IH w1 Hs1) as (w2 & Hrun & Hstep2).
      rewrite Hh, Hf in Hrun, Hstep2. fold (resolved (rhome (host w)) es).
      exists w2. split; [exact Hrun|]. eapply mem_step_trans; eassumption.
Qed.

(** [CopyFile] on the host in memory is [copy_all] on its files. *)
Lemma CopyFile_mem (s : Service) (path root : string) (w : World MemHost)
      (d : lnode) :
  localfs w path = Some d ->
  let es := resolved (rhome (host w)) (walk_entries w path root) in
  exists w',
    CopyFile s path root w = (Ok (fst (copy_all es (rfs (host w)))), w')
    /\ mem_step w w' (snd (copy_all es (rfs (host w)))).
Proof.
  intros Hl es. unfold CopyFile. rewrite bind_eq.
  destruct (ConnectSftpClient_mem w) as (w0 & -> & (Hf & Hh & Hl0 & Hs)).
  rewrite bind_eq.
  assert (Hl' : localfs w0 path = Some d) by congruence.
  rewrite (Client_WalkDir_entries path root _ tt w0 d Hl').
  destruct (run_copy_entries (walk_entries w0 path root) w0 Hs)
    as (w1 & -> & Hstep).
  assert (Hes : walk_entries w0 path root = walk_entries w path root).
  { unfold walk_entries. now rewrite Hl0. }
  rewrite Hes, Hh, Hf in *. fold es in Hstep |- *.
  exists w1. split; [reflexivity|].
  eapply mem_step_trans; [|exact Hstep]. now repeat split.
Qed.

End MemRuns.

Section MemDeleteRuns.

Lemma dir_paths_resolved (home : list string) (es : list (string * string * lnode)) :
  dir_paths (resolved home es) = map (Mem.resolve home) (raw_dirs es).
Proof.
  unfold dir_paths, raw_dirs, resolved.
  induction es as [|[[lp rp] d] es IH]; [reflexivity|].
  cbn [map]. rewrite !filter_cons. cbn [snd fst].
  destruct (decide (IsDir d = true)); cbn [map fst snd]; now rewrite IH.
Qed.

Lemma DeleteFile_visit_mem (lp rp : string) (d : lnode) (dirs : list string)
      (w : World MemHost) :
  SftClient (client w) = true ->
  exists w',
    DeleteFile_visit lp rp d None dirs w
    = (Ok (None, if IsDir d then dirs ++ [rp] else dirs), w')
    /\ mem_step w w'
         (delete_step (rfs (host w)) (Mem.resolve (rhome (host w)) rp, d)).
Proof.
  intros Hs. unfold DeleteFile_visit, delete_step, with_SftClient, mem_step.
  cbn [fst snd]. destruct d as [data|es]; cbn [IsDir].
  - rewrite !bind_eq. unfold get_client at 1. rewrite Hs.
    unfold request_host. cbn [SftpRemove MemHost_Remote Mem.lift host].
    eexists. split; [reflexivity|]. now repeat split.
  - exists w. split; [reflexivity|]. now repeat split.
Qed.

Lemma run_delete_entries (es : list (string * string * lnode)) :
  forall (dirs : list string) (w : World MemHost),
    SftClient (client w) = true ->
    exists w',
      run_entries DeleteFile_visit es dirs w
      = (Ok (None, dirs ++ raw_dirs es), w')
      /\ mem_step w w'
           (fold_left delete_step (resolved (rhome (host w)) es) (rfs (host w))).
Proof.
  induction es as [|[[lp rp] d] es IH]; intros dirs w Hs.
  - exists w. cbn [run_entries]. unfold raw_dirs. cbn. rewrite app_nil_r.
    split; [reflexivity|]. now repeat split.
  - cbn [run_entries resolved map fold_left fst snd]. rewrite bind_eq.
    destruct (DeleteFile_visit_mem lp rp d dirs w Hs) as (w1 & -> & Hstep).
    cbn [fst snd]. pose proof Hstep as (Hf & Hh & Hl & Hs1).
    destruct (IH (if IsDir d then dirs ++ [rp] else dirs) w1 Hs1)
      as (w2 & Hrun & Hstep2).
    rewrite Hh, Hf in Hstep2. fold (resolved (rhome (host w)) es).
    exists w2. split; [|eapply mem_step_trans; eassumption].
    rewrite Hrun. unfold raw_dirs. rewrite filter_cons. cbn [snd fst].
    destruct d; cbn [IsDir].
    + destruct (decide (false = true)); [discriminate|]. reflexivity.
    + destruct (decide (true = true)); [|congruence].
      cbn [map fst snd]. now rewrite <- app_assoc.
Qed.

Lemma remove_directories_mem (l : list string) :
  forall w : World MemHost,
    SftClient (client w) = true ->
    exists w',
      remove_directories l w = (Ok tt, w')
      /\ mem_step w w'
           (remove_dirs (map (Mem.resolve (rhome (host w))) l) (rfs (host w))).
Proof.
  induction l as [|dir l IH]; intros w Hs.
  - exists w. split; [reflexivity|]. now repeat split.
  - cbn [remove_directories map]. unfold remove_dirs. cbn [fold_left].
    rewrite bind_eq. unfold with_SftClient. rewrite bind_eq.
    unfold get_client at 1. rewrite Hs. unfold request_host at 1.
    cbn [SftpRemoveDirectory MemHost_Remote Mem.lift host fst snd].
    match goal with
    | |- context [remove_directories l ?w1] =>
        destruct (IH w1 Hs) as (w2 & -> & Hstep2)
    end.
    cbn [host rfs rhome] in Hstep2.
    exists w2. split; [reflexivity|].
    destruct Hstep2 as (Hf & Hh & Hl & Hs2). now repeat split.
Qed.

(** [DeleteFile] on the host in memory is [delete_all] on its files; it
    returns no error. *)
Lemma DeleteFile_mem (s : Service) (path root : string) (w : World MemHost)
      (d : lnode) :
  localfs w path = Some d ->
  let es := resolved (rhome (host w)) (walk_entries w path root) in
  exists w',
    DeleteFile s path root w = (Ok None, w')
    /\ mem_step w w' (delete_all es (rfs (host w))).
Proof.
  intros Hl es. unfold DeleteFile. rewrite bind_eq.
  destruct (ConnectSftpClient_mem w) as (w0 & -> & (Hf & Hh & Hl0 & Hs)).
  rewrite bind_eq.
  assert (Hl' : localfs w0 path = Some d) by congruence.
  rewrite (Client_WalkDir_entries path root _ [] w0 d Hl').
  destruct (run_delete_entries (walk_entries w0 path root) [] w0 Hs)
    as (w1 & -> & Hstep).
  assert (Hes : walk_entries w0 path root = walk_entries w path root).
  { unfold walk_entries. now rewrite Hl0. }
  rewrite Hes, Hh, Hf in *. fold es in Hstep.
  cbn [fst snd app]. rewrite bind_eq.
  pose proof Hstep as (Hf1 & Hh1 & Hl1 & Hs1).
  destruct (remove_directories_mem (rev (raw_dirs (walk_entries w path root)))
              w1 Hs1) as (w2 & -> & Hstep2).
  exists w2. split; [reflexivity|].
  rewrite Hh1, Hh, Hf1, map_rev, <- dir_paths_resolved in Hstep2.
  fold es in Hstep2. fold (delete_all es (rfs (host w))) in Hstep2.
  eapply mem_step_trans; [|exact Hstep2].
  eapply mem_step_trans; [|exact Hstep]. now repeat split.
Qed.

End MemDeleteRuns.

(** ** Where the visits land *)

Section ChainFacts.

Lemma plain_tree_entries (es : list (string * lnode)) :
  plain_tree (LDir es) = true ->
  Forall (fun e => plain (fst e) = true /\ plain_tree (snd e) = true) es.
Proof.
  cbn [plain_tree]. induction es as [|[n d] es IH]; intros Hp; constructor.
  - apply andb_true_iff in Hp as [Hp _]. now apply andb_true_iff in Hp.
  - apply IH. now apply andb_true_iff in Hp as [_ Hp].
Qed.

(** In a tree of plain names every visited path ends in the name of its
    entry. *)
Lemma flatten_Base (d : lnode) :
  forall path,
    plain_tree d = true -> plain (Filepath.Base path) = true ->
    Forall (fun v => plain (Filepath.Base (fst v)) = true) (flatten path d).
Proof.
  induction d as [data|es IHes] using lnode_induction; intros path Ht Hb.
  - repeat constructor. exact Hb.
  - cbn [flatten]. constructor; [exact Hb|].
    apply plain_tree_entries in Ht.
    induction IHes as [|[n d1] es' Hd1 _ IHl]; [constructor|].
    apply Forall_cons in Ht as [[Hn Hd] Ht]. cbn [fst snd] in *.
    apply Forall_app. split; [|now apply IHl].
    apply Hd1; [exact Hd|]. now rewrite Base_Join.
Qed.

Lemma dirs_for_cases (dirs : list string) (path : string) :
  dirs_for dirs path = dirs \/ dirs_for dirs path = removelast dirs.
Proof.
  unfold dirs_for. destruct (negb (HasSuffix _ _)); [|now left].
  destruct (0 <? length dirs)%nat; [now right | now left].
Qed.

Lemma forallb_removelast {A} (f : A -> bool) (l : list A) :
  forallb f l = true -> forallb f (removelast l) = true.
Proof.
  induction l as [|x l IH]; [reflexivity|]. cbn [forallb].
  intros [Hx Hl]%andb_true_iff. destruct l as [|y l']; [reflexivity|].
  cbn [removelast forallb]. rewrite Hx. cbn [andb]. now apply IH.
Qed.

Lemma stack_seen_removelast (D dirs : list string) (seen : list (list string)) :
  stack_seen D dirs seen -> stack_seen D (removelast dirs) seen.
Proof.
  intros Hs k Hk. rewrite removelast_firstn_len in *.
  rewrite length_take in Hk. rewrite take_take.
  replace (k `min` Init.Nat.pred (length dirs))%nat with k by lia.
  apply Hs. lia.
Qed.

Lemma removelast_snoc {A} (l : list A) (x : A) : removelast (l ++ [x]) = l.
Proof. apply removelast_last. Qed.

Lemma chained_remote_entries (home : list string) (root : string)
      (vs : list (string * lnode)) :
  forall dirs seen,
    Forall (fun v => plain (Filepath.Base (fst v)) = true) vs ->
    forallb plain dirs = true ->
    stack_seen (Mem.resolve home root) dirs seen ->
    chained (Mem.resolve home root) seen
            (resolved home (remote_entries root dirs vs)).
Proof.
  set (D := Mem.resolve home root).
  induction vs as [|[p d] vs IH]; intros dirs seen Hvs Hd Hs; [constructor|].
  apply Forall_cons in Hvs as [Hb Hvs]. cbn [fst] in Hb.
  cbn [remote_entries resolved map fst snd].
  assert (Hd1 : forallb plain (dirs_for dirs p) = true).
  { destruct (dirs_for_cases dirs p) as [-> | ->];
      [exact Hd | now apply forallb_removelast]. }
  assert (Hs1 : stack_seen D (dirs_for dirs p) seen).
  { destruct (dirs_for_cases dirs p) as [-> | ->];
      [exact Hs | now apply stack_seen_removelast]. }
  assert (Hq : Mem.resolve home (dst_for root dirs p)
               = D ++ dirs_for dirs p ++ [Filepath.Base p]).
  { unfold dst_for. now apply resolve_Join3. }
  rewrite Hq. constructor.
  - intros Hn. apply app_eq_nil in Hn as [_ Hn].
    now apply app_eq_nil in Hn as [_ Hn].
  - unfold Mem.parent. rewrite app_assoc, removelast_snoc.
    destruct (dirs_for dirs p) as [|x l] eqn:E.
    + left. apply app_nil_r.
    + right. specialize (Hs1 (length (x :: l))).
      rewrite firstn_all in Hs1. apply Hs1. cbn [length]. lia.
  - fold (resolved home
            (remote_entries root
               (if IsDir d then dirs_for dirs p ++ [Filepath.Base p]
                else dirs_for dirs p) vs)).
    destruct (IsDir d).
    + apply IH; [exact Hvs | |].
      * rewrite forallb_app, Hd1. cbn [forallb]. now rewrite Hb.
      * intros k Hk. rewrite length_app in Hk. cbn [length] in Hk.
        destruct (decide (k <= length (dirs_for dirs p))%nat) as [Hle|Hgt].
        -- rewrite take_app_le by exact Hle. right. apply Hs1. lia.
        -- rewrite take_ge by (rewrite length_app; cbn [length]; lia). left.
    + now apply IH.
Qed.

End ChainFacts.

(** ** The files of the host under copy and delete *)

Section FsFacts.
Implicit Types fs : gmap (list string) rnode.
Implicit Types q k : list string.

Lemma node_at_cons fs q : q <> [] -> Mem.node_at fs q = fs !! q.
Proof. destruct q; [congruence | reflexivity]. Qed.

Lemma parent_ne q : q <> [] -> Mem.parent q <> q.
Proof.
  intros Hq He. unfold Mem.parent in He.
  destruct (exists_last Hq) as (l & x & ->).
  rewrite removelast_last in He.
  apply (f_equal length) in He. rewrite length_app in He. cbn in He. lia.
Qed.

Lemma is_empty_dir_true fs q :
  Mem.is_empty_dir fs q = true ->
  forall k v, fs !! k = Some v -> ~ Mem.child_of q k.
Proof.
  unfold Mem.is_empty_dir. intros Hb%bool_decide_eq_true_1 k v Hk.
  exact (Hb k v Hk).
Qed.

Lemma is_empty_dir_false fs q :
  Mem.is_empty_dir fs q = false ->
  exists k v, fs !! k = Some v /\ Mem.child_of q k.
Proof.
  unfold Mem.is_empty_dir. intros Hb%bool_decide_eq_false_1.
  apply map_not_Forall in Hb; [|intros; apply _].
  destruct Hb as (k & v & Hk & Hc). exists k, v. split; [exact Hk|].
  destruct (decide (Mem.child_of q k)); [assumption | contradiction].
Qed.

Lemma mkdir_all_under_dir fs q :
  q <> [] -> Mem.node_at fs (Mem.parent q) = Some RDir ->
  Mem.mkdir_all q fs
  = match fs !! q with
    | Some RDir => (None, fs)
    | Some (RFile _) => (Some (ErrorString "mkdir: not a directory"), fs)
    | None => (None, <[q := RDir]> fs)
    end.
Proof.
  intros Hq Hp. unfold Mem.mkdir_all.
  destruct (rev q) as [|x rp] eqn:Er.
  { apply (f_equal (@rev _)) in Er. rewrite rev_involutive in Er. now subst q. }
  assert (Hqr : q = rev rp ++ [x]).
  { apply (f_equal (@rev _)) in Er. now rewrite rev_involutive in Er. }
  cbn [Mem.mkdir_all_rev]. rewrite <- Er, rev_involutive.
  rewrite (node_at_cons _ _ Hq).
  destruct (fs !! q) as [[data|]|] eqn:El; [reflexivity | reflexivity |].
  assert (Hpar : Mem.parent q = rev rp).
  { unfold Mem.parent. rewrite Hqr. apply removelast_last. }
  rewrite Hpar in Hp.
  destruct rp as [|y rp'].
  - cbn [Mem.mkdir_all_rev rev Mem.node_at]. unfold Mem.mkdir.
    rewrite (node_at_cons _ _ Hq), El, Hpar. reflexivity.
  - cbn [Mem.mkdir_all_rev]. rewrite Hp. unfold Mem.mkdir.
    rewrite (node_at_cons _ _ Hq), El, Hpar, Hp. reflexivity.
Qed.

Lemma create_write_under_dir fs q (data : string) :
  q <> [] -> Mem.node_at fs (Mem.parent q) = Some RDir ->
  copy_step (q, LFile data) fs
  = match fs !! q with
    | Some RDir => (Some Mem.failure, fs)
    | _ => (None, <[q := RFile data]> fs)
    end.
Proof.
  intros Hq Hp. unfold copy_step, Mem.create. cbn [fst snd].
  rewrite (node_at_cons _ _ Hq), Hp.
  destruct (fs !! q) as [[old|]|] eqn:El; [|reflexivity|];
    unfold Mem.write; rewrite lookup_insert_eq, insert_insert_eq; reflexivity.
Qed.

Lemma remove_directory_cases fs q :
  snd (Mem.remove_directory q fs)
  = match fs !! q with
    | Some RDir => if Mem.is_empty_dir fs q then delete q fs else fs
    | _ => fs
    end.
Proof.
  unfold Mem.remove_directory.
  destruct (fs !! q) as [[data|]|]; [reflexivity | | reflexivity].
  now destruct (Mem.is_empty_dir fs q).
Qed.

Lemma remove_cases fs q :
  snd (Mem.remove q fs)
  = match fs !! q with
    | Some (RFile _) => delete q fs
    | Some RDir => if Mem.is_empty_dir fs q then delete q fs else fs
    | None => fs
    end.
Proof.
  unfold Mem.remove.
  destruct (fs !! q) as [[data|]|] eqn:E; [reflexivity | |];
    rewrite remove_directory_cases, E; reflexivity.
Qed.

End FsFacts.

Section RoundTrip.
Implicit Types fs : gmap (list string) rnode.
Implicit Types q k : list string.
Variable fs0 : gmap (list string) rnode.
Variable D : list string.
Hypothesis fs0_tree : well_formed fs0.
Hypothesis D_is_dir : Mem.node_at fs0 D = Some RDir.

Lemma copy_inv_ext (Pd Pf Pd' Pf' : list string -> Prop) fs :
  (forall q, Pd q <-> Pd' q) -> (forall q, Pf q <-> Pf' q) ->
  copy_inv fs0 Pd Pf fs -> copy_inv fs0 Pd' Pf' fs.
Proof.
  intros Hd Hf (Ha & Hb & Hc & He & Hr). repeat split; intros.
  - now apply Ha.
  - now apply Hb, Hd.
  - now apply Hc, Hf.
  - destruct (He _ _ H) as [?|[?|?]]; [now left | right; left | right; right].
    + now apply Hd.
    + now apply Hf.
  - exact Hr.
Qed.

Lemma D_stays fs Pd Pf : copy_inv fs0 Pd Pf fs -> Mem.node_at fs D = Some RDir.
Proof.
  intros (Ha & _). destruct D as [|x l] eqn:E; [reflexivity|].
  cbn [Mem.node_at] in *. now apply Ha.
Qed.

Lemma copy_inv_dir fs Pd Pf q :
  q <> [] -> fs0 !! q = None -> copy_inv fs0 Pd Pf fs ->
  (fs !! q = Some RDir \/ fs !! q = None) ->
  copy_inv fs0 (fun x => x = q \/ Pd x) Pf
           (match fs !! q with Some RDir => fs | _ => <[q := RDir]> fs end).
Proof.
  intros Hq Hq0 (Ha & Hb & Hc & He & Hr) [Hl|Hl]; rewrite Hl.
  - repeat split; intros; try (now auto).
    + destruct H as [->|H]; [exact Hl | now apply Hb].
    + destruct (He _ _ H) as [?|[?|?]]; auto.
  - repeat split; intros.
    + rewrite lookup_insert_ne by congruence. now apply Ha.
    + destruct H as [->|H]; [apply lookup_insert_eq|].
      rewrite lookup_insert_ne; [now apply Hb|].
      intros <-. apply Hb in H. congruence.
    + rewrite lookup_insert_ne; [now apply Hc|].
      intros <-. apply Hc in H as [data H]. congruence.
    + destruct (decide (q = k)) as [<-|Hne]; [now right; left; left|].
      rewrite lookup_insert_ne in H by exact Hne.
      destruct (He _ _ H) as [?|[?|?]]; auto.
    + rewrite lookup_insert_ne by congruence. exact Hr.
Qed.

Lemma copy_inv_file fs Pd Pf q (data : string) :
  q <> [] -> fs0 !! q = None -> copy_inv fs0 Pd Pf fs ->
  fs !! q <> Some RDir ->
  copy_inv fs0 Pd (fun x => x = q \/ Pf x) (<[q := RFile data]> fs).
Proof.
  intros Hq Hq0 (Ha & Hb & Hc & He & Hr) Hl. repeat split; intros.
  - rewrite lookup_insert_ne by congruence. now apply Ha.
  - rewrite lookup_insert_ne; [now apply Hb|].
    intros <-. apply Hb in H. congruence.
  - destruct (decide (q = q0)) as [<-|Hne].
    + rewrite lookup_insert_eq. eauto.
    + rewrite lookup_insert_ne by exact Hne.
      destruct H as [->|H]; [congruence | now apply Hc].
  - destruct (decide (q = k)) as [<-|Hne]; [now right; right; left|].
    rewrite lookup_insert_ne in H by exact Hne.
    destruct (He _ _ H) as [?|[?|?]]; auto.
  - rewrite lookup_insert_ne by congruence. exact Hr.
Qed.

Lemma dir_paths_cons q (d : lnode) (es : list (list string * lnode)) :
  dir_paths ((q, d) :: es)
  = if IsDir d then q :: dir_paths es else dir_paths es.
Proof.
  unfold dir_paths. rewrite filter_cons. cbn [snd].
  destruct (IsDir d); [destruct (decide (true = true)); [reflexivity|congruence]|].
  destruct (decide (false = true)); [discriminate | reflexivity].
Qed.

Lemma file_paths_cons q (d : lnode) (es : list (list string * lnode)) :
  file_paths ((q, d) :: es)
  = if IsDir d then file_paths es else q :: file_paths es.
Proof.
  unfold file_paths. rewrite filter_cons. cbn [snd].
  destruct (IsDir d); [destruct (decide (true = false)); [discriminate|reflexivity]|].
  destruct (decide (false = false)); [reflexivity | congruence].
Qed.

Lemma copy_all_inv (es : list (list string * lnode)) :
  forall seen (Pd Pf : list string -> Prop) fs,
    chained D seen es ->
    (forall q, q ∈ seen -> Pd q) ->
    (forall e, e ∈ es -> fs0 !! fst e = None) ->
    copy_inv fs0 Pd Pf fs ->
    fst (copy_all es fs) = None ->
    copy_inv fs0 (fun q => q ∈ dir_paths es \/ Pd q)
             (fun q => q ∈ file_paths es \/ Pf q)
             (snd (copy_all es fs)).
Proof.
  induction es as [|[q d] es IH]; intros seen Pd Pf fs Hch Hseen Habs Hinv Hok.
  - cbn [copy_all snd]. revert Hinv. apply copy_inv_ext; intros x;
      (split; [now right | intros [Hx|Hx]; [now apply elem_of_nil in Hx | exact Hx]]).
  - inversion Hch as [|seen' q' d' rest Hq Hpar Hrest]; subst.
    assert (Hq0 : fs0 !! q = None) by (apply (Habs (q, d)); left).
    assert (Habs' : forall e, e ∈ es -> fs0 !! fst e = None)
      by (intros e He; apply Habs; now right).
    assert (Hpdir : Mem.node_at fs (Mem.parent q) = Some RDir).
    { destruct Hpar as [-> | Hin]; [now apply (D_stays fs Pd Pf)|].
      pose proof Hinv as (_ & Hb & _ & _ & Hr).
      specialize (Hb _ (Hseen _ Hin)).
      rewrite node_at_cons; [exact Hb|]. intros He. rewrite He in Hb. congruence. }
    cbn [copy_all] in Hok |- *.
    destruct (copy_step (q, d) fs) as [[e|] fs1] eqn:Hstep; [discriminate|].
    rewrite dir_paths_cons, file_paths_cons.
    destruct d as [data|des]; cbn [IsDir] in *.
    + rewrite (create_write_under_dir _ _ _ Hq Hpdir) in Hstep.
      assert (Hnd : fs !! q <> Some RDir).
      { intros Hl. rewrite Hl in Hstep. discriminate. }
      assert (Hfs1 : fs1 = <[q := RFile data]> fs).
      { destruct (fs !! q) as [[old|]|]; try congruence. }
      subst fs1.
      pose proof (copy_inv_file fs Pd Pf q data Hq Hq0 Hinv Hnd) as Hinv1.
      pose proof (IH seen Pd _ _ Hrest Hseen Habs' Hinv1 Hok) as Hfin.
      revert Hfin. apply copy_inv_ext; intros x; [reflexivity|].
      rewrite elem_of_cons. tauto.
    + unfold copy_step in Hstep. cbn [fst snd] in Hstep.
      rewrite (mkdir_all_under_dir _ _ Hq Hpdir) in Hstep.
      assert (Hl : fs !! q = Some RDir \/ fs !! q = None).
      { destruct (fs !! q) as [[old|]|]; [discriminate | now left | now right]. }
      assert (Hfs1 : fs1 = match fs !! q with
                           | Some RDir => fs
                           | _ => <[q := RDir]> fs
                           end).
      { destruct (fs !! q) as [[old|]|]; congruence. }
      pose proof (copy_inv_dir fs Pd Pf q Hq Hq0 Hinv Hl) as Hinv1.
      rewrite <- Hfs1 in Hinv1.
      assert (Hseen1 : forall x, x ∈ q :: seen -> x = q \/ Pd x).
      { intros x [->|Hx]%elem_of_cons; [now left | right; now apply Hseen]. }
      pose proof (IH (q :: seen) _ Pf _ Hrest Hseen1 Habs' Hinv1 Hok) as Hfin.
      revert Hfin. apply copy_inv_ext; intros x; [|reflexivity].
      rewrite elem_of_cons. tauto.
Qed.

Lemma delete_files_inv (fs1 : gmap (list string) rnode)
      (es : list (list string * lnode)) :
  forall (gone : list string -> Prop) fs,
    (forall q, q ∈ file_paths es -> exists data, fs1 !! q = Some (RFile data)) ->
    del_inv fs1 gone fs ->
    del_inv fs1 (fun k => k ∈ file_paths es \/ gone k)
            (fold_left delete_step es fs).
Proof.
  induction es as [|[q d] es IH]; intros gone fs Hfiles (Hg & Hk).
  - cbn [fold_left]. split; intros k.
    + intros [Hx|Hx]; [now apply elem_of_nil in Hx | now apply Hg].
    + intros Hn. apply Hk. intros Hx. apply Hn. now right.
  - cbn [fold_left]. rewrite file_paths_cons in *.
    destruct d as [data|des]; cbn [IsDir] in *.
    + unfold delete_step at 2. cbn [fst snd]. rewrite remove_cases.
      assert (Hq1 : exists data1, fs1 !! q = Some (RFile data1))
        by (apply Hfiles; left).
      assert (Hfiles' : forall x, x ∈ file_paths es ->
                                  exists data1, fs1 !! x = Some (RFile data1))
        by (intros x Hx; apply Hfiles; now right).
      assert (Hext : forall (fs' : gmap (list string) rnode),
                 del_inv fs1 (fun k => k = q \/ gone k) fs' ->
                 del_inv fs1 (fun k => k ∈ q :: file_paths es \/ gone k)
                         (fold_left delete_step es fs')).
      { intros fs' Hinv'. destruct (IH _ _ Hfiles' Hinv') as (Hg' & Hk').
        split; intros k.
        - intros [[->|Hx]%elem_of_cons|Hx]; apply Hg'; tauto.
        - intros Hn. apply Hk'. intros [Hx|[->|Hx]]; apply Hn;
            [left; now right | left; now left | now right]. }
      apply Hext.
      destruct (fs !! q) as [[old|]|] eqn:El.
      * split; intros k.
        -- intros [->|Hx]; [apply lookup_delete_eq|].
           destruct (decide (q = k)) as [<-|Hne]; [apply lookup_delete_eq|].
           rewrite lookup_delete_ne by exact Hne. now apply Hg.
        -- intros Hn. rewrite lookup_delete_ne by (intros <-; apply Hn; now left).
           apply Hk. intros Hx. apply Hn. now right.
      * exfalso. destruct Hq1 as [data1 Hq1].
        assert (Hng : ~ gone q) by (intros Hx; apply Hg in Hx; congruence).
        rewrite (Hk _ Hng) in El. congruence.
      * split; intros k.
        -- intros [->|Hx]; [exact El | now apply Hg].
        -- intros Hn. apply Hk. intros Hx. apply Hn. now right.
    + unfold delete_step at 2. cbn [fst snd]. now apply IH.
Qed.

Lemma remove_dirs_restore (L : list (list string)) :
  forall (A : list (list string)) fs,
    rm_inv fs0 A fs ->
    (forall q, q ∈ A -> q ∈ L) ->
    (forall q, q ∈ L -> fs0 !! q = None) ->
    under_earlier D L ->
    remove_dirs (rev L) fs = fs0.
Proof.
  induction L as [|q L IH] using rev_ind; intros A fs (HA & Hrest) Hsub Habs Hue.
  - cbn. apply map_eq. intros k. apply Hrest. intros Hk.
    apply Hsub in Hk. now apply elem_of_nil in Hk.
  - rewrite rev_app_distr. cbn [rev app]. unfold remove_dirs. cbn [fold_left].
    fold (remove_dirs (rev L) (snd (Mem.remove_directory q fs))).
    assert (Habs' : forall x, x ∈ L -> fs0 !! x = None).
    { intros x Hx. apply Habs. apply elem_of_app. now left. }
    assert (Hue' : under_earlier D L).
    { intros L1 k L2 ->. apply (Hue L1 k (L2 ++ [q])).
      now rewrite <- app_assoc. }
    assert (Hq0 : fs0 !! q = None).
    { apply Habs. apply elem_of_app. right. now left. }
    assert (Hqne : q <> []).
    { destruct (Hue L q []) as [Hqne _]; [reflexivity | exact Hqne]. }
    rewrite remove_directory_cases.
    assert (Hkeep : forall x, x ∈ A -> x <> q -> x ∈ L).
    { intros x Hx Hne. apply Hsub in Hx.
      apply elem_of_app in Hx as [Hx|Hx]; [exact Hx|].
      apply list_elem_of_singleton in Hx. congruence. }
    destruct (decide (q ∈ A)) as [HqA|HqA].
    + rewrite (HA _ HqA).
      destruct (Mem.is_empty_dir fs q) eqn:Hemp.
      * apply (IH (filter (fun x => x <> q) A)).
        -- split; intros x.
           ++ intros [Hne Hx]%list_elem_of_filter.
              rewrite lookup_delete_ne by congruence. now apply HA.
           ++ intros Hn. destruct (decide (q = x)) as [<-|Hne].
              ** rewrite lookup_delete_eq. now rewrite Hq0.
              ** rewrite lookup_delete_ne by exact Hne. apply Hrest.
                 intros Hx. apply Hn. apply list_elem_of_filter.
                 split; [congruence | exact Hx].
        -- intros x [Hne Hx]%list_elem_of_filter. now apply Hkeep.
        -- exact Habs'.
        -- exact Hue'.
      * apply (IH A); [now split | | exact Habs' | exact Hue'].
        intros x Hx. destruct (decide (x = q)) as [->|Hne];
          [|now apply Hkeep].
        (* [q] has an entry left: a directory visited after an earlier
           visit of [q] itself *)
        destruct (is_empty_dir_false _ _ Hemp) as (k & v & Hk & Hkq & Hpar).
        assert (HkA : k ∈ A).
        { destruct (decide (k ∈ A)) as [Hin|Hout]; [exact Hin|]. exfalso.
          rewrite (Hrest _ Hout) in Hk.
          destruct (fs0_tree _ _ Hk) as [_ Hp]. rewrite Hpar in Hp.
          rewrite (node_at_cons _ _ Hqne) in Hp. congruence. }
        assert (HkL : k ∈ L).
        { apply Hkeep; [exact HkA|]. intros ->.
          now apply (parent_ne q). }
        apply list_elem_of_split in HkL as (L1 & L2 & ->).
        destruct (Hue' L1 k L2 eq_refl) as [_ [HpD | Hp1]].
        -- exfalso. rewrite Hpar in HpD.
           pose proof D_is_dir as HD. rewrite <- HpD in HD.
           rewrite (node_at_cons _ _ Hqne) in HD. congruence.
        -- rewrite Hpar in Hp1. apply elem_of_app. now left.
    + assert (Hl : fs !! q = None) by (rewrite (Hrest _ HqA); exact Hq0).
      rewrite Hl. apply (IH A); [now split | | exact Habs' | exact Hue'].
      intros x Hx. apply Hkeep; [exact Hx|]. intros ->. contradiction.
Qed.

Lemma chained_under_earlier (es : list (list string * lnode)) :
  forall seen, chained D seen es ->
    forall L1 k L2, dir_paths es = L1 ++ k :: L2 ->
      k <> [] /\ (Mem.parent k = D \/ Mem.parent k ∈ seen \/ Mem.parent k ∈ L1).
Proof.
  induction es as [|[q d] es IH]; intros seen Hch L1 k L2 HL.
  - destruct L1; discriminate.
  - inversion Hch as [|seen' q' d' rest Hq Hpar Hrest]; subst.
    rewrite dir_paths_cons in HL. destruct (IsDir d).
    + destruct L1 as [|x L1'].
      * cbn [app] in HL. injection HL as <- _. split; [exact Hq|]. tauto.
      * cbn [app] in HL. injection HL as <- HL.
        destruct (IH _ Hrest _ _ _ HL) as [Hk [Hp|[Hp|Hp]]];
          (split; [exact Hk|]); [now left | | right; right; now right].
        apply elem_of_cons in Hp as [Hp|Hp];
          [right; right; rewrite Hp; now left | right; now left].
    + destruct (IH _ Hrest _ _ _ HL) as [Hk Hp]. now split.
Qed.

(** Copy and then delete, on files that held none of the visited paths:
    the files are as before. *)
Lemma copy_delete_restores (es : list (list string * lnode)) :
  chained D [] es ->
  (forall e, e ∈ es -> fs0 !! fst e = None) ->
  fst (copy_all es fs0) = None ->
  delete_all es (snd (copy_all es fs0)) = fs0.
Proof.
  intros Hch Habs Hok.
  assert (Hinit : copy_inv fs0 (fun _ => False) (fun _ => False) fs0).
  { split; [now intros|]. split; [tauto|]. split; [tauto|].
    split; [intros k v Hk; now left|].
    destruct (fs0 !! []) as [v|] eqn:E; [|reflexivity].
    now apply fs0_tree in E as [E _]. }
  pose proof (copy_all_inv es [] _ _ fs0 Hch
                (fun q Hq => match elem_of_nil q with conj f _ => f Hq end)
                Habs Hinit Hok) as Hcopy.
  set (fs1 := snd (copy_all es fs0)) in *.
  destruct Hcopy as (Ha & Hb & Hc & He & Hr).
  assert (Hfiles : forall q, q ∈ file_paths es ->
                             exists data, fs1 !! q = Some (RFile data))
    by (intros q Hq; apply Hc; now left).
  assert (Hdel0 : del_inv fs1 (fun _ => False) fs1) by (split; tauto).
  destruct (delete_files_inv fs1 es _ fs1 Hfiles Hdel0) as (Hg & Hk).
  unfold delete_all.
  assert (HabsD : forall q, q ∈ dir_paths es -> fs0 !! q = None).
  { intros q Hq. unfold dir_paths in Hq.
    apply list_elem_of_fmap in Hq as (e & -> & He').
    apply list_elem_of_filter in He' as [_ He']. now apply Habs. }
  assert (HabsF : forall q, q ∈ file_paths es -> fs0 !! q = None).
  { intros q Hq. unfold file_paths in Hq.
    apply list_elem_of_fmap in Hq as (e & -> & He').
    apply list_elem_of_filter in He' as [_ He']. now apply Habs. }
  apply (remove_dirs_restore (dir_paths es) (dir_paths es)).
  - split; intros q Hq.
    + assert (Hnf : ~ (q ∈ file_paths es \/ False)).
      { intros [Hf|[]]. apply Hfiles in Hf as [data Hf].
        rewrite (Hb q (or_introl Hq)) in Hf. discriminate. }
      rewrite (Hk _ Hnf). apply Hb. now left.
    + destruct (decide (q ∈ file_paths es)) as [Hf|Hnf].
      * rewrite (Hg q (or_introl Hf)). symmetry. now apply HabsF.
      * rewrite (Hk q) by tauto.
        destruct (fs1 !! q) as [v|] eqn:E1.
        -- destruct (He _ _ E1) as [H0|[[Hd|[]]|[Hf|[]]]];
             [now rewrite H0 | contradiction | contradiction].
        -- destruct (fs0 !! q) as [v|] eqn:E0; [|reflexivity].
           apply Ha in E0. congruence.
  - tauto.
  - exact HabsD.
  - intros L1 k L2 HL.
    destruct (chained_under_earlier es [] Hch L1 k L2 HL) as [Hk' [Hp|[Hp|Hp]]];
      (split; [exact Hk'|]); [now left | now apply elem_of_nil in Hp | now right].
Qed.

End RoundTrip.

(** ** Sessions and the sftp client *)

Section ConnectionFacts.
Context {H : Type} `{Remote H}.

(** X1. When the session for a command cannot be opened, [PrintExec] sends
    nothing to the host: it returns the error of the session, after the
    message with the command and an error message made of the caller's
    text, a colon and the empty output. *)
Theorem PrintExec_session_refused (s : Service) (cmd msg : string)
        (w : World H) (e : error) (h1 : H) :
  SshClient (client w) = true ->
  NewSession (host w) = (Some e, h1) ->
  PrintExec s cmd msg w
  = (Ok (Some e),
     mkWorld h1 (localfs w) (client w)
             (output w ++ [Message (Name s) cmd MessageNormal;
                           Message (Name s)
                                   (if String.eqb msg "" then ""
                                    else msg +:+ ": ")
                                   MessageError])
             (wire w)).
Proof.
  intros Hc Hs.
  unfold PrintExec, Exec, Client_Exec, bind, SendMessage, get_client, ret,
    on_host. cbn [client host localfs output wire].
  rewrite Hc. cbn [negb client host localfs output wire]. rewrite Hs.
  cbn [fst snd client host localfs output wire].
  rewrite <- app_assoc. cbn [app].
  destruct (String.eqb msg ""); reflexivity.
Qed.

(** X2. [ConnectSftpClient] connects once: after a call that returned no
    error, a second call returns no error and changes nothing. *)
Theorem ConnectSftpClient_idempotent (w w1 : World H) :
  ConnectSftpClient w = (Ok None, w1) ->
  ConnectSftpClient w1 = (Ok None, w1).
Proof.
  unfold ConnectSftpClient, bind, get_client, on_host, set_SftClient, ret.
  destruct (SftClient (client w)) eqn:Ec.
  - intros [= <-]. now rewrite Ec.
  - destruct (NewSftpClient (host w)) as [[e|] h1]; [discriminate|].
    intros [= <-]. reflexivity.
Qed.

(** X3. For a path that names no local file, [CopyFile] and [DeleteFile]
    do not return an error: once the sftp client is connected they panic,
    because the walk hands its callback a nil entry, on which [IsDir] is
    called. *)
Theorem missing_local_path_panics (s : Service) (path root : string)
        (w w0 : World H) :
  localfs w path = None ->
  ConnectSftpClient w = (Ok None, w0) ->
  CopyFile s path root w
  = (Panic "invalid memory address or nil pointer dereference", w0)
  /\ DeleteFile s path root w
     = (Panic "invalid memory address or nil pointer dereference", w0).
Proof.
  intros Hl Hc.
  assert (Hl0 : localfs w0 path = None).
  { revert Hc.
    unfold ConnectSftpClient, bind, get_client, on_host, set_SftClient, ret.
    destruct (SftClient (client w)); [now intros [= <-]|].
    destruct (NewSftpClient (host w)) as [[e|] h1]; [discriminate|].
    now intros [= <-]. }
  unfold CopyFile, DeleteFile. rewrite !bind_eq, Hc.
  unfold Client_WalkDir, filepath_WalkDir. rewrite !bind_eq.
  unfold Lstat. rewrite Hl0. split; reflexivity.
Qed.

End ConnectionFacts.

Lemma PrintExec_session_refused_witness :
  PrintExec example_service "systemctl --user start srv"
            "couldn't start systemd service" refusing_world
  = (Ok (Some refused),
     mkWorld refusing_host no_local_files (mkClient true false)
             [Message "srv" "systemctl --user start srv" MessageNormal;
              Message "srv" "couldn't start systemd service: " MessageError]
             []).
Proof.
  exact (PrintExec_session_refused example_service
           "systemctl --user start srv" "couldn't start systemd service"
           refusing_world refused refusing_host eq_refl eq_refl).
Defined.

Lemma ConnectSftpClient_idempotent_witness :
  ConnectSftpClient
    (mkWorld example_host no_local_files (mkClient true true) [] [])
  = (Ok None, mkWorld example_host no_local_files (mkClient true true) [] []).
Proof.
  exact (ConnectSftpClient_idempotent example_world
           (mkWorld example_host no_local_files (mkClient true true) [] [])
           eq_refl).
Defined.

Lemma missing_local_path_panics_witness :
  CopyFile example_service "nothing-here" "/srv" example_world
  = (Panic "invalid memory address or nil pointer dereference",
     mkWorld example_host no_local_files (mkClient true true) [] [])
  /\ DeleteFile example_service "nothing-here" "/srv" example_world
     = (Panic "invalid memory address or nil pointer dereference",
        mkWorld example_host no_local_files (mkClient true true) [] []).
Proof.
  exact (missing_local_path_panics example_service "nothing-here" "/srv"
           example_world
           (mkWorld example_host no_local_files (mkClient true true) [] [])
           eq_refl eq_refl).
Defined.

(** ** The walk and its directory stack *)

Section StackFacts.

Lemma HasSuffix_longer (s suffix : string) :
  (String.length s < String.length suffix)%nat -> HasSuffix s suffix = false.
Proof.
  intros Hlt. unfold HasSuffix.
  destruct (String.length suffix <=? String.length s)%nat eqn:E;
    [apply Nat.leb_le in E; lia | reflexivity].
Qed.

Lemma HasSuffix_refl (s : string) : HasSuffix s s = true.
Proof. exact (HasSuffix_app "" s). Qed.

Lemma substring_drop_last (a : string) (c : ascii) :
  String.substring 0 (String.length (a +:+ String c "") - 1) (a +:+ String c "")
  = a.
Proof.
  rewrite length_append. cbn [String.length].
  replace (String.length a + 1 - 1)%nat with (String.length a) by lia.
  apply substring_app_l.
Qed.

(** The path of an entry [n] of the directory [p] (given by its elements):
    what [filepath.Split] gives as its directory is [p] with a separator. *)
Lemma Split_child (p : list string) (n : string) :
  p <> [] -> forallb plain p = true -> plain n = true ->
  fst (Filepath.Split (GoStrings.Join (p ++ [n]) "/"))
  = GoStrings.Join p "/" +:+ "/".
Proof.
  intros Hp Hpl Hn. unfold Filepath.Split, Filepath.last_element. cbn [fst].
  rewrite Split_Join.
  - rewrite last_app_singleton, Join_snoc by exact Hp.
    rewrite length_append. cbn [String.length].
    replace (String.length (GoStrings.Join p "/") + S (String.length n)
             - String.length n)%nat
      with (String.length (GoStrings.Join p "/" +:+ "/")).
    + change (String "/" n) with ("/" +:+ n).
      rewrite <- app_assoc_str. apply substring_app_l.
    + rewrite length_append. cbn [String.length]. lia.
  - now destruct p.
  - apply forallb_plain_no_slash. rewrite forallb_app, Hpl. cbn [forallb].
    now rewrite Hn.
Qed.

Lemma Join_child (p : list string) (n : string) :
  p <> [] -> forallb plain p = true -> plain n = true ->
  Filepath.Join [GoStrings.Join p "/"; n] = GoStrings.Join (p ++ [n]) "/".
Proof.
  intros Hp Hpl Hn.
  assert (Hall : forallb plain (p ++ [n]) = true).
  { rewrite forallb_app, Hpl. cbn [forallb]. now rewrite Hn. }
  assert (Hne : p ++ [n] <> []) by now destruct p.
  rewrite <- (Filepath_Join_plain (p ++ [n]) Hne Hall).
  pose proof (Join_nonempty p Hp Hpl) as Hj.
  cbn [Filepath.Join].
  destruct (String.eqb (GoStrings.Join p "/") "") eqn:E;
    [apply String.eqb_eq in E; contradiction|].
  destruct p as [|x p']; [congruence|]. cbn [app Filepath.Join].
  assert (Hx : String.eqb x "" = false).
  { cbn [forallb] in Hpl. apply andb_true_iff in Hpl as [Hx _].
    apply plain_nonempty in Hx. now apply String.eqb_neq. }
  rewrite Hx. f_equal.
  change (x :: p' ++ [n]) with ((x :: p') ++ [n]).
  rewrite Join_snoc by discriminate. reflexivity.
Qed.

(** A visit of an entry of the directory on top of the stack leaves the
    stack as it is. *)
Lemma dirs_for_child (p : list string) (n : string) :
  p <> [] -> forallb plain p = true -> plain n = true ->
  dirs_for p (GoStrings.Join (p ++ [n]) "/") = p.
Proof.
  intros Hp Hpl Hn. unfold dirs_for.
  rewrite Split_child by assumption.
  assert (Hd : String.eqb (GoStrings.Join p "/" +:+ "/") "" = false).
  { apply String.eqb_neq. intros He. apply (f_equal String.length) in He.
    rewrite length_append in He. cbn [String.length] in He. lia. }
  rewrite Hd. cbn [negb].
  rewrite substring_drop_last, (Filepath_Join_plain p Hp Hpl), HasSuffix_refl.
  reflexivity.
Qed.

Lemma stack_after_nested (ns : list string) :
  forall (p : list string) (n : string),
    p <> [] -> forallb plain p = true -> plain n = true ->
    forallb plain ns = true ->
    stack_after p (flatten (GoStrings.Join (p ++ [n]) "/") (nested ns))
    = p ++ n :: ns.
Proof.
  induction ns as [|m ns IH]; intros p n Hp Hpl Hn Hns.
  - cbn [nested flatten stack_after IsDir].
    rewrite dirs_for_child by assumption.
    rewrite Join_snoc by exact Hp. now rewrite Base_slash_plain.
  - cbn [forallb] in Hns. apply andb_true_iff in Hns as [Hm Hns].
    cbn [nested flatten stack_after IsDir]. rewrite app_nil_r.
    rewrite dirs_for_child by assumption.
    assert (Hb : Filepath.Base (GoStrings.Join (p ++ [n]) "/") = n).
    { rewrite Join_snoc by exact Hp. now apply Base_slash_plain. }
    rewrite Hb.
    assert (Hpn : forallb plain (p ++ [n]) = true).
    { rewrite forallb_app, Hpl. cbn [forallb]. now rewrite Hn. }
    rewrite Join_child; [| now destruct p | exact Hpn | exact Hm].
    rewrite IH; [| now destruct p | exact Hpn | exact Hm | exact Hns].
    now rewrite <- app_assoc.
Qed.

Lemma remote_entries_app (dstDir : string) (a b : list (string * lnode)) :
  forall dirs,
    remote_entries dstDir dirs (a ++ b)
    = remote_entries dstDir dirs a
      ++ remote_entries dstDir (stack_after dirs a) b.
Proof.
  induction a as [|[p d] a IH]; intros dirs; [reflexivity|].
  cbn [app remote_entries stack_after]. now rewrite IH.
Qed.

Lemma dirs_for_nil (path : string) : dirs_for [] path = [].
Proof. unfold dirs_for. now destruct (negb (HasSuffix _ _)). Qed.

End StackFacts.

Section WalkOrder.
Context {H : Type} `{Remote H}.

(** X4. [Client.WalkDir] on a path that names a local file or directory
    calls its callback once for every entry of the tree, a directory before
    its entries and these in the order read, each with the destination
    path computed from the directory stack, and stops at the first error
    the callback returns. *)
Theorem Client_WalkDir_visits_in_order {T} (srcPath dstDir : string)
        (fn : WalkDirFunc (H:=H) T) (t : T) (w : World H) (d : lnode) :
  localfs w srcPath = Some d ->
  Client_WalkDir srcPath dstDir fn t w
  = run_entries fn (remote_entries dstDir [] (flatten srcPath d)) t w.
Proof.
  intros Hl. unfold Client_WalkDir, filepath_WalkDir.
  rewrite <- run_visits_WalkDir_visit.
  rewrite !bind_eq. unfold Lstat. rewrite Hl.
  now rewrite walkDir_flatten.
Qed.

(** X5. The stack of [Client.WalkDir] loses at most one directory per
    visit.  For a directory [r] that holds the chain of directories
    [n1/ns...] and, after it, the file [z]: the last visit is [r/z], and its
    destination is not [dstDir/r/z] but lies in the last but one directory
    of the chain.  When the chain has two directories or more this resolves,
    on the remote host, to another place than [r/z] under the destination
    directory. *)
Theorem WalkDir_leaves_one_level_only {T} (fn : WalkDirFunc (H:=H) T) (t : T)
        (w : World H) (r n1 z data dstDir : string) (ns : list string) :
  plain r = true -> plain n1 = true -> forallb plain ns = true ->
  plain z = true ->
  localfs w r = Some (LDir [(n1, nested ns); (z, LFile data)]) ->
  let dstPath :=
    Filepath.Join [dstDir; Filepath.Join (r :: removelast (n1 :: ns)); z] in
  (exists before,
     Client_WalkDir r dstDir fn t w
     = run_entries fn
         (before ++ [(Filepath.Join [r; z], dstPath, LFile data)]) t w)
  /\ (forall home,
        Mem.resolve home dstPath
        = Mem.resolve home dstDir ++ r :: removelast (n1 :: ns) ++ [z])
  /\ (ns <> [] ->
      forall home,
        Mem.resolve home dstPath <> Mem.resolve home dstDir ++ [r; z]).
Proof.
  intros Hr Hn1 Hns Hz Hl dstPath.
  assert (Hstack : forallb plain (r :: removelast (n1 :: ns)) = true).
  { assert (Hall : forallb plain (r :: n1 :: ns) = true)
      by (cbn [forallb]; now rewrite Hr, Hn1, Hns).
    exact (forallb_removelast plain _ Hall). }
  assert (Hres : forall home,
             Mem.resolve home dstPath
             = Mem.resolve home dstDir ++ r :: removelast (n1 :: ns) ++ [z]).
  { intros home. unfold dstPath.
    now rewrite (resolve_Join3 home dstDir _ z Hstack Hz). }
  split; [|split; [exact Hres|]].
  - rewrite (Client_WalkDir_entries r dstDir fn t w _ Hl).
    unfold walk_entries. rewrite Hl.
    cbn [flatten]. rewrite app_nil_r.
    cbn [remote_entries IsDir]. rewrite dirs_for_nil. cbn [app].
    rewrite (Base_plain r Hr), remote_entries_app.
    eexists (_ :: _). cbn [app]. f_equal. f_equal.
    assert (Hrl : [r] <> []) by discriminate.
    assert (Hrp : forallb plain [r] = true) by (cbn; now rewrite Hr).
    assert (Hj1 : Filepath.Join [r; n1] = GoStrings.Join ([r] ++ [n1]) "/")
      by exact (Join_child [r] n1 Hrl Hrp Hn1).
    assert (Hjz : Filepath.Join [r; z] = GoStrings.Join ([r] ++ [z]) "/")
      by exact (Join_child [r] z Hrl Hrp Hz).
    rewrite Hj1, Hjz.
    rewrite (stack_after_nested ns [r] n1 Hrl Hrp Hn1 Hns).
    cbn [app remote_entries IsDir]. f_equal. unfold dst_for, dstPath.
    assert (Hpop : dirs_for (r :: n1 :: ns) (GoStrings.Join [r; z] "/")
                   = r :: removelast (n1 :: ns)).
    { unfold dirs_for.
      change [r; z] with ([r] ++ [z]).
      rewrite (Split_child [r] z Hrl Hrp Hz).
      cbn [GoStrings.Join].
      assert (Hd : String.eqb (r +:+ "/") "" = false).
      { apply String.eqb_neq. intros He. apply (f_equal String.length) in He.
        rewrite length_append in He. cbn [String.length] in He. lia. }
      rewrite Hd. cbn [negb]. rewrite substring_drop_last.
      rewrite Filepath_Join_plain;
        [| discriminate | cbn [forallb]; now rewrite Hr, Hn1, Hns].
      rewrite HasSuffix_longer.
      - reflexivity.
      - rewrite Join_cons by discriminate. rewrite !length_append.
        cbn [String.length]. lia. }
    rewrite Hpop.
    change (GoStrings.Join [r; z] "/") with (r +:+ String "/" z).
    now rewrite (Base_slash_plain r z Hz).
  - intros Hne home. rewrite Hres. intros He.
    apply (inj (app (Mem.resolve home dstDir))) in He.
    destruct ns as [|m ns']; [congruence|].
    cbn [removelast app] in He. destruct ns'; discriminate.
Qed.

End WalkOrder.

Lemma Client_WalkDir_visits_in_order_witness :
  Client_WalkDir "conf" "/srv" CopyFile_visit tt
                 (mkWorld example_host conf_files (mkClient true true) [] [])
  = run_entries CopyFile_visit
      (remote_entries "/srv" [] (flatten "conf" conf_tree)) tt
      (mkWorld example_host conf_files (mkClient true true) [] []).
Proof.
  exact (Client_WalkDir_visits_in_order "conf" "/srv" CopyFile_visit tt
           (mkWorld example_host conf_files (mkClient true true) [] [])
           conf_tree eq_refl).
Defined.

Lemma WalkDir_leaves_one_level_only_witness :
  (exists before,
     Client_WalkDir "conf" "/srv" CopyFile_visit tt deep_world
     = run_entries CopyFile_visit
         (before ++ [(Filepath.Join ["conf"; "z.txt"],
                      Filepath.Join ["/srv"; Filepath.Join ["conf"; "a"]; "z.txt"],
                      LFile "Z")]) tt deep_world)
  /\ (forall home,
        Mem.resolve home
          (Filepath.Join ["/srv"; Filepath.Join ["conf"; "a"]; "z.txt"])
        = Mem.resolve home "/srv" ++ ["conf"; "a"; "z.txt"])
  /\ (["b"] <> [] ->
      forall home,
        Mem.resolve home
          (Filepath.Join ["/srv"; Filepath.Join ["conf"; "a"]; "z.txt"])
        <> Mem.resolve home "/srv" ++ ["conf"; "z.txt"]).
Proof.
  exact (WalkDir_leaves_one_level_only (H:=MemHost) CopyFile_visit tt deep_world
           "conf" "a" "z.txt" "Z" "/srv" ["b"]
           eq_refl eq_refl eq_refl eq_refl eq_refl).
Defined.

(** ** Copy, then delete *)

Section MirrorFacts.

Lemma well_formed_by_cases (fs : gmap (list string) rnode) :
  map_Forall (fun k _ => k <> [] /\ Mem.node_at fs (Mem.parent k) = Some RDir) fs ->
  well_formed fs.
Proof. intros Hall k v Hk. exact (Hall k v Hk). Qed.

(** X6. [CopyFile] and then [DeleteFile], for the same path and working
    directory, on a host in memory whose files form a tree, where the
    working directory exists and none of the destination paths did: when the
    copy returned no error, the delete returns none either and the files of
    the host are what they were before the copy. *)
Theorem CopyFile_then_DeleteFile_restores (s : Service) (path root : string)
        (w : World MemHost) (d : lnode) :
  localfs w path = Some d ->
  plain_tree d = true ->
  plain (Filepath.Base path) = true ->
  well_formed (rfs (host w)) ->
  Mem.node_at (rfs (host w)) (Mem.resolve (rhome (host w)) root) = Some RDir ->
  Forall (fun e => rfs (host w) !! Mem.resolve (rhome (host w)) (snd (fst e)) = None)
         (walk_entries w path root) ->
  fst (CopyFile s path root w) = Ok None ->
  exists w1 w2,
    CopyFile s path root w = (Ok None, w1)
    /\ DeleteFile s path root w1 = (Ok None, w2)
    /\ rfs (host w2) = rfs (host w).
Proof.
  intros Hl Ht Hb Hwf HD Habs Hok.
  destruct (CopyFile_mem s path root w d Hl) as (w1 & Hc & Hstep).
  cbv zeta in Hc, Hstep. rewrite Hc in Hok. cbn [fst] in Hok.
  injection Hok as Hok. rewrite Hok in Hc.
  destruct Hstep as (Hf & Hh & Hl1 & Hs1).
  assert (Hl' : localfs w1 path = Some d) by congruence.
  destruct (DeleteFile_mem s path root w1 d Hl') as (w2 & Hd & Hstep2).
  cbv zeta in Hd, Hstep2.
  assert (Hes : walk_entries w1 path root = walk_entries w path root).
  { unfold walk_entries. now rewrite Hl1. }
  rewrite Hes, Hh, Hf in Hstep2.
  exists w1, w2. split; [exact Hc|]. split; [exact Hd|].
  destruct Hstep2 as (Hf2 & _). rewrite Hf2.
  apply (copy_delete_restores (rfs (host w))
           (Mem.resolve (rhome (host w)) root) Hwf HD).
  - unfold walk_entries. rewrite Hl.
    apply chained_remote_entries.
    + now apply flatten_Base.
    + reflexivity.
    + intros k Hk. cbn [length] in Hk. lia.
  - intros e He. unfold resolved in He.
    apply list_elem_of_fmap in He as (e0 & -> & He0). cbn [fst].
    rewrite Forall_forall in Habs. now apply Habs.
  - exact Hok.
Qed.

(** X7. When the destination of a single file already holds a file, the
    copy replaces its content, and the delete that follows removes the
    file: what was there before the copy is not brought back. *)
Theorem CopyFile_then_DeleteFile_removes_old_file (s : Service)
        (path root data old : string) (w : World MemHost) :
  localfs w path = Some (LFile data) ->
  plain (Filepath.Base path) = true ->
  let q := Mem.resolve (rhome (host w)) root ++ [Filepath.Base path] in
  rfs (host w) !! q = Some (RFile old) ->
  exists w1 w2,
    CopyFile s path root w = (Ok None, w1)
    /\ rfs (host w1) = <[q := RFile data]> (rfs (host w))
    /\ DeleteFile s path root w1 = (Ok None, w2)
    /\ rfs (host w2) = delete q (rfs (host w)).
Proof.
  intros Hl Hb q Hq.
  assert (Hqne : q <> []).
  { unfold q. intros Hn. now apply app_eq_nil in Hn as [_ Hn]. }
  assert (Hes : forall w' : World MemHost,
             localfs w' = localfs w -> rhome (host w') = rhome (host w) ->
             resolved (rhome (host w')) (walk_entries w' path root)
             = [(q, LFile data)]).
  { intros w' Hl' Hh'. unfold walk_entries. rewrite Hl', Hl, Hh'.
    cbn [flatten remote_entries resolved map fst snd].
    unfold dst_for. rewrite dirs_for_nil.
    now rewrite (resolve_Join3 _ root [] _ eq_refl Hb). }
  destruct (CopyFile_mem s path root w _ Hl) as (w1 & Hc & Hstep).
  cbv zeta in Hc, Hstep. rewrite (Hes w eq_refl eq_refl) in Hc, Hstep.
  assert (Hcopy : copy_all [(q, LFile data)] (rfs (host w))
                  = (None, <[q := RFile data]> (rfs (host w)))).
  { cbn [copy_all]. unfold copy_step, Mem.create. cbn [fst snd].
    rewrite (node_at_cons _ _ Hqne), Hq. unfold Mem.write.
    now rewrite lookup_insert_eq, insert_insert_eq. }
  rewrite Hcopy in Hc, Hstep. cbn [fst snd] in Hc, Hstep.
  destruct Hstep as (Hf & Hh & Hl1 & Hs1).
  assert (Hl' : localfs w1 path = Some (LFile data)) by congruence.
  destruct (DeleteFile_mem s path root w1 _ Hl') as (w2 & Hd & Hstep2).
  cbv zeta in Hd, Hstep2. rewrite (Hes w1 Hl1 Hh), Hf in Hstep2.
  exists w1, w2. repeat split; try assumption.
  destruct Hstep2 as (Hf2 & _). rewrite Hf2.
  unfold delete_all, dir_paths. rewrite filter_cons. cbn [snd IsDir].
  destruct (decide (false = true)); [discriminate|].
  cbn [filter map rev fold_left]. unfold remove_dirs. cbn [fold_left].
  unfold delete_step. cbn [fst snd].
  now rewrite remove_cases, lookup_insert_eq, delete_insert_eq.
Qed.

End MirrorFacts.

Lemma CopyFile_then_DeleteFile_restores_witness :
  exists w1 w2,
    CopyFile example_service "conf" "/srv" conf_world = (Ok None, w1)
    /\ DeleteFile example_service "conf" "/srv" w1 = (Ok None, w2)
    /\ rfs (host w2) = rfs (host conf_world).
Proof.
  apply (CopyFile_then_DeleteFile_restores example_service "conf" "/srv"
           conf_world conf_tree).
  - reflexivity.
  - reflexivity.
  - reflexivity.
  - apply well_formed_by_cases. apply (bool_decide_unpack _). vm_compute. exact I.
  - vm_compute. reflexivity.
  - apply (bool_decide_unpack _). vm_compute. exact I.
  - vm_compute. reflexivity.
Defined.

Lemma CopyFile_then_DeleteFile_removes_old_file_witness :
  exists w1 w2,
    CopyFile example_service "etc/motd" "/srv" motd_world = (Ok None, w1)
    /\ rfs (host w1) = <[ ["srv"; "motd"] := RFile "new" ]> (rfs (host motd_world))
    /\ DeleteFile example_service "etc/motd" "/srv" w1 = (Ok None, w2)
    /\ rfs (host w2) = delete ["srv"; "motd"] (rfs (host motd_world)).
Proof.
  apply (CopyFile_then_DeleteFile_removes_old_file example_service
           "etc/motd" "/srv" "new" "old" motd_world).
  - reflexivity.
  - reflexivity.
  - vm_compute. reflexivity.
Defined.

(** ** [DeleteFiles]: the log file and the working directory *)

Section DeleteFilesFacts.
Context {H : Type} `{Remote H}.

(** X8. [DeleteFiles] reports [Deleted] for the working directory whatever
    the removal returned, and returns no error: when the removal fails with
    an sftp status, the progress messages are the announcement, the error
    (for the status 4, that the directory is not empty; else the text of the
    status) and then the success message [Deleted]. *)
Theorem DeleteFiles_reports_Deleted_after_failure (s : Service) (w : World H)
        (code : Z) (msg : string) (h1 : H) :
  CopyFiles (conf s) = [] ->
  str (conf s) LogPath = "" ->
  str (conf s) WorkingDirectory <> remoteHomeDir s ->
  SftClient (client w) = true ->
  SftpRemove (str (conf s) WorkingDirectory) (host w)
  = (Some (StatusError code msg), h1) ->
  let wd := str (conf s) WorkingDirectory in
  DeleteFiles s true w
  = (Ok None,
     mkWorld h1 (localfs w) (client w)
       (output w ++
        [Message (Name s)
                 ("Deleting service working directory '" +:+ wd +:+ "'")
                 MessageNormal;
         Message (Name s)
                 (if code =? 4
                  then "Cannot delete service working directory '" +:+ wd
                       +:+ "': directory is not empty"
                  else "Cannot delete service working directory '" +:+ wd
                       +:+ "': " +:+ msg)
                 MessageError;
         Message (Name s) "Deleted" MessageSuccess])
       (wire w ++ [ReqRemove wd])).
Proof.
  intros Hcf Hlog Hwd Hs Hrm wd.
  unfold DeleteFiles, DeleteFiles_copied, DeleteFiles_log, DeleteFiles_workdir,
    DeleteDirIfEmpty, ConnectSftpClient, with_SftClient.
  rewrite Hcf, Hlog. fold wd.
  assert (Hne : String.eqb wd (remoteHomeDir s) = false)
    by now apply String.eqb_neq.
  rewrite Hne. cbn [length Nat.ltb Nat.leb negb String.eqb].
  unfold bind, ret, SendMessage, get_client, request_host.
  cbn [client host localfs output wire]. rewrite Hs.
  cbn [client host localfs output wire]. rewrite Hs.
  cbn [client host localfs output wire]. fold wd in Hrm. rewrite Hrm.
  cbn [client host localfs output wire].
  destruct (code =? 4); cbn [client host localfs output wire];
    rewrite <- !app_assoc; reflexivity.
Qed.

(** X9. With a log path configured, [DeleteFiles] does not stop when the
    sftp client cannot be connected: it reports the error and then calls
    [Remove] on the nil client, which panics. *)
Theorem DeleteFiles_log_without_sftp_panics (s : Service) (w : World H)
        (e : error) (h1 : H) :
  CopyFiles (conf s) = [] ->
  str (conf s) LogPath <> "" ->
  SftClient (client w) = false ->
  NewSftpClient (host w) = (Some e, h1) ->
  let LogPath := str (conf s) LogPath in
  DeleteFiles s true w
  = (Panic "invalid memory address or nil pointer dereference",
     mkWorld h1 (localfs w) (client w)
       (output w ++
        [Message (Name s) ("Deleting log file '" +:+ LogPath +:+ "'")
                 MessageNormal;
         Message (Name s)
                 ("Cannot delete log file '" +:+ LogPath +:+ "': " +:+ Error e)
                 MessageError])
       (wire w)).
Proof.
  intros Hcf Hlog Hs Hn LogPath.
  unfold DeleteFiles, DeleteFiles_copied, DeleteFiles_log,
    ConnectSftpClient, with_SftClient.
  rewrite Hcf. fold LogPath.
  assert (Hne : String.eqb LogPath "" = false) by now apply String.eqb_neq.
  rewrite Hne. cbn [length Nat.ltb Nat.leb negb].
  unfold bind, ret, SendMessage, get_client, on_host, panic.
  cbn [client host localfs output wire]. rewrite Hs.
  cbn [client host localfs output wire]. rewrite Hn.
  cbn [client host localfs output wire]. rewrite Hs.
  rewrite <- !app_assoc. reflexivity.
Qed.

End DeleteFilesFacts.

Section HomeDirectory.

Lemma ConnectSftpClient_wire {H : Type} `{Remote H} (w w1 : World H)
      (r : result (option error)) :
  ConnectSftpClient w = (r, w1) -> wire w1 = wire w /\ output w1 = output w.
Proof.
  unfold ConnectSftpClient, bind, get_client, on_host, set_SftClient, ret.
  destruct (SftClient (client w)); [now intros [= _ <-]|].
  destruct (NewSftpClient (host w)) as [[e|] h1]; now intros [= _ <-].
Qed.

Lemma resolve_trailing_slash (home : list string) (p : string) :
  p <> "" -> Mem.resolve home (p +:+ "/") = Mem.resolve home p.
Proof.
  intros Hp. unfold Mem.resolve. rewrite (IsAbs_app p "/" Hp).
  change (p +:+ "/") with (p +:+ String "/" "").
  rewrite Split_app, fold_left_app. reflexivity.
Qed.

(** X10. The test that keeps [DeleteFiles] from removing the login
    directory compares the two paths as strings.  A working directory that
    is the login directory written with a separator at its end passes the
    test: on the host in memory, when that directory is empty,
    [DeleteFiles] removes it. *)
Theorem DeleteFiles_removes_home_with_trailing_slash (s : Service)
        (w : World MemHost) :
  CopyFiles (conf s) = [] ->
  str (conf s) LogPath = "" ->
  remoteHomeDir s <> "" ->
  str (conf s) WorkingDirectory = remoteHomeDir s +:+ "/" ->
  let q := Mem.resolve (rhome (host w)) (remoteHomeDir s) in
  rfs (host w) !! q = Some RDir ->
  Mem.is_empty_dir (rfs (host w)) q = true ->
  exists w',
    DeleteFiles s true w = (Ok None, w')
    /\ rfs (host w') = delete q (rfs (host w))
    /\ wire w' = wire w ++ [ReqRemove (remoteHomeDir s +:+ "/")].
Proof.
  intros Hcf Hlog Hhome Hwd q Hq Hempty.
  unfold DeleteFiles, DeleteFiles_copied, DeleteFiles_log, DeleteFiles_workdir,
    DeleteDirIfEmpty, with_SftClient.
  rewrite Hcf, Hlog, Hwd.
  assert (Hne : String.eqb (remoteHomeDir s +:+ "/") (remoteHomeDir s) = false).
  { apply String.eqb_neq. intros He. apply (f_equal String.length) in He.
    rewrite length_append in He. cbn [String.length] in He. lia. }
  rewrite Hne. cbn [length Nat.ltb Nat.leb negb String.eqb].
  rewrite !bind_eq. unfold ret at 1 2. cbn iota. rewrite !bind_eq.
  unfold SendMessage at 1. cbn iota. rewrite !bind_eq.
  match goal with
  | |- context [ConnectSftpClient ?w0] =>
      destruct (ConnectSftpClient_mem w0) as (w1 & Hc & (Hf & Hh & Hl & Hs))
  end.
  destruct (ConnectSftpClient_wire _ _ _ Hc) as [Hw _]. rewrite Hc.
  cbn [host wire] in Hf, Hh, Hw. cbn iota. rewrite !bind_eq.
  unfold get_client at 1. rewrite Hs. unfold request_host at 1.
  cbn [SftpRemove MemHost_Remote Mem.lift].
  rewrite Hh, Hf, (resolve_trailing_slash _ _ Hhome). fold q.
  assert (Hrm : Mem.remove q (rfs (host w)) = (None, delete q (rfs (host w)))).
  { unfold Mem.remove, Mem.remove_directory. now rewrite Hq, Hempty. }
  rewrite Hrm. cbn [fst snd]. cbn iota.
  eexists. split; [reflexivity|]. cbn [host rfs wire].
  split; [reflexivity|]. now rewrite Hw.
Qed.

End HomeDirectory.

Lemma DeleteFiles_reports_Deleted_after_failure_witness :
  DeleteFiles example_service true failing_world
  = (Ok None,
     mkWorld (failing_host 4) no_local_files (mkClient true true)
       [Message "srv" "Deleting service working directory '/srv'" MessageNormal;
        Message "srv"
          "Cannot delete service working directory '/srv': directory is not empty"
          MessageError;
        Message "srv" "Deleted" MessageSuccess]
       [ReqRemove "/srv"]).
Proof.
  apply (DeleteFiles_reports_Deleted_after_failure example_service
           failing_world 4 "failure" (failing_host 4)).
  - reflexivity.
  - reflexivity.
  - apply (bool_decide_unpack _). vm_compute. exact I.
  - reflexivity.
  - reflexivity.
Defined.

Lemma DeleteFiles_log_without_sftp_panics_witness :
  DeleteFiles logging_service true refusing_world
  = (Panic "invalid memory address or nil pointer dereference",
     mkWorld refusing_host no_local_files (mkClient true false)
       [Message "srv" "Deleting log file '/var/log/srv.log'" MessageNormal;
        Message "srv"
          "Cannot delete log file '/var/log/srv.log': ssh: rejected: administratively prohibited (open failed)"
          MessageError]
       []).
Proof.
  apply (DeleteFiles_log_without_sftp_panics logging_service refusing_world
           refused refusing_host).
  - reflexivity.
  - apply (bool_decide_unpack _). vm_compute. exact I.
  - reflexivity.
  - reflexivity.
Defined.

Lemma DeleteFiles_removes_home_with_trailing_slash_witness :
  exists w',
    DeleteFiles slash_service true example_world = (Ok None, w')
    /\ rfs (host w') = delete ["home"; "pioz"] (rfs example_host)
    /\ wire w' = [ReqRemove "/home/pioz/"].
Proof.
  apply (DeleteFiles_removes_home_with_trailing_slash slash_service
           example_world).
  - reflexivity.
  - reflexivity.
  - apply (bool_decide_unpack _). vm_compute. exact I.
  - reflexivity.
  - vm_compute. reflexivity.
  - vm_compute. reflexivity.
Defined.

(** ** The commands of the steps *)

Section EscapeFacts.

Lemma HTMLEscape_length (s : string) :
  (String.length s <= String.length (Template.HTMLEscape s))%nat.
Proof.
  induction s as [|c s IH]; [reflexivity|]. cbn [Template.HTMLEscape].
  rewrite length_append. cbn [String.length].
  repeat match goal with
         | |- context [if ?b then _ else _] => destruct b
         end; cbn [String.length]; lia.
Qed.

Lemma HTMLEscape_safe (s : string) :
  Template.HTMLEscape s = s <-> html_safe s = true.
Proof.
  induction s as [|c s IH]; [easy|]. cbn [Template.HTMLEscape html_safe].
  pose proof (HTMLEscape_length s) as Hlen.
  destruct (Ascii.eqb c "034") eqn:E1; cbn [orb negb andb].
  { split; [|discriminate]. intros He. apply (f_equal String.length) in He.
    rewrite length_append in He. cbn [String.length] in He. lia. }
  destruct (Ascii.eqb c "&") eqn:E2; cbn [orb negb andb].
  { split; [|discriminate]. intros He. apply (f_equal String.length) in He.
    rewrite length_append in He. cbn [String.length] in He. lia. }
  destruct (Ascii.eqb c "'") eqn:E3; cbn [orb negb andb].
  { split; [|discriminate]. intros He. apply (f_equal String.length) in He.
    rewrite length_append in He. cbn [String.length] in He. lia. }
  destruct (Ascii.eqb c "+") eqn:E4; cbn [orb negb andb].
  { split; [|discriminate]. intros He. apply (f_equal String.length) in He.
    rewrite length_append in He. cbn [String.length] in He. lia. }
  destruct (Ascii.eqb c "<") eqn:E5; cbn [orb negb andb].
  { split; [|discriminate]. intros He. apply (f_equal String.length) in He.
    rewrite length_append in He. cbn [String.length] in He. lia. }
  destruct (Ascii.eqb c ">") eqn:E6; cbn [orb negb andb].
  { split; [|discriminate]. intros He. apply (f_equal String.length) in He.
    rewrite length_append in He. cbn [String.length] in He. lia. }
  destruct (Ascii.eqb c "000") eqn:E7; cbn [orb negb andb].
  { split; [|discriminate]. intros He. apply (f_equal String.length) in He.
    rewrite length_append in He. cbn [String.length] in He. lia. }
  cbn [String.append]. rewrite <- IH. split; [now intros [= ->] | now intros ->].
Qed.

End EscapeFacts.

Section CommandFacts.
Context {H : Type} `{Remote H}.

(** X11. [ParseCommand] replaces the action of a string field by the value
    of the field passed through the escaper of html/template; the value
    reaches the command unchanged exactly when it has none of the bytes
    that escaper rewrites (the two quotes, [&], [+], [<], [>] and the zero
    byte). *)
Theorem ParseCommand_escapes_field (s : Service) (f : sfield) (w : World H) :
  ParseCommand s ("{{." +:+ field_name (FStr f) +:+ "}}") w
  = (Ok (Template.HTMLEscape (str (conf s) f)), w)
  /\ (Template.HTMLEscape (str (conf s) f) = str (conf s) f
      <-> html_safe (str (conf s) f) = true).
Proof.
  split; [|apply HTMLEscape_safe].
  unfold ParseCommand.
  assert (Hp : Template.Parse ("{{." +:+ field_name (FStr f) +:+ "}}")
               = Some [Template.ActionNode (FStr f)])
    by (destruct f; vm_compute; reflexivity).
  rewrite Hp. unfold ret.
  cbn [Template.Execute Template.exec_node Template.print_field].
  now rewrite app_empty_r.
Qed.

Lemma Exec_run (s : Service) (cmd : string) (w : World H) (h1 h2 : H)
      (r : RunResult) :
  SshClient (client w) = true ->
  NewSession (host w) = (None, h1) ->
  Run cmd h1 = (r, h2) ->
  Exec s cmd w
  = (Ok (TrimSuffix (match run_err r with
                     | Some _ => run_stderr r
                     | None => run_stdout r
                     end) nl, run_err r),
     mkWorld h2 (localfs w) (client w) (output w) (wire w ++ [ReqRun cmd])).
Proof.
  intros Hc Hs Hr. unfold Exec. rewrite bind_eq.
  now rewrite (Client_Exec_run cmd w h1 h2 r Hc Hs Hr).
Qed.

(** X12. When [go install] fails, [InstallExecutable] returns its error
    without running the check of the executable.  The command is built from
    the escaped values of the fields ([GOPRIVATE=...] in front when
    [go_private] is set); the error message names the package as
    configured and holds the output of the command twice. *)
Theorem InstallExecutable_failure (s : Service) (w : World H) (h1 h2 : H)
        (r : RunResult) (e : error) :
  let c := conf s in
  let cmd :=
    if negb (String.eqb (str c GoPrivate) "")
    then "GOPRIVATE=" +:+ Template.HTMLEscape (str c GoPrivate) +:+ " "
         +:+ Template.HTMLEscape (str c GoExecPath) +:+ " install "
         +:+ Template.HTMLEscape (str c GoInstall)
    else Template.HTMLEscape (str c GoExecPath) +:+ " install "
         +:+ Template.HTMLEscape (str c GoInstall) in
  let out := TrimSuffix (run_stderr r) nl in
  SshClient (client w) = true ->
  NewSession (host w) = (None, h1) ->
  Run cmd h1 = (r, h2) ->
  run_err r = Some e ->
  InstallExecutable s w
  = (Ok (Some e),
     mkWorld h2 (localfs w) (client w)
       (output w ++
        [Message (Name s) cmd MessageNormal;
         Message (Name s)
                 ("cannot install the package `" +:+ str c GoInstall +:+ "`: "
                  +:+ out +:+ ": " +:+ out)
                 MessageError])
       (wire w ++ [ReqRun cmd])).
Proof.
  intros c cmd out Hc Hs Hr He.
  unfold InstallExecutable, ParseCommand.
  change (Template.Parse
            "GOPRIVATE={{.GoPrivate}} {{.GoExecPath}} install {{.GoInstall}}")
    with (Some [Template.TextNode "GOPRIVATE=";
                Template.ActionNode (FStr GoPrivate);
                Template.TextNode " ";
                Template.ActionNode (FStr GoExecPath);
                Template.TextNode " install ";
                Template.ActionNode (FStr GoInstall)]).
  change (Template.Parse "{{.GoExecPath}} install {{.GoInstall}}")
    with (Some [Template.ActionNode (FStr GoExecPath);
                Template.TextNode " install ";
                Template.ActionNode (FStr GoInstall)]).
  fold c. cbv iota.
  assert (Hcmd :
    (if negb (String.eqb (str c GoPrivate) "")
     then ret (Template.Execute
                 [Template.TextNode "GOPRIVATE=";
                  Template.ActionNode (FStr GoPrivate);
                  Template.TextNode " ";
                  Template.ActionNode (FStr GoExecPath);
                  Template.TextNode " install ";
                  Template.ActionNode (FStr GoInstall)] c)
     else ret (Template.Execute
                 [Template.ActionNode (FStr GoExecPath);
                  Template.TextNode " install ";
                  Template.ActionNode (FStr GoInstall)] c))
    = (ret cmd : M H string)).
  { unfold cmd.
    cbn [Template.Execute Template.exec_node Template.print_field].
    rewrite !app_empty_r.
    destruct (negb (String.eqb (str c GoPrivate) "")); reflexivity. }
  rewrite Hcmd. rewrite bind_eq. unfold ret at 1. cbn iota.
  rewrite bind_eq. unfold SendMessage at 1. cbn iota. rewrite bind_eq.
  erewrite Exec_run; [| exact Hc | exact Hs | exact Hr].
  cbn [client host localfs output wire fst snd]. rewrite He.
  rewrite bind_eq. unfold SendMessage, ret.
  cbn [client host localfs output wire]. fold out.
  rewrite <- !app_assoc. rewrite !app_assoc_str. reflexivity.
Qed.

End CommandFacts.

Lemma InstallExecutable_failure_witness :
  InstallExecutable example_service failing_world
  = (Ok (Some (TransportError "Process exited with status 1")),
     mkWorld (failing_host 4) no_local_files (mkClient true true)
       [Message "srv" "/usr/local/go/bin/go install github.com/pioz/srv@latest"
                MessageNormal;
        Message "srv"
          "cannot install the package `github.com/pioz/srv@latest`: sh: command failed: sh: command failed"
          MessageError]
       [ReqRun "/usr/local/go/bin/go install github.com/pioz/srv@latest"]).
Proof.
  exact (InstallExecutable_failure example_service failing_world
           (failing_host 4) (failing_host 4)
           (mkRun "" ("sh: command failed" +:+ nl)
                  (Some (TransportError "Process exited with status 1")))
           (TransportError "Process exited with status 1")
           eq_refl eq_refl eq_refl eq_refl).
Defined.

(** ** The checks of the install *)

Section SplitFacts.

Lemma Split_sep_nonempty (s : string) (sep : ascii) : Split s sep <> [].
Proof.
  destruct s as [|c s]; cbn [Split]; [discriminate|].
  destruct (Ascii.eqb c sep); [discriminate|].
  destruct (Split s sep); discriminate.
Qed.

Lemma Split_sep_app (a b : string) (sep : ascii) :
  Split (a +:+ String sep b) sep = Split a sep ++ Split b sep.
Proof.
  induction a as [|c a IH].
  - cbn [String.append Split]. now rewrite Ascii.eqb_refl.
  - cbn [String.append Split]. rewrite IH.
    destruct (Ascii.eqb c sep); [reflexivity|].
    pose proof (Split_sep_nonempty a sep) as Hne.
    destruct (Split a sep) as [|h t]; [congruence | reflexivity].
Qed.

Lemma Split_no_byte (n : string) (sep : ascii) :
  no_byte sep n = true -> Split n sep = [n].
Proof.
  induction n as [|c n IH]; [reflexivity|]. cbn [no_byte Split].
  intros [Hc Hn]%andb_true_iff. apply negb_true_iff in Hc. rewrite Hc.
  now rewrite (IH Hn).
Qed.

(** Lines joined by line feeds are what [strings.Split] gives back. *)
Lemma Split_Join_lines (names : list string) :
  names <> [] -> forallb (no_byte LF) names = true ->
  Split (Join names nl) LF = names.
Proof.
  induction names as [|n names IH]; [congruence|]. intros _ Hall.
  cbn [forallb] in Hall. apply andb_true_iff in Hall as [Hn Hall].
  destruct names as [|m names'].
  - cbn [Join]. now apply Split_no_byte.
  - rewrite Join_cons by discriminate.
    change (n +:+ nl +:+ Join (m :: names') nl)
      with (n +:+ String LF (Join (m :: names') nl)).
    rewrite Split_sep_app, (Split_no_byte n LF Hn).
    now rewrite IH.
Qed.

Lemma slices_Contains_elem_of (l : list string) (x : string) :
  slices_Contains l x = true <-> x ∈ l.
Proof.
  unfold slices_Contains. rewrite existsb_exists. split.
  - intros (y & Hy & He). apply String.eqb_eq in He. subst y.
    now apply list_elem_of_In.
  - intros Hx. exists x. split; [now apply list_elem_of_In|].
    apply String.eqb_refl.
Qed.

End SplitFacts.

Section CheckFacts.
Context {H : Type} `{Remote H}.

(** X13. [CheckLingering] accepts the user only as a whole line of the
    listing.  When [ls] of the linger directory succeeds and prints the
    names [names], one per line, the check returns no error exactly when
    the configured user is one of the names; a user that is not gets the
    error that names the [loginctl] command. *)
Theorem CheckLingering_matches_whole_lines (s : Service) (w : World H)
        (h1 h2 : H) (r : RunResult) (names : list string) :
  let cmd :=
    "ls " +:+ Template.HTMLEscape (str (conf s) SystemdLingerDirectory) in
  let user := str (conf s) User in
  SshClient (client w) = true ->
  NewSession (host w) = (None, h1) ->
  Run cmd h1 = (r, h2) ->
  run_err r = None ->
  names <> [] ->
  forallb (no_byte LF) names = true ->
  run_stdout r = Join names nl +:+ nl ->
  (fst (CheckLingering s w) = Ok None <-> user ∈ names)
  /\ (user ∉ names ->
      fst (CheckLingering s w)
      = Ok (Some (ErrorString
                    ("user `" +:+ user
                     +:+ "` is not in the linger list. You can add it with the command `sudo loginctl enable-linger "
                     +:+ user +:+ "`")))).
Proof.
  intros cmd user Hc Hs Hr He Hne Hnames Hout.
  assert (Hrun :
    fst (CheckLingering s w)
    = Ok (if slices_Contains names user then None
          else Some (ErrorString
                 ("user `" +:+ user
                  +:+ "` is not in the linger list. You can add it with the command `sudo loginctl enable-linger "
                  +:+ user +:+ "`")))).
  { unfold CheckLingering, ParseCommand.
    change (Template.Parse "ls {{.SystemdLingerDirectory}}")
      with (Some [Template.TextNode "ls ";
                  Template.ActionNode (FStr SystemdLingerDirectory)]).
    cbv iota.
    cbn [Template.Execute Template.exec_node Template.print_field].
    rewrite app_empty_r. fold cmd. fold user.
    rewrite bind_eq. unfold ret at 1. cbn iota.
    rewrite bind_eq. unfold SendMessage at 1. cbn iota. rewrite bind_eq.
    erewrite Exec_run; [| exact Hc | exact Hs | exact Hr].
    cbn [fst snd]. rewrite He, Hout, TrimSuffix_app.
    rewrite (Split_Join_lines names Hne Hnames).
    destruct (slices_Contains names user); cbn [negb];
      unfold bind, SendMessage, ret; reflexivity. }
  rewrite Hrun.
  destruct (slices_Contains names user) eqn:E.
  - apply slices_Contains_elem_of in E.
    split; [easy | intros Hn; contradiction].
  - assert (Hn : user ∉ names).
    { intros Hin. apply slices_Contains_elem_of in Hin. congruence. }
    split; [split; [discriminate | intros Hin; contradiction] | reflexivity].
Qed.

(** X14. [CheckWorkingDir] creates the working directory only when it is
    asked to and the test for it failed.  When [test -e] fails: without the
    flag it returns the error of the test after that one command; with the
    flag it runs [mkdir -p] and returns what that command returned. *)
Theorem CheckWorkingDir_creates_when_asked (s : Service) (w : World H)
        (h1 h2 : H) (r1 : RunResult) (e1 : error) :
  let wd := Template.HTMLEscape (str (conf s) WorkingDirectory) in
  SshClient (client w) = true ->
  NewSession (host w) = (None, h1) ->
  Run ("test -e " +:+ wd) h1 = (r1, h2) ->
  run_err r1 = Some e1 ->
  (fst (CheckWorkingDir s false w) = Ok (Some e1)
   /\ wire (snd (CheckWorkingDir s false w))
      = wire w ++ [ReqRun ("test -e " +:+ wd)])
  /\ (forall h3 h4 r2,
        NewSession h2 = (None, h3) ->
        Run ("mkdir -p " +:+ wd) h3 = (r2, h4) ->
        fst (CheckWorkingDir s true w) = Ok (run_err r2)
        /\ wire (snd (CheckWorkingDir s true w))
           = wire w ++ [ReqRun ("test -e " +:+ wd); ReqRun ("mkdir -p " +:+ wd)]).
Proof.
  intros wd Hc Hs Hr He.
  assert (Hstart : forall b,
    CheckWorkingDir s b w
    = (if negb b then
         SendMessage (Name s)
           ("Service working directory '" +:+ str (conf s) WorkingDirectory
            +:+ "' does not exist on the remote host") MessageError ;;;
         ret (Some e1)
       else
         SendMessage (Name s) ("mkdir -p " +:+ wd) MessageNormal ;;;
         r <- Exec s ("mkdir -p " +:+ wd) ;;
         match snd r with
         | Some err =>
             SendMessage (Name s) (Error err) MessageError ;;;
             ret (Some err)
         | None =>
             SendMessage (Name s) (fst r) MessageSuccess ;;;
             ret None
         end)
        (mkWorld h2 (localfs w) (client w)
                 (output w ++ [Message (Name s) ("test -e " +:+ wd) MessageNormal])
                 (wire w ++ [ReqRun ("test -e " +:+ wd)]))).
  { intros b. unfold CheckWorkingDir, ParseCommand.
    change (Template.Parse "test -e {{.WorkingDirectory}}")
      with (Some [Template.TextNode "test -e ";
                  Template.ActionNode (FStr WorkingDirectory)]).
    change (Template.Parse "mkdir -p {{.WorkingDirectory}}")
      with (Some [Template.TextNode "mkdir -p ";
                  Template.ActionNode (FStr WorkingDirectory)]).
    cbv iota.
    cbn [Template.Execute Template.exec_node Template.print_field].
    rewrite !app_empty_r. fold wd.
    rewrite bind_eq. unfold ret at 1. cbn iota.
    rewrite bind_eq. unfold SendMessage at 1. cbn iota. rewrite bind_eq.
    erewrite Exec_run; [| exact Hc | exact Hs | exact Hr].
    cbn [fst snd client host localfs output wire]. rewrite He.
    destruct b; cbn [negb]; [|reflexivity].
    rewrite bind_eq. unfold ret at 1. reflexivity. }
  split.
  - rewrite (Hstart false). cbn [negb].
    unfold bind, SendMessage, ret. cbn [fst snd wire]. now split.
  - intros h3 h4 r2 Hs2 Hr2.
    assert (Hfull : exists w',
               CheckWorkingDir s true w = (Ok (run_err r2), w')
               /\ wire w' = wire w ++ [ReqRun ("test -e " +:+ wd);
                                       ReqRun ("mkdir -p " +:+ wd)]).
    { rewrite (Hstart true). cbn [negb].
      rewrite bind_eq. unfold SendMessage at 1. cbn iota. rewrite bind_eq.
      erewrite Exec_run; [| exact Hc | exact Hs2 | exact Hr2].
      cbn [fst snd client host localfs output wire].
      destruct (run_err r2); unfold bind, SendMessage, ret;
        cbn [fst snd]; eexists; (split; [reflexivity|]); cbn [wire];
        now rewrite <- app_assoc. }
    destruct Hfull as (w' & -> & Hw). now split.
Qed.

End CheckFacts.

Lemma CheckLingering_matches_whole_lines_witness :
  (fst (CheckLingering example_service linger_world) = Ok None
   <-> "pioz" ∈ ["pioz"; "root"])
  /\ ("pioz" ∉ ["pioz"; "root"] ->
      fst (CheckLingering example_service linger_world)
      = Ok (Some (ErrorString
                    ("user `" +:+ "pioz"
                     +:+ "` is not in the linger list. You can add it with the command `sudo loginctl enable-linger "
                     +:+ "pioz" +:+ "`")))).
Proof.
  apply (CheckLingering_matches_whole_lines example_service linger_world
           (host linger_world) (host linger_world)
           (mkRun ("pioz" +:+ nl +:+ "root" +:+ nl) "" None)
           ["pioz"; "root"]).
  - reflexivity.
  - reflexivity.
  - reflexivity.
  - reflexivity.
  - apply (bool_decide_unpack _). vm_compute. exact I.
  - reflexivity.
  - reflexivity.
Defined.

Lemma CheckWorkingDir_creates_when_asked_witness :
  (fst (CheckWorkingDir example_service false failing_world)
   = Ok (Some (TransportError "Process exited with status 1"))
   /\ wire (snd (CheckWorkingDir example_service false failing_world))
      = [ReqRun "test -e /srv"])
  /\ (forall h3 h4 r2,
        NewSession (failing_host 4) = (None, h3) ->
        Run "mkdir -p /srv" h3 = (r2, h4) ->
        fst (CheckWorkingDir example_service true failing_world)
        = Ok (run_err r2)
        /\ wire (snd (CheckWorkingDir example_service true failing_world))
           = [ReqRun "test -e /srv"; ReqRun "mkdir -p /srv"]).
Proof.
  apply (CheckWorkingDir_creates_when_asked example_service failing_world
           (failing_host 4) (failing_host 4)
           (mkRun "" ("sh: command failed" +:+ nl)
                  (Some (TransportError "Process exited with status 1")))
           (TransportError "Process exited with status 1")).
  - reflexivity.
  - reflexivity.
  - reflexivity.
  - reflexivity.
Defined.

(** ** [MakeService]: defaults and the cache *)

Section MakeServiceMore.
Context {H : Type} `{Remote H}.
Variable local : Local.

Lemma query_if_empty_keeps (s : Service) (f : sfield) (cmd : string)
      (c c' : Conf) (w w' : World H) :
  query_if_empty s f cmd c w = (Ok c', w') ->
  (str c f <> "" -> c' = c)
  /\ int c' = int c /\ CopyFiles c' = CopyFiles c /\ Ignore c' = Ignore c.
Proof.
  unfold query_if_empty. intros Hq.
  destruct (String.eqb (str c f) "") eqn:E.
  - apply String.eqb_eq in E. apply bind_Ok in Hq as (r & w1 & _ & Hk).
    destruct (snd r); injection Hk as <- _; now repeat split.
  - injection Hq as <- _. now repeat split.
Qed.

(** What a call that made a new service went through. *)
Lemma MakeService_made (r r' : Runner) (serviceName : string) (c : Conf)
      (s : Service) (w w' : World H) :
  services r !! serviceName = None ->
  runner_conf r !! serviceName = Some c ->
  MakeService local r serviceName w = (Ok (inl s, r'), w') ->
  exists c1 c5 pwd,
    validateConf r c = None
    /\ c1 = default_str PrivateKeyPath
              (Filepath.Join [env_HOME local; "/.ssh/id_rsa"])
              (default_str Port "22"
                 (if String.eqb (str c User) ""
                  then match current_user local with
                       | Some u => set_str User u c
                       | None => c
                       end
                  else c))
    /\ (forall g, g <> GoBinDirectory -> g <> GoExecPath ->
                  str c5 g = str c1 g)
    /\ (str c1 GoBinDirectory <> "" ->
        str c5 GoBinDirectory = str c1 GoBinDirectory)
    /\ (str c1 GoExecPath <> "" -> str c5 GoExecPath = str c1 GoExecPath)
    /\ str c5 GoBinDirectory <> ""
    /\ int c5 = int c1 /\ CopyFiles c5 = CopyFiles c1 /\ Ignore c5 = Ignore c1
    /\ (let c9 :=
          default_str SystemdLingerDirectory "/var/lib/systemd/linger"
            (default_str SystemdServicesDirectory
               (Filepath.Join [pwd; ".config/systemd/user"])
               (default_str SystemdPath "systemd"
                  (default_str GoExecPath
                     (Filepath.Join [str c5 GoBinDirectory; "go"]) c5))) in
        let c10 :=
          if String.eqb (str c9 ExecStart) "" then
            if negb (String.eqb (getExec (str c9 GoInstall)) "")
            then set_str ExecStart
                   (Filepath.Join [str c9 GoBinDirectory;
                                   getExec (str c9 GoInstall)]) c9
            else c9
          else c9 in
        let c11 := default_str WorkingDirectory pwd c10 in
        s = mkService serviceName c11 pwd (runner_confFilePath r)
        /\ r' = store_service (store_conf r serviceName c11) serviceName s).
Proof.
  intros Hcache Hconf Hmake. unfold MakeService in Hmake.
  rewrite Hcache, Hconf in Hmake.
  destruct (validateConf r c) eqn:Ev; [discriminate|].
  set (c1 := default_str PrivateKeyPath _ _) in Hmake.
  destruct (ReadFile local _); [|discriminate].
  destruct (ParsePrivateKey local _); [discriminate|].
  apply bind_Ok in Hmake as (err & w1 & _ & Hmake).
  destruct err; [discriminate|].
  apply bind_Ok in Hmake as ([] & w2 & _ & Hmake).
  apply bind_Ok in Hmake as (p & w3 & _ & Hmake).
  destruct (snd p); [discriminate|].
  apply bind_Ok in Hmake as (c2 & w4 & Hq1 & Hmake).
  apply bind_Ok in Hmake as (c3 & w5 & Hq2 & Hmake).
  destruct (String.eqb (str c3 GoBinDirectory) "") eqn:Eb; [discriminate|].
  apply bind_Ok in Hmake as (c4 & w6 & Hq3 & Hmake).
  apply bind_Ok in Hmake as (c5 & w7 & Hq4 & Hmake).
  exists c1, c5, (fst p).
  pose proof (query_if_empty_keeps _ _ _ _ _ _ _ Hq1) as (K1 & I1 & F1 & G1).
  pose proof (query_if_empty_keeps _ _ _ _ _ _ _ Hq2) as (K2 & I2 & F2 & G2).
  pose proof (query_if_empty_keeps _ _ _ _ _ _ _ Hq3) as (K3 & I3 & F3 & G3).
  pose proof (query_if_empty_keeps _ _ _ _ _ _ _ Hq4) as (K4 & I4 & F4 & G4).
  assert (Hb45 : str c5 GoBinDirectory = str c3 GoBinDirectory).
  { rewrite (query_if_empty_other _ _ GoBinDirectory _ _ _ _ _ Hq4)
      by discriminate.
    now rewrite (query_if_empty_other _ _ GoBinDirectory _ _ _ _ _ Hq3)
      by discriminate. }
  split; [reflexivity|]. split; [reflexivity|]. split.
  { intros g Hb He.
    rewrite (query_if_empty_other _ _ g _ _ _ _ _ Hq4 He).
    rewrite (query_if_empty_other _ _ g _ _ _ _ _ Hq3 He).
    rewrite (query_if_empty_other _ _ g _ _ _ _ _ Hq2 Hb).
    now rewrite (query_if_empty_other _ _ g _ _ _ _ _ Hq1 Hb). }
  split.
  { intros Hne. rewrite Hb45. rewrite (K1 Hne) in *. now rewrite (K2 Hne). }
  split.
  { intros Hne.
    assert (H3 : str c3 GoExecPath = str c1 GoExecPath).
    { rewrite (query_if_empty_other _ _ GoExecPath _ _ _ _ _ Hq2)
        by discriminate.
      now rewrite (query_if_empty_other _ _ GoExecPath _ _ _ _ _ Hq1)
        by discriminate. }
    rewrite <- H3 in Hne. rewrite (K3 Hne) in *. rewrite (K4 Hne). exact H3. }
  split.
  { rewrite Hb45. now apply String.eqb_neq. }
  split; [congruence|]. split; [congruence|]. split; [congruence|].
  cbv zeta. injection Hmake as <- <- _. split; reflexivity.
Qed.

(** X15. [MakeService] caches the services it makes: after a call that
    returned a service, a second call for the same name returns the same
    service from the cache and does nothing else: the runner and the world
    are as they were. *)
Theorem MakeService_caches (r r' : Runner) (serviceName : string)
        (s : Service) (w w' : World H) :
  MakeService local r serviceName w = (Ok (inl s, r'), w') ->
  forall w2, MakeService local r' serviceName w2 = (Ok (inl s, r'), w2).
Proof.
  intros Hm w2.
  assert (Hc : services r' !! serviceName = Some s).
  { destruct (services r !! serviceName) as [s0|] eqn:E.
    - unfold MakeService in Hm. rewrite E in Hm. injection Hm as <- <-.
      exact E.
    - destruct (runner_conf r !! serviceName) as [c|] eqn:Ec.
      + destruct (MakeService_made r r' serviceName c s w w' E Ec Hm)
          as (c1 & c5 & pwd & _ & _ & _ & _ & _ & _ & _ & _ & _ & Hfin).
        cbv zeta in Hfin. destruct Hfin as [_ ->].
        cbn [services store_service]. apply lookup_insert_eq.
      + unfold MakeService in Hm. rewrite E, Ec in Hm. discriminate. }
  unfold MakeService. now rewrite Hc.
Qed.

(** X16. [MakeService] only fills in what the configuration leaves unset:
    in the service it makes, every string field that was set keeps its
    value, and the numbers, the list of files to copy and the flag
    [ignore] are those of the configuration. *)
Theorem MakeService_keeps_configured_values (r r' : Runner)
        (serviceName : string) (c : Conf) (s : Service) (w w' : World H) :
  services r !! serviceName = None ->
  runner_conf r !! serviceName = Some c ->
  MakeService local r serviceName w = (Ok (inl s, r'), w') ->
  (forall g, str c g <> "" -> str (conf s) g = str c g)
  /\ (forall g, int (conf s) g = int c g)
  /\ CopyFiles (conf s) = CopyFiles c
  /\ Ignore (conf s) = Ignore c.
Proof.
  intros Hcache Hconf Hm.
  destruct (MakeService_made r r' serviceName c s w w' Hcache Hconf Hm)
    as (c1 & c5 & pwd & _ & Hc1 & Hoth & Hbin & Hexe & _ & Hi & Hf & Hg & Hfin).
  cbv zeta in Hfin. destruct Hfin as [-> _]. cbn [conf].
  assert (Hd : forall f v x g, str x g <> "" ->
                 str (default_str f v x) g = str x g).
  { intros f v x g Hne. unfold default_str.
    destruct (String.eqb (str x f) "") eqn:E; [|reflexivity].
    apply String.eqb_eq in E. rewrite str_set_str.
    destruct (decide (g = f)) as [->|]; [contradiction | reflexivity]. }
  assert (Hdi : forall f v x, int (default_str f v x) = int x
                              /\ CopyFiles (default_str f v x) = CopyFiles x
                              /\ Ignore (default_str f v x) = Ignore x).
  { intros f v x. unfold default_str.
    now destruct (String.eqb (str x f) ""). }
  assert (H1 : forall g, str c g <> "" -> str c1 g = str c g).
  { intros g Hne. rewrite Hc1.
    assert (Hu : str (if String.eqb (str c User) ""
                      then match current_user local with
                           | Some u => set_str User u c
                           | None => c
                           end
                      else c) g = str c g).
    { destruct (String.eqb (str c User) "") eqn:E; [|reflexivity].
      apply String.eqb_eq in E.
      destruct (current_user local); [|reflexivity].
      rewrite str_set_str.
      destruct (decide (g = User)) as [->|]; [contradiction | reflexivity]. }
    assert (Hk : forall f v x, str x g = str c g ->
                               str (default_str f v x) g = str c g).
    { intros f v x Hx. rewrite Hd; [exact Hx | now rewrite Hx]. }
    do 2 apply Hk. exact Hu. }
  assert (H5 : forall g, str c g <> "" -> str c5 g = str c g).
  { intros g Hne. pose proof (H1 g Hne) as Hg1.
    destruct (decide (g = GoBinDirectory)) as [->|Hb];
      [rewrite Hbin; [exact Hg1 | now rewrite Hg1]|].
    destruct (decide (g = GoExecPath)) as [->|He];
      [rewrite Hexe; [exact Hg1 | now rewrite Hg1]|].
    now rewrite Hoth. }
  split; [|split; [|split]].
  - intros g Hne. pose proof (H5 g Hne) as Hg5.
    assert (Hk : forall f v x, str x g = str c g ->
                               str (default_str f v x) g = str c g).
    { intros f v x Hx. rewrite Hd; [exact Hx | now rewrite Hx]. }
    set (c9 := default_str SystemdLingerDirectory _ _).
    assert (H9 : str c9 g = str c g).
    { unfold c9. do 4 apply Hk. exact Hg5. }
    apply Hk.
    destruct (String.eqb (str c9 ExecStart) "") eqn:E; [|exact H9].
    destruct (negb (String.eqb (getExec (str c9 GoInstall)) ""));
      [|exact H9].
    apply String.eqb_eq in E. rewrite str_set_str.
    destruct (decide (g = ExecStart)) as [->|]; [|exact H9].
    rewrite H9 in E. contradiction.
  - intros g.
    assert (Hi1 : int c1 = int c).
    { rewrite Hc1. rewrite !(proj1 (Hdi _ _ _)).
      destruct (String.eqb (str c User) ""); [|reflexivity].
      now destruct (current_user local). }
    rewrite (proj1 (Hdi _ _ _)).
    match goal with
    | |- int (if ?b then _ else _) g = _ =>
        destruct b; [destruct (negb _)|]
    end; cbn [int set_str]; rewrite ?(proj1 (Hdi _ _ _)); congruence.
  - assert (Hf1 : CopyFiles c1 = CopyFiles c).
    { rewrite Hc1. rewrite !(proj1 (proj2 (Hdi _ _ _))).
      destruct (String.eqb (str c User) ""); [|reflexivity].
      now destruct (current_user local). }
    rewrite (proj1 (proj2 (Hdi _ _ _))).
    match goal with
    | |- CopyFiles (if ?b then _ else _) = _ =>
        destruct b; [destruct (negb _)|]
    end; cbn [CopyFiles set_str];
      rewrite ?(proj1 (proj2 (Hdi _ _ _))); congruence.
  - assert (Hg1 : Ignore c1 = Ignore c).
    { rewrite Hc1. rewrite !(proj2 (proj2 (Hdi _ _ _))).
      destruct (String.eqb (str c User) ""); [|reflexivity].
      now destruct (current_user local). }
    rewrite (proj2 (proj2 (Hdi _ _ _))).
    match goal with
    | |- Ignore (if ?b then _ else _) = _ =>
        destruct b; [destruct (negb _)|]
    end; cbn [Ignore set_str];
      rewrite ?(proj2 (proj2 (Hdi _ _ _))); congruence.
Qed.

Lemma default_str_same (f : sfield) (v : string) (c : Conf) :
  str (default_str f v c) f = if String.eqb (str c f) "" then v else str c f.
Proof.
  unfold default_str. destruct (String.eqb (str c f) ""); [|reflexivity].
  rewrite str_set_str. now destruct (decide (f = f)).
Qed.

(** X17. The defaults of [MakeService].  In the service it makes, a port
    that was not configured is [22], the key is [.ssh/id_rsa] under the
    local [HOME], the systemd executable is [systemd], the directory of the
    unit files is [.config/systemd/user] under the directory [pwd] printed
    on the host, the linger directory is [/var/lib/systemd/linger] and the
    working directory is that remote directory; the go binary directory is
    never empty. *)
Theorem MakeService_defaults (r r' : Runner) (serviceName : string)
        (c : Conf) (s : Service) (w w' : World H) :
  services r !! serviceName = None ->
  runner_conf r !! serviceName = Some c ->
  MakeService local r serviceName w = (Ok (inl s, r'), w') ->
  Name s = serviceName
  /\ (str c Port = "" -> str (conf s) Port = "22")
  /\ (str c PrivateKeyPath = "" ->
      str (conf s) PrivateKeyPath
      = Filepath.Join [env_HOME local; "/.ssh/id_rsa"])
  /\ (str c SystemdPath = "" -> str (conf s) SystemdPath = "systemd")
  /\ (str c SystemdServicesDirectory = "" ->
      str (conf s) SystemdServicesDirectory
      = Filepath.Join [remoteHomeDir s; ".config/systemd/user"])
  /\ (str c SystemdLingerDirectory = "" ->
      str (conf s) SystemdLingerDirectory = "/var/lib/systemd/linger")
  /\ (str c WorkingDirectory = "" ->
      str (conf s) WorkingDirectory = remoteHomeDir s)
  /\ str (conf s) GoBinDirectory <> "".
Proof.
  intros Hcache Hconf Hm.
  destruct (MakeService_made r r' serviceName c s w w' Hcache Hconf Hm)
    as (c1 & c5 & pwd & _ & Hc1 & Hoth & _ & _ & Hbin & _ & _ & _ & Hfin).
  cbv zeta in Hfin. destruct Hfin as [-> _]. cbn [conf Name remoteHomeDir].
  set (cU := if String.eqb (str c User) ""
             then match current_user local with
                  | Some u => set_str User u c
                  | None => c
                  end
             else c) in Hc1.
  assert (HU : forall g, g <> User -> str cU g = str c g).
  { intros g Hg. unfold cU. destruct (String.eqb (str c User) "");
      [|reflexivity].
    destruct (current_user local); [|reflexivity].
    rewrite str_set_str. now destruct (decide (g = User)). }
  assert (H1 : forall g, g <> User -> g <> Port -> g <> PrivateKeyPath ->
                         str c1 g = str c g).
  { intros g Hu Hp Hk. rewrite Hc1, !default_str_other by assumption.
    now apply HU. }
  set (c9 := default_str SystemdLingerDirectory _ _).
  set (c10 := if String.eqb (str c9 ExecStart) "" then _ else _).
  assert (H10 : forall g, g <> ExecStart -> str c10 g = str c9 g).
  { intros g Hg. unfold c10. destruct (String.eqb (str c9 ExecStart) "");
      [|reflexivity].
    destruct (negb _); [|reflexivity].
    rewrite str_set_str. now destruct (decide (g = ExecStart)). }
  split; [reflexivity|].
  split; [|split; [|split; [|split; [|split; [|split]]]]].
  - intros He. rewrite default_str_other, H10 by discriminate.
    unfold c9. rewrite !default_str_other by discriminate.
    rewrite Hoth by discriminate.
    rewrite Hc1, default_str_other, default_str_same by discriminate.
    rewrite HU, He by discriminate. reflexivity.
  - intros He. rewrite default_str_other, H10 by discriminate.
    unfold c9. rewrite !default_str_other by discriminate.
    rewrite Hoth by discriminate.
    rewrite Hc1, default_str_same, default_str_other by discriminate.
    rewrite HU, He by discriminate. reflexivity.
  - intros He. rewrite default_str_other, H10 by discriminate.
    unfold c9. rewrite !default_str_other by discriminate.
    rewrite default_str_same, default_str_other by discriminate.
    rewrite Hoth, H1, He by discriminate. reflexivity.
  - intros He. rewrite default_str_other, H10 by discriminate.
    unfold c9. rewrite default_str_other by discriminate.
    rewrite default_str_same, !default_str_other by discriminate.
    rewrite Hoth, H1, He by discriminate. reflexivity.
  - intros He. rewrite default_str_other, H10 by discriminate.
    unfold c9. rewrite default_str_same, !default_str_other by discriminate.
    rewrite Hoth, H1, He by discriminate. reflexivity.
  - intros He. rewrite default_str_same, H10 by discriminate.
    unfold c9. rewrite !default_str_other by discriminate.
    rewrite Hoth, H1, He by discriminate. reflexivity.
  - rewrite default_str_other, H10 by discriminate.
    unfold c9. rewrite !default_str_other by discriminate. exact Hbin.
Qed.

(** X18. A service whose working directory was not configured gets the
    login directory of the host, the very string the test in [DeleteFiles]
    compares with: for such a service the block of [DeleteFiles] that
    removes the working directory sends no message and no request. *)
Theorem default_working_directory_is_kept (r r' : Runner)
        (serviceName : string) (c : Conf) (s : Service) (w w' : World H) :
  services r !! serviceName = None ->
  runner_conf r !! serviceName = Some c ->
  MakeService local r serviceName w = (Ok (inl s, r'), w') ->
  str c WorkingDirectory = "" ->
  forall w2, DeleteFiles_workdir s w2 = (Ok tt, w2).
Proof.
  intros Hcache Hconf Hm He w2.
  destruct (MakeService_made r r' serviceName c s w w' Hcache Hconf Hm)
    as (c1 & c5 & pwd & _ & Hc1 & Hoth & _ & _ & _ & _ & _ & _ & Hfin).
  cbv zeta in Hfin. destruct Hfin as [-> _].
  unfold DeleteFiles_workdir. cbn [conf remoteHomeDir].
  set (c9 := default_str SystemdLingerDirectory _ _).
  set (c10 := if String.eqb (str c9 ExecStart) "" then _ else _).
  assert (H10 : str c10 WorkingDirectory = "").
  { assert (H9 : str c9 WorkingDirectory = "").
    { unfold c9. rewrite !default_str_other by discriminate.
      rewrite Hoth by discriminate.
      rewrite Hc1, !default_str_other by discriminate.
      destruct (String.eqb (str c User) ""); [|exact He].
      destruct (current_user local); [|exact He].
      rewrite str_set_str.
      now destruct (decide (WorkingDirectory = User)). }
    unfold c10. destruct (String.eqb (str c9 ExecStart) ""); [|exact H9].
    destruct (negb _); [|exact H9].
    rewrite str_set_str.
    now destruct (decide (WorkingDirectory = ExecStart)). }
  rewrite default_str_same, H10. cbn [String.eqb].
  now rewrite String.eqb_refl.
Qed.

(** X19. [MakeService] refuses a name without configuration, and a
    configuration without host or without package, before it reads the key
    or connects: the error is returned with the runner and the world as
    they were. *)
Theorem MakeService_rejects_before_connecting (r : Runner)
        (serviceName : string) (w : World H) :
  services r !! serviceName = None ->
  (runner_conf r !! serviceName = None ->
   MakeService local r serviceName w
   = (Ok (inr (ErrorString
                 ("configuration for service `" +:+ serviceName
                  +:+ "` was not found. Please add service configuration in `"
                  +:+ runner_confFilePath r +:+ "` file")), r), w))
  /\ (forall c, runner_conf r !! serviceName = Some c ->
       str c Host = "" \/ str c GoInstall = "" ->
       exists e, MakeService local r serviceName w = (Ok (inr e, r), w)).
Proof.
  intros Hcache. split.
  - intros Hnone. unfold MakeService. now rewrite Hcache, Hnone.
  - intros c Hc Hmiss. unfold MakeService. rewrite Hcache, Hc.
    unfold validateConf.
    destruct (String.eqb (str c Host) "") eqn:E1; [eauto|].
    destruct (String.eqb (str c GoInstall) "") eqn:E2; [eauto|].
    apply String.eqb_neq in E1, E2. now destruct Hmiss.
Qed.

End MakeServiceMore.

Lemma MakeService_caches_witness :
  MakeService example_local
    (made_runner (MakeService example_local
                    (example_runner "github.com/pioz/srv@latest") "srv"
                    fresh_world))
    "srv" example_world
  = (Ok (inl (made_service (MakeService example_local
                              (example_runner "github.com/pioz/srv@latest")
                              "srv" fresh_world)),
         made_runner (MakeService example_local
                        (example_runner "github.com/pioz/srv@latest") "srv"
                        fresh_world)),
     example_world).
Proof.
  set (run := MakeService example_local
                (example_runner "github.com/pioz/srv@latest") "srv" fresh_world).
  apply (MakeService_caches example_local
           (example_runner "github.com/pioz/srv@latest") (made_runner run)
           "srv" (made_service run) fresh_world (snd run)).
  vm_compute. reflexivity.
Defined.

Lemma MakeService_keeps_configured_values_witness :
  str (conf (made_service
               (MakeService example_local
                  (example_runner "github.com/pioz/srv@latest") "srv"
                  fresh_world))) Host
  = "119.178.21.21".
Proof.
  set (run := MakeService example_local
                (example_runner "github.com/pioz/srv@latest") "srv" fresh_world).
  destruct (MakeService_keeps_configured_values example_local
              (example_runner "github.com/pioz/srv@latest") (made_runner run)
              "srv" (yaml_conf "github.com/pioz/srv@latest")
              (made_service run) fresh_world (snd run))
    as (Hstr & _).
  - reflexivity.
  - vm_compute. reflexivity.
  - vm_compute. reflexivity.
  - rewrite (Hstr Host); [reflexivity|].
    apply (bool_decide_unpack _). vm_compute. exact I.
Defined.

Lemma MakeService_defaults_witness :
  str (conf (made_service
               (MakeService example_local
                  (example_runner "github.com/pioz/srv@latest") "srv"
                  fresh_world))) Port
  = "22"
  /\ str (conf (made_service
                  (MakeService example_local
                     (example_runner "github.com/pioz/srv@latest") "srv"
                     fresh_world))) WorkingDirectory
     = "/home/pioz".
Proof.
  set (run := MakeService example_local
                (example_runner "github.com/pioz/srv@latest") "srv" fresh_world).
  destruct (MakeService_defaults example_local
              (example_runner "github.com/pioz/srv@latest") (made_runner run)
              "srv" (yaml_conf "github.com/pioz/srv@latest")
              (made_service run) fresh_world (snd run))
    as (_ & Hport & _ & _ & _ & _ & Hwd & _).
  - reflexivity.
  - vm_compute. reflexivity.
  - vm_compute. reflexivity.
  - split; [now apply Hport|]. rewrite Hwd; [|reflexivity].
    vm_compute. reflexivity.
Defined.

Lemma default_working_directory_is_kept_witness :
  DeleteFiles_workdir
    (made_service (MakeService example_local
                     (example_runner "github.com/pioz/srv@latest") "srv"
                     fresh_world))
    example_world
  = (Ok tt, example_world).
Proof.
  set (run := MakeService example_local
                (example_runner "github.com/pioz/srv@latest") "srv" fresh_world).
  apply (default_working_directory_is_kept example_local
           (example_runner "github.com/pioz/srv@latest") (made_runner run)
           "srv" (yaml_conf "github.com/pioz/srv@latest")
           (made_service run) fresh_world (snd run)).
  - reflexivity.
  - vm_compute. reflexivity.
  - vm_compute. reflexivity.
  - reflexivity.
Defined.

Lemma MakeService_rejects_before_connecting_witness :
  MakeService example_local (example_runner "github.com/pioz/srv@latest")
              "web" fresh_world
  = (Ok (inr (ErrorString
                "configuration for service `web` was not found. Please add service configuration in `.god.yml` file"),
         example_runner "github.com/pioz/srv@latest"),
     fresh_world).
Proof.
  destruct (MakeService_rejects_before_connecting example_local
              (example_runner "github.com/pioz/srv@latest") "web" fresh_world)
    as [Hnone _].
  - reflexivity.
  - apply Hnone. vm_compute. reflexivity.
Defined.

(** ** Names in the environment *)

Section EnvNameMore.

Lemma env_char_trim (c : ascii) : env_char (upper_byte (trim c)) = true.
Proof. destruct c as [[] [] [] [] [] [] [] []]; reflexivity. Qed.

Lemma env_char_fixed (c : ascii) :
  env_char c = true ->
  (if is_alnum c then upper_byte c else "_"%char) = c
  /\ (nat_of_ascii c <? 128)%nat = true.
Proof. destruct c as [[] [] [] [] [] [] [] []]; cbv; intros; split; congruence. Qed.

Lemma Map_trim_env_chars (s : string) :
  forall skip, all_env_chars (ToUpper (Map_trim skip s)) = true.
Proof.
  induction s as [|c s IH]; intros skip; [reflexivity|].
  cbn [Map_trim]. destruct skip as [|k]; [|apply IH].
  destruct (Utf8.rune_width (String c s) =? 1)%nat;
    cbn [ToUpper all_env_chars]; rewrite IH.
  - now rewrite env_char_trim.
  - reflexivity.
Qed.

Lemma all_env_chars_fixed (s : string) :
  all_env_chars s = true -> upper_or_underscore s = s /\ ascii_only s = true.
Proof.
  induction s as [|c s IH]; [easy|]. cbn [all_env_chars].
  intros [Hc Hs]%andb_true_iff. destruct (IH Hs) as [IH1 IH2].
  destruct (env_char_fixed c Hc) as [Hf Ha].
  cbn [upper_or_underscore ascii_only]. now rewrite Hf, IH1, Ha, IH2.
Qed.

(** X20. Whatever the name of the service, the prefix
    [serviceNameToEnvName] gives is a name a shell accepts for a variable:
    it is made of upper-case letters, digits and underscores and does not
    start with a digit; it is empty only for the empty name; and the
    function changes nothing in a name it produced. *)
Theorem serviceNameToEnvName_is_identifier (name : string) :
  env_identifier (serviceNameToEnvName name) = true
  /\ (serviceNameToEnvName name = "" <-> name = "")
  /\ serviceNameToEnvName (serviceNameToEnvName name)
     = serviceNameToEnvName name.
Proof.
  assert (Hshape : env_identifier (serviceNameToEnvName name) = true
                   /\ (serviceNameToEnvName name = "" <-> name = "")).
  { unfold serviceNameToEnvName, env_identifier.
    destruct name as [|c s]; [easy|]. cbn [String.length Nat.eqb].
    pose proof (Map_trim_env_chars (String c s) 0) as Hall.
    destruct (ToUpper (Map_trim 0 (String c s))) as [|c0 s0] eqn:E.
    { exfalso. cbn [Map_trim] in E.
      destruct (Utf8.rune_width (String c s) =? 1)%nat; discriminate. }
    destruct (Utf8.between 48 57 c0) eqn:Ed.
    - split; [|easy].
      change ("_" +:+ String c0 s0) with (String "_" (String c0 s0)).
      cbn [all_env_chars] in Hall |- *. now rewrite Hall.
    - split; [|easy]. now rewrite Hall, Ed. }
  destruct Hshape as [Hid Hempty]. split; [exact Hid|]. split; [exact Hempty|].
  set (e := serviceNameToEnvName name) in *.
  unfold env_identifier in Hid. apply andb_true_iff in Hid as [Hall Hfirst].
  destruct (all_env_chars_fixed e Hall) as [Hfix Hascii].
  rewrite (serviceNameToEnvName_spec e Hascii). unfold env_name_spec.
  destruct e as [|c0 s0]; [reflexivity|].
  apply negb_true_iff in Hfirst. now rewrite Hfirst.
Qed.

End EnvNameMore.

Section SelectionFacts.

Lemma GetServiceNames_spec (r : Runner) (name : string) :
  name ∈ GetServiceNames r
  <-> exists c, runner_conf r !! name = Some c /\ Ignore c = false.
Proof.
  unfold GetServiceNames. rewrite list_elem_of_fmap. split.
  - intros ([k c] & -> & Hin). apply list_elem_of_filter in Hin as [Hi Hin].
    apply elem_of_map_to_list in Hin. now exists c.
  - intros (c & Hc & Hi). exists (name, c). split; [reflexivity|].
    apply list_elem_of_filter. split; [exact Hi|].
    now apply elem_of_map_to_list.
Qed.

(** X21. The services [GetServiceNames] selects are those of the
    configuration that are not ignored, each once; and the environment has
    no say in it: the selection from a configuration is the same before and
    after [loadConfFromEnv]. *)
Theorem GetServiceNames_selection (r : Runner) (env : gmap string string)
        (name : string) :
  (name ∈ GetServiceNames r
   <-> exists c, runner_conf r !! name = Some c /\ Ignore c = false)
  /\ NoDup (GetServiceNames r)
  /\ (name ∈ GetServiceNames
               (mkRunner (QuietMode r) (runner_confFilePath r)
                         (loadConfFromEnv env (runner_conf r)) (services r))
      <-> name ∈ GetServiceNames r).
Proof.
  split; [apply GetServiceNames_spec|]. split.
  - unfold GetServiceNames.
    apply (NoDup_fmap_fst _).
    + intros k c1 c2 [_ H1]%list_elem_of_filter [_ H2]%list_elem_of_filter.
      apply elem_of_map_to_list in H1, H2. congruence.
    + apply NoDup_filter, NoDup_map_to_list.
  - rewrite !GetServiceNames_spec. cbn [runner_conf].
    unfold loadConfFromEnv. rewrite map_lookup_imap.
    destruct (runner_conf r !! name) as [c|] eqn:Ec; cbn [mbind option_bind].
    + pose proof (proj2 (load_fields_rest env name struct_fields c)) as Hig.
      split.
      * intros (c' & Heq & Hi). exists c. split; [reflexivity|].
        apply (inj Some) in Heq. rewrite <- Heq, Hig in Hi. exact Hi.
      * intros (c' & Heq & Hi). apply (inj Some) in Heq. subst c'.
        eexists. split; [reflexivity|]. now rewrite Hig.
    + split; intros (c' & Hc' & _); discriminate.
Qed.


End SelectionFacts.


(** ** The unit file and the files to copy *)

Section UnitFileMore.
Context {H : Type} `{Remote H}.

(** X23. The unit file is written, shown and removed as one file: when
    [CopyUnitServiceFile] returns no error it has created the file named
    after the service in the directory of the unit files and written the
    text [buf] to it; that text is what [ShowServiceFile] sends as its one
    message, without a request to the host, and that path is what
    [DeleteServiceFile] removes. *)
Theorem unit_file_written_shown_removed (s : Service) (w w1 : World H) :
  CopyUnitServiceFile s w = (Ok None, w1) ->
  let filename :=
    Filepath.Join [str (conf s) SystemdServicesDirectory;
                   Name s +:+ ".service"] in
  exists buf,
    wire w1 = wire w ++ [ReqCreate filename; ReqWrite filename buf]
    /\ (forall w2 : World H,
          ShowServiceFile s w2
          = (Ok tt,
             mkWorld (host w2) (localfs w2) (client w2)
                     (output w2 ++ [Message (Name s) buf MessageNormal])
                     (wire w2)))
    /\ (forall (w2 : World H) (h1 : H),
          SshClient (client w2) = true ->
          NewSession (host w2) = (None, h1) ->
          wire (snd (DeleteServiceFile s w2))
          = wire w2 ++ [ReqRun ("rm " +:+ filename)]).
Proof.
  intros Hcopy filename. unfold CopyUnitServiceFile in Hcopy.
  fold filename in Hcopy.
  apply bind_Ok in Hcopy as (err & w0 & Hconn & Hcopy).
  destruct (ConnectSftpClient_wire _ _ _ Hconn) as [Hw0 _].
  destruct err as [e|]; [discriminate|].
  apply bind_Ok in Hcopy as (buf & w0' & Hgen & Hcopy).
  unfold GenerateServiceFile in Hgen.
  destruct (Template.Parse (Sprintf1 serviceTemplate (Name s))) as [tmpl|] eqn:Ep;
    [|discriminate].
  injection Hgen as Hbuf <-.
  apply bind_Ok in Hcopy as (err1 & w3 & Hcreate & Hcopy).
  destruct err1 as [e|]; [discriminate|].
  apply bind_Ok in Hcopy as (err2 & w4 & Hwrite & Hcopy).
  destruct err2 as [e|]; [discriminate|].
  injection Hcopy as <-.
  unfold with_SftClient in Hcreate.
  apply bind_Ok in Hcreate as (cl & w0'' & Hget & Hcreate).
  injection Hget as <- <-.
  destruct (SftClient (client w0)); [|discriminate].
  unfold request_host in Hcreate, Hwrite.
  destruct (SftpCreate filename (host w0)) as [x hx].
  injection Hcreate as _ <-.
  cbn [host] in Hwrite.
  destruct (SftpWrite filename buf hx) as [y hy].
  injection Hwrite as _ <-.
  exists buf. split; [|split].
  - cbn [wire]. now rewrite Hw0, <- app_assoc.
  - intros w2. unfold ShowServiceFile, GenerateServiceFile. rewrite Ep.
    rewrite bind_eq. unfold ret. cbn iota. now rewrite Hbuf.
  - intros w2 h1 Hc Hs. unfold DeleteServiceFile. fold filename.
    unfold PrintExec. rewrite bind_eq. unfold SendMessage at 1. cbn iota.
    rewrite bind_eq.
    destruct (Run ("rm " +:+ filename) h1) as [r h2] eqn:Hr.
    erewrite Exec_run; [| exact Hc | exact Hs | exact Hr].
    cbn [fst snd client host localfs output wire].
    destruct (run_err r); unfold bind, SendMessage, ret; reflexivity.
Qed.

(** X24. [CopyFiles] stops at the first path whose copy fails: it returns
    the error of that copy after a message that names the path, and the
    paths that follow are not looked at. *)
Theorem CopyFiles_stops_at_first_failure (s : Service)
        (done rest : list string) (path : string) (e : error)
        (w w1 w2 : World H) :
  CopyFiles (conf s) = done ++ path :: rest ->
  CopyFiles_loop s done
    (mkWorld (host w) (localfs w) (client w)
             (output w ++ [Message (Name s) "Copying files" MessageNormal])
             (wire w))
  = (Ok None, w1) ->
  CopyFile s path (str (conf s) WorkingDirectory) w1 = (Ok (Some e), w2) ->
  CopyFiles_step s w
  = (Ok (Some e),
     mkWorld (host w2) (localfs w2) (client w2)
             (output w2 ++
              [Message (Name s)
                       ("cannot copy file '" +:+ path +:+ "': " +:+ Error e)
                       MessageError])
             (wire w2)).
Proof.
  intros Hcf Hdone Hfail. unfold CopyFiles_step. rewrite Hcf.
  assert (Hlen : (0 <? length (done ++ path :: rest))%nat = true).
  { rewrite length_app. cbn [length]. apply Nat.ltb_lt. lia. }
  rewrite Hlen. rewrite bind_eq. unfold SendMessage at 1. cbn iota.
  rewrite bind_eq.
  assert (Hloop : forall l w0,
             CopyFiles_loop s l w0 = (Ok None, w1) ->
             CopyFiles_loop s (l ++ path :: rest) w0
             = (Ok (Some e),
                mkWorld (host w2) (localfs w2) (client w2)
                        (output w2 ++
                         [Message (Name s)
                                  ("cannot copy file '" +:+ path +:+ "': "
                                   +:+ Error e) MessageError])
                        (wire w2))).
  { induction l as [|p l IH]; intros w0 Hl.
    - injection Hl as ->. cbn [app CopyFiles_loop]. rewrite bind_eq, Hfail.
      unfold bind, SendMessage, ret. reflexivity.
    - cbn [app CopyFiles_loop] in Hl |- *. rewrite bind_eq in Hl |- *.
      destruct (CopyFile s p (str (conf s) WorkingDirectory) w0)
        as [[[e0|]|pn] w0'].
      + unfold bind, SendMessage, ret in Hl. discriminate.
      + now apply IH.
      + discriminate. }
  now rewrite (Hloop done _ Hdone).
Qed.

End UnitFileMore.

Lemma unit_file_written_shown_removed_witness :
  exists buf,
    wire (snd (CopyUnitServiceFile example_service unit_world))
    = [ReqCreate "/etc/systemd/user/srv.service";
       ReqWrite "/etc/systemd/user/srv.service" buf]
    /\ ShowServiceFile example_service example_world
       = (Ok tt,
          mkWorld example_host no_local_files (mkClient true false)
                  [Message "srv" buf MessageNormal] [])
    /\ wire (snd (DeleteServiceFile example_service example_world))
       = [ReqRun "rm /etc/systemd/user/srv.service"].
Proof.
  destruct (unit_file_written_shown_removed example_service unit_world
              (snd (CopyUnitServiceFile example_service unit_world)))
    as (buf & Hw & Hshow & Hrm).
  - vm_compute. reflexivity.
  - exists buf. split; [exact Hw|]. split.
    + exact (Hshow example_world).
    + exact (Hrm example_world example_host eq_refl eq_refl).
Defined.

Lemma CopyFiles_stops_at_first_failure_witness :
  CopyFiles_step copying_service failing_copy_world
  = (Ok (Some (StatusError 4 "failure")),
     mkWorld (failing_host 4) motd_files (mkClient true true)
       [Message "srv" "Copying files" MessageNormal;
        Message "srv" "cannot copy file 'etc/motd': failure" MessageError]
       [ReqCreate "/srv/motd"]).
Proof.
  apply (CopyFiles_stops_at_first_failure copying_service [] ["conf"]
           "etc/motd" (StatusError 4 "failure") failing_copy_world
           (mkWorld (failing_host 4) motd_files (mkClient true true)
                    [Message "srv" "Copying files" MessageNormal] [])
           (mkWorld (failing_host 4) motd_files (mkClient true true)
                    [Message "srv" "Copying files" MessageNormal]
                    [ReqCreate "/srv/motd"])).
  - reflexivity.
  - reflexivity.
  - vm_compute. reflexivity.
Defined.

(** ** The credential file, twice *)

Section NetrcTwice.

Lemma String_prefix_app (a b : string) : String.prefix a (a +:+ b) = true.
Proof.
  induction a as [|c a IH]; cbn [String.append].
  - now destruct b.
  - cbn [String.prefix]. destruct (ascii_dec c c); [exact IH | congruence].
Qed.

Lemma Contains_prefix (a b : string) : Contains (a +:+ b) a = true.
Proof.
  destruct a as [|c a].
  - cbn [String.append]. now destruct b.
  - cbn [String.append Contains]. change (String c (a +:+ b)) with (String c a +:+ b).
    now rewrite String_prefix_app.
Qed.

Lemma echo_to_netrc_text (txt : string) :
  Mem.echo_to_netrc ("echo '" +:+ txt +:+ "' > ~/.netrc") = Some txt.
Proof.
  unfold Mem.echo_to_netrc.
  assert (Hp : String.prefix "echo '" ("echo '" +:+ txt +:+ "' > ~/.netrc") = true)
    by apply String_prefix_app.
  rewrite Hp. rewrite <- app_assoc_str, HasSuffix_app. cbn [andb].
  rewrite !length_append. cbn [String.length].
  replace (6 + String.length txt + 12 - 18)%nat with (String.length txt) by lia.
  rewrite app_assoc_str.
  change 6%nat with (String.length "echo '") at 1.
  rewrite substring_app_r. now rewrite substring_app_l.
Qed.

Lemma run_cat (h : MemHost) (data : string) :
  rfs h !! (rhome h ++ [".netrc"]) = Some (RFile data) ->
  Mem.run "cat ~/.netrc" h = (mkRun data "" None, h).
Proof. intros Hf. unfold Mem.run. cbn [String.eqb Ascii.eqb Bool.eqb andb]. now rewrite Hf. Qed.

Lemma run_cat_missing (h : MemHost) :
  rfs h !! (rhome h ++ [".netrc"]) = None ->
  Mem.run "cat ~/.netrc" h
  = (mkRun "" ("cat: .netrc: No such file or directory" +:+ nl)
           (Some (TransportError "Process exited with status 1")), h).
Proof. intros Hf. unfold Mem.run. cbn [String.eqb Ascii.eqb Bool.eqb andb]. now rewrite Hf. Qed.

Lemma run_echo (h : MemHost) (txt : string) :
  rfs h !! (rhome h ++ [".netrc"]) <> Some RDir ->
  Mem.run ("echo '" +:+ txt +:+ "' > ~/.netrc") h
  = (mkRun "" "" None,
     mkMemHost (<[rhome h ++ [".netrc"] := RFile (txt +:+ nl)]> (rfs h))
               (rhome h) (shell h)).
Proof.
  intros Hf. unfold Mem.run.
  assert (He : String.eqb ("echo '" +:+ txt +:+ "' > ~/.netrc") "cat ~/.netrc"
               = false) by reflexivity.
  rewrite He, echo_to_netrc_text.
  destruct (rfs h !! (rhome h ++ [".netrc"])) as [[data|]|]; congruence.
Qed.

Lemma no_entry_in_cat_error (c : Conf) :
  Contains "cat: .netrc: No such file or directory" (netrc_entry c) = false.
Proof. reflexivity. Qed.

(** Once the entry is in the file the step reads the file and is done. *)
Lemma AuthPrivateRepo_settled (s : Service) (w : World MemHost) (data : string) :
  str (conf s) GoPrivate <> "" ->
  SshClient (client w) = true ->
  rfs (host w) !! (rhome (host w) ++ [".netrc"]) = Some (RFile data) ->
  Contains (TrimSuffix data nl) (netrc_entry (conf s)) = true ->
  AuthPrivateRepo s w
  = (Ok None,
     mkWorld (host w) (localfs w) (client w)
             (output w ++
              [Message (Name s) "GO_PRIVATE found: edit .netrc file"
                       MessageNormal;
               Message (Name s) "" MessageSuccess])
             (wire w ++ [ReqRun "cat ~/.netrc"])).
Proof.
  intros Hp Hc Hf Hin. unfold AuthPrivateRepo.
  rewrite (eqb_empty_false _ Hp). cbn [negb].
  rewrite bind_eq. unfold SendMessage at 1. cbn iota. rewrite bind_eq.
  erewrite Exec_run;
    [| exact Hc | reflexivity | exact (run_cat (host w) data Hf)].
  cbn [run_err run_stdout fst snd client host localfs output wire].
  rewrite Hin. cbn [negb].
  unfold bind, ret, SendMessage. cbn [client host localfs output wire].
  now rewrite <- app_assoc.
Qed.

(** X25. Setting up the credentials a second time changes nothing.  On the
    host in memory, for a service with a private-package setting and a
    credential file that is a file or does not exist (the entry and the
    file without a quote, so that the [echo] of the step writes what it is
    given): the step succeeds, and when it is run again it succeeds with
    the one request that reads the file, leaving the host as the first run
    left it. *)
Theorem AuthPrivateRepo_twice (s : Service) (w : World MemHost) :
  str (conf s) GoPrivate <> "" ->
  SshClient (client w) = true ->
  no_byte "'" (netrc_entry (conf s)) = true ->
  match rfs (host w) !! (rhome (host w) ++ [".netrc"]) with
  | Some (RFile data) => no_byte "'" data = true
  | Some RDir => False
  | None => True
  end ->
  exists w1 w2,
    AuthPrivateRepo s w = (Ok None, w1)
    /\ AuthPrivateRepo s w1 = (Ok None, w2)
    /\ host w2 = host w1
    /\ wire w2 = wire w1 ++ [ReqRun "cat ~/.netrc"].
Proof.
  intros Hp Hc _ Hfile.
  assert (Hd : rfs (host w) !! (rhome (host w) ++ [".netrc"]) <> Some RDir).
  { intros Hx. now rewrite Hx in Hfile. }
  clear Hfile.
  set (auth := netrc_entry (conf s)).
  set (netrc := rhome (host w) ++ [".netrc"]) in *.
  assert (Hfirst : exists w1 data1,
             AuthPrivateRepo s w = (Ok None, w1)
             /\ SshClient (client w1) = true
             /\ rfs (host w1) !! (rhome (host w1) ++ [".netrc"])
                = Some (RFile data1)
             /\ Contains (TrimSuffix data1 nl) auth = true).
  { destruct (rfs (host w) !! netrc) as [[data|]|] eqn:Ef; [|congruence|].
    - destruct (Contains (TrimSuffix data nl) auth) eqn:Ein.
      + eexists. exists data.
        split; [apply (AuthPrivateRepo_settled s w data Hp Hc Ef Ein)|].
        cbn [client host]. now repeat split.
      + unfold AuthPrivateRepo.
        rewrite (eqb_empty_false _ Hp). cbn [negb].
        rewrite bind_eq. unfold SendMessage at 1. cbn iota. rewrite bind_eq.
        erewrite Exec_run;
          [| exact Hc | reflexivity | exact (run_cat (host w) data Ef)].
        cbn [run_err run_stdout fst snd client host localfs output wire].
        fold auth. rewrite Ein. cbn [negb].
        replace ("echo '" +:+ auth +:+ nl +:+ TrimSuffix data nl
                 +:+ "' > ~/.netrc")
          with ("echo '" +:+ (auth +:+ nl +:+ TrimSuffix data nl)
                +:+ "' > ~/.netrc")
          by (now rewrite !app_assoc_str).
        rewrite bind_eq. rewrite bind_eq.
        erewrite Exec_run;
          [| exact Hc | reflexivity
           | apply (run_echo (host w) (auth +:+ nl +:+ TrimSuffix data nl));
             fold netrc; congruence ].
        cbn [run_err run_stdout fst snd client host localfs output wire].
        unfold bind, ret, SendMessage.
        cbn [client host localfs output wire rfs rhome].
        eexists. eexists. split; [reflexivity|].
        cbn [client host rfs rhome]. split; [exact Hc|].
        fold netrc. split; [apply lookup_insert_eq|].
        rewrite TrimSuffix_app. apply Contains_prefix.
    - unfold AuthPrivateRepo.
      rewrite (eqb_empty_false _ Hp). cbn [negb].
      rewrite bind_eq. unfold SendMessage at 1. cbn iota. rewrite bind_eq.
      erewrite Exec_run;
        [| exact Hc | reflexivity | exact (run_cat_missing (host w) Ef)].
      cbn [run_err run_stderr fst snd client host localfs output wire].
      rewrite TrimSuffix_app, (no_entry_in_cat_error (conf s)).
      fold auth. cbn [negb].
      rewrite bind_eq. rewrite bind_eq.
      erewrite Exec_run;
        [| exact Hc | reflexivity
         | apply (run_echo (host w) auth); fold netrc; congruence ].
      cbn [run_err run_stdout fst snd client host localfs output wire].
      unfold bind, ret, SendMessage.
      cbn [client host localfs output wire rfs rhome].
      eexists. eexists. split; [reflexivity|].
      cbn [client host rfs rhome]. split; [exact Hc|].
      fold netrc. split; [apply lookup_insert_eq|].
      rewrite TrimSuffix_app.
      rewrite <- (app_empty_r auth) at 1. apply Contains_prefix. }
  destruct Hfirst as (w1 & data1 & Hrun1 & Hc1 & Hf1 & Hin1).
  exists w1. eexists. split; [exact Hrun1|].
  split; [apply (AuthPrivateRepo_settled s w1 data1 Hp Hc1 Hf1 Hin1)|].
  cbn [host wire]. now split.
Qed.

End NetrcTwice.

Lemma AuthPrivateRepo_twice_witness :
  exists w1 w2,
    AuthPrivateRepo private_service netrc_world = (Ok None, w1)
    /\ AuthPrivateRepo private_service w1 = (Ok None, w2)
    /\ host w2 = host w1
    /\ wire w2 = wire w1 ++ [ReqRun "cat ~/.netrc"].
Proof.
  apply (AuthPrivateRepo_twice private_service netrc_world).
  - apply (bool_decide_unpack _). vm_compute. exact I.
  - reflexivity.
  - reflexivity.
  - vm_compute. reflexivity.
Defined.

(** ** What [DeleteFile] sends *)

Section DeleteRequests.
Context {H : Type} `{Remote H}.

Lemma run_delete_wire (es : list (string * string * lnode)) :
  forall (dirs : list string) (w : World H),
    SftClient (client w) = true ->
    exists w',
      run_entries DeleteFile_visit es dirs w
      = (Ok (None, dirs ++ raw_dirs es), w')
      /\ wire w' = wire w ++ map ReqRemove (raw_files es)
      /\ client w' = client w.
Proof.
  induction es as [|[[lp rp] d] es IH]; intros dirs w Hs.
  - exists w. cbn [run_entries]. unfold raw_dirs, raw_files. cbn.
    rewrite !app_nil_r. now repeat split.
  - cbn [run_entries]. rewrite bind_eq. unfold DeleteFile_visit at 1.
    unfold raw_dirs, raw_files. rewrite !filter_cons. cbn [snd fst].
    destruct d as [data|des]; cbn [IsDir].
    + destruct (decide (false = true)); [discriminate|].
      destruct (decide (false = false)); [|congruence].
      unfold with_SftClient. rewrite !bind_eq. unfold get_client at 1.
      rewrite Hs. unfold request_host at 1.
      destruct (SftpRemove rp (host w)) as [x h1]. unfold ret at 1.
      cbn [fst snd].
      match goal with
      | |- context [run_entries DeleteFile_visit es dirs ?w1] =>
          destruct (IH dirs w1 Hs) as (w2 & -> & Hw & Hc)
      end.
      exists w2. split; [reflexivity|]. cbn [wire client] in Hw, Hc.
      split; [|exact Hc]. rewrite Hw. cbn [map].
      fold (raw_files es). now rewrite <- app_assoc.
    + destruct (decide (true = true)); [|congruence].
      destruct (decide (true = false)); [discriminate|].
      unfold ret at 1. cbn [fst snd].
      destruct (IH (dirs ++ [rp]) w Hs) as (w2 & -> & Hw & Hc).
      exists w2. split; [|now split]. cbn [map fst snd].
      fold (raw_dirs es). now rewrite <- app_assoc.
Qed.

Lemma remove_directories_wire (l : list string) :
  forall w : World H,
    SftClient (client w) = true ->
    exists w',
      remove_directories l w = (Ok tt, w')
      /\ wire w' = wire w ++ map ReqRemoveDirectory l.
Proof.
  induction l as [|dir l IH]; intros w Hs.
  - exists w. split; [reflexivity|]. cbn. now rewrite app_nil_r.
  - cbn [remove_directories]. rewrite bind_eq. unfold with_SftClient.
    rewrite bind_eq. unfold get_client at 1. rewrite Hs.
    unfold request_host at 1.
    destruct (SftpRemoveDirectory dir (host w)) as [x h1].
    match goal with
    | |- context [remove_directories l ?w1] =>
        destruct (IH w1 Hs) as (w2 & -> & Hw)
    end.
    exists w2. split; [reflexivity|]. cbn [wire] in Hw. rewrite Hw.
    cbn [map]. now rewrite <- app_assoc.
Qed.

(** X26. [DeleteFile] does not look at what the host answers.  For a path
    that names a local file or directory, once the sftp client is
    connected, it returns no error and its requests are, whatever each of
    them returned: [Remove] for the destination of every file, in the order
    of the walk, and then [RemoveDirectory] for the destinations of the
    directories, the one visited last first. *)
Theorem DeleteFile_requests (s : Service) (path root : string) (w w0 : World H)
        (d : lnode) :
  localfs w path = Some d ->
  ConnectSftpClient w = (Ok None, w0) ->
  let es := remote_entries root [] (flatten path d) in
  exists w',
    DeleteFile s path root w = (Ok None, w')
    /\ wire w'
       = wire w ++ map ReqRemove (raw_files es)
                ++ map ReqRemoveDirectory (rev (raw_dirs es)).
Proof.
  intros Hl Hconn es.
  assert (Hw0 : wire w0 = wire w) by apply (ConnectSftpClient_wire _ _ _ Hconn).
  assert (H0' : localfs w0 = localfs w /\ SftClient (client w0) = true).
  { revert Hconn.
    unfold ConnectSftpClient, bind, get_client, on_host, set_SftClient, ret.
    destruct (SftClient (client w)) eqn:E; [now intros [= <-]|].
    destruct (NewSftpClient (host w)) as [[e|] h1]; [discriminate|].
    now intros [= <-]. }
  destruct H0' as [Hl0 Hs0].
  unfold DeleteFile. rewrite bind_eq, Hconn. rewrite bind_eq.
  assert (Hl' : localfs w0 path = Some d) by congruence.
  rewrite (Client_WalkDir_entries path root _ [] w0 d Hl').
  unfold walk_entries. rewrite Hl'. fold es.
  destruct (run_delete_wire es [] w0 Hs0) as (w1 & -> & Hw1 & Hc1).
  cbn [fst snd app]. rewrite bind_eq.
  assert (Hs1 : SftClient (client w1) = true) by now rewrite Hc1.
  destruct (remove_directories_wire (rev (raw_dirs es)) w1 Hs1)
    as (w2 & -> & Hw2).
  exists w2. split; [reflexivity|].
  now rewrite Hw2, Hw1, Hw0, <- app_assoc.
Qed.

End DeleteRequests.

Lemma DeleteFile_requests_witness :
  exists w',
    DeleteFile example_service "conf" "/srv" conf_world = (Ok None, w')
    /\ wire w'
       = [ReqRemove "/srv/conf/a.txt"; ReqRemove "/srv/conf/sub/b.txt";
          ReqRemoveDirectory "/srv/conf/sub"; ReqRemoveDirectory "/srv/conf"].
Proof.
  apply (DeleteFile_requests example_service "conf" "/srv" conf_world
           (mkWorld example_host conf_files (mkClient true true) [] [])
           conf_tree).
  - reflexivity.
  - reflexivity.
Defined.

(** ** The name [getExec] finds *)

Section GetExecShape.
Import PackageRegExp.

Lemma span_word_split (s : string) :
  s = fst (span_word s) +:+ snd (span_word s)
  /\ all_word (fst (span_word s)) = true.
Proof.
  induction s as [|c s [IH1 IH2]]; [easy|]. cbn [span_word].
  destruct (is_word c) eqn:E; cbn [fst snd String.append all_word].
  - rewrite <- IH1, E, IH2. easy.
  - easy.
Qed.

Lemma group_at_shape (s g : string) :
  group_at s = Some g ->
  g <> "" /\ all_word g = true /\ exists post, s = g +:+ "@" +:+ post.
Proof.
  intros Hg. destruct (group_at_inv s g Hg) as (-> & Hne & r & Hr).
  destruct (span_word_split s) as [Hs Hw].
  split; [exact Hne|]. split; [exact Hw|].
  exists r. rewrite Hr in Hs. exact Hs.
Qed.

Lemma FindStringSubmatch_shape (s g : string) :
  FindStringSubmatch s = Some g ->
  g <> "" /\ all_word g = true
  /\ exists pre post, s = pre +:+ g +:+ "@" +:+ post.
Proof.
  induction s as [|c s IH]; cbn [FindStringSubmatch].
  - cbn. discriminate.
  - destruct (match_here (String c s)) as [g0|] eqn:Em.
    + intros [= ->]. unfold match_here in Em.
      assert (Hcases : group_at (String c s) = Some g
                       \/ (c = "/"%char /\ group_at s = Some g)).
      { destruct (Ascii.eqb c "/") eqn:Ec.
        - apply Ascii.eqb_eq in Ec. subst c.
          destruct (group_at s) as [g1|] eqn:Eg;
            [right; split; [reflexivity | congruence] | now left].
        - left. destruct c as [[] [] [] [] [] [] [] []];
            try exact Em; discriminate. }
      destruct Hcases as [Hg | [-> Hg]].
      * destruct (group_at_shape _ _ Hg) as (Hne & Hw & post & Hs).
        split; [exact Hne|]. split; [exact Hw|]. exists "", post. exact Hs.
      * destruct (group_at_shape _ _ Hg) as (Hne & Hw & post & Hs).
        split; [exact Hne|]. split; [exact Hw|]. exists "/", post.
        rewrite Hs at 1. reflexivity.
    + intros Hf. destruct (IH Hf) as (Hne & Hw & pre & post & Hs).
      split; [exact Hne|]. split; [exact Hw|].
      exists (String c pre), post. rewrite Hs at 1. reflexivity.
Qed.

(** X27. The name [getExec] gives is empty or a run of letters, digits,
    [_] and [-] that stands in the package right before an [@]: it holds
    no separator and no dot, so the default start command is a file of the
    go binary directory itself. *)
Theorem getExec_name_shape (packageName : string) :
  getExec packageName = ""
  \/ (all_word (getExec packageName) = true
      /\ exists pre post,
          packageName = pre +:+ getExec packageName +:+ "@" +:+ post).
Proof.
  unfold getExec.
  destruct (FindStringSubmatch packageName) as [g|] eqn:E; [|now left].
  right. destruct (FindStringSubmatch_shape _ _ E) as (_ & Hw & Hs).
  now split.
Qed.

End GetExecShape.

(** ** [DeleteFiles]: the files that were copied *)

Section DeleteLoop.
Context {H : Type} `{Remote H}.

(** X28. [DeleteFiles] goes on after a path that fails and reports success
    at the end.  When the sftp client cannot be connected, every path of
    [copy_files] gets a warning with the error, nothing is sent to the
    host, the last message is the success message [All files deleted], and
    the step returns no error. *)
Theorem DeleteFiles_warns_and_goes_on (s : Service) (w : World H) (e : error) :
  SftClient (client w) = false ->
  (forall h : H, NewSftpClient h = (Some e, h)) ->
  CopyFiles (conf s) <> [] ->
  DeleteFiles s false w
  = (Ok None,
     mkWorld (host w) (localfs w) (client w)
       (output w
        ++ [Message (Name s) "Deleting files" MessageNormal]
        ++ map (fun path =>
                  Message (Name s)
                          ("cannot delete file '" +:+ path +:+ "': " +:+ Error e)
                          MessageWarning)
               (CopyFiles (conf s))
        ++ [Message (Name s) "All files deleted" MessageSuccess])
       (wire w)).
Proof.
  intros Hs Hn Hne.
  assert (Hloop : forall paths out,
    DeleteFiles_loop s paths
      (mkWorld (host w) (localfs w) (client w) out (wire w))
    = (Ok tt,
       mkWorld (host w) (localfs w) (client w)
         (out ++ map (fun path =>
                        Message (Name s)
                                ("cannot delete file '" +:+ path +:+ "': "
                                 +:+ Error e) MessageWarning) paths)
         (wire w))).
  { induction paths as [|p paths IH]; intros out.
    - cbn [DeleteFiles_loop map]. now rewrite app_nil_r.
    - cbn [DeleteFiles_loop map]. rewrite bind_eq.
      unfold DeleteFile at 1. rewrite bind_eq.
      unfold ConnectSftpClient at 1. rewrite bind_eq.
      unfold get_client at 1. cbn [client]. rewrite Hs. rewrite bind_eq.
      unfold on_host at 1. cbn [host]. rewrite Hn.
      unfold ret at 1. cbn iota. unfold ret at 1. cbn iota.
      rewrite bind_eq. unfold SendMessage at 1.
      cbn [client host localfs output wire].
      rewrite IH. now rewrite <- app_assoc. }
  unfold DeleteFiles, DeleteFiles_copied.
  destruct (CopyFiles (conf s)) as [|p paths] eqn:Ecf; [congruence|].
  cbn [length Nat.ltb Nat.leb].
  rewrite bind_eq. rewrite bind_eq. unfold SendMessage at 1. cbn iota.
  rewrite bind_eq, Hloop.
  unfold bind, SendMessage, ret. cbn [client host localfs output wire].
  now rewrite <- !app_assoc.
Qed.

End DeleteLoop.

Lemma DeleteFiles_warns_and_goes_on_witness :
  DeleteFiles copying_service false refusing_world
  = (Ok None,
     mkWorld refusing_host no_local_files (mkClient true false)
       [Message "srv" "Deleting files" MessageNormal;
        Message "srv"
          "cannot delete file 'etc/motd': ssh: rejected: administratively prohibited (open failed)"
          MessageWarning;
        Message "srv"
          "cannot delete file 'conf': ssh: rejected: administratively prohibited (open failed)"
          MessageWarning;
        Message "srv" "All files deleted" MessageSuccess]
       []).
Proof.
  apply (DeleteFiles_warns_and_goes_on copying_service refusing_world refused).
  - reflexivity.
  - intros h. reflexivity.
  - apply (bool_decide_unpack _). vm_compute. exact I.
Defined.

(** ** C3: copy, then delete *)

Section MirrorClaim.


End MirrorClaim.



(** ** C5: the login directory *)

(** C5 fails on the code.  The configuration file gives [/home/pioz/] as
    working directory, the login directory of the host with a separator at
    its end.  [MakeService] records [/home/pioz] as the login directory; the
    two strings differ, so [Uninstall] with [removeWorkingDirectory] asks
    the host to remove [/home/pioz/], and the login directory, which is
    empty, is removed. *)
Lemma Uninstall_removes_home_directory :
  fst slash_made = Ok (inl (made_service slash_made), made_runner slash_made)
  /\ str (conf (made_service slash_made)) WorkingDirectory = "/home/pioz/"
  /\ remoteHomeDir (made_service slash_made) = "/home/pioz"
  /\ Mem.resolve (rhome (host (snd slash_made))) "/home/pioz" = ["home"; "pioz"]
  /\ rfs (host (snd slash_made)) !! ["home"; "pioz"] = Some RDir
  /\ fst (Uninstall (made_service slash_made) true (snd slash_made)) = Ok tt
  /\ last (wire (snd (Uninstall (made_service slash_made) true
                        (snd slash_made))))
     = Some (ReqRemove "/home/pioz/")
  /\ rfs (host (snd (Uninstall (made_service slash_made) true
                       (snd slash_made))))
       !! ["home"; "pioz"] = None.
Proof. repeat split; vm_compute; reflexivity. Qed.

(** ** C7: a file after nested directories *)

(** C7 fails on the code.  The local directory [conf] holds the directory
    [a], which holds the empty directory [b], and after [a] the file
    [z.txt].  The walk to [/srv] visits [conf/z.txt] with the two directories
    [a] and [b] to leave and takes one from the stack: the destination it
    gives the callback is [/srv/conf/a/z.txt], not [/srv/conf/z.txt], and
    that is where [CopyFile] writes the file. *)
Lemma WalkDir_sibling_after_nested_directories :
  (forall T (fn : WalkDirFunc (H:=MemHost) T) (t : T),
     Client_WalkDir "conf" "/srv" fn t deep_world
     = run_entries fn
         [("conf", "/srv/conf", deep_tree);
          ("conf/a", "/srv/conf/a", nested ["b"]);
          ("conf/a/b", "/srv/conf/a/b", LDir []);
          ("conf/z.txt", "/srv/conf/a/z.txt", LFile "Z")] t deep_world)
  /\ fst (CopyFile example_service "conf" "/srv" deep_world) = Ok None
  /\ wire (snd (CopyFile example_service "conf" "/srv" deep_world))
     = [ReqMkdirAll "/srv/conf"; ReqMkdirAll "/srv/conf/a";
        ReqMkdirAll "/srv/conf/a/b"; ReqCreate "/srv/conf/a/z.txt";
        ReqWrite "/srv/conf/a/z.txt" "Z"]
  /\ rfs (host (snd (CopyFile example_service "conf" "/srv" deep_world)))
       !! ["srv"; "conf"; "a"; "z.txt"] = Some (RFile "Z")
  /\ rfs (host (snd (CopyFile example_service "conf" "/srv" deep_world)))
       !! ["srv"; "conf"; "z.txt"] = None.
Proof.
  split.
  - intros T fn t.
    rewrite (Client_WalkDir_entries "conf" "/srv" fn t deep_world deep_tree
               eq_refl).
    reflexivity.
  - repeat split; vm_compute; reflexivity.
Qed.
